(** * Carmageddon clone: collision, scoring, agents and vehicle control

    A shallow embedding of the simulation core of the game
    ([CollisionManager], [PhysicsWorld], [NPCManager], [Human], [Animal],
    [Vehicle], [VehicleControls]) together with the properties of its
    specification and further properties of the code.

    Conventions of the embedding.
    - A JavaScript [number] is an exact rational ([Q]).  Where the code
      can observe a non-finite number (the time delta handed to
      [PhysicsWorld.update]) the type [jsnum] adds [NaN] and the two
      infinities.  Rounding is left out: a value the code computes can
      differ from the model's in its last bits, and a comparison of a
      computed value with a threshold can go the other way when the two
      are within rounding distance of each other.  A property that rests
      on such a comparison is stated with a margin around the threshold.
    - Integer-valued numbers (body ids, the score, millisecond clocks)
      are [Z].
    - [Map<number, _>] is a [gmap Z _], [Set<number>] a [gset Z], arrays
      are lists.
    - Objects shared by reference (cannon-es bodies, three.js objects)
      live in a store indexed by their [id]; owners hold the id.
    - [Date.now()], [Math.random()] and the pending [setTimeout] callbacks
      are part of the explicit program state.
    - The transcendental part of the [Math] object has no exact rational
      counterpart; it is an interface ([MathLib]) the model is
      parameterised by. *)

From Stdlib Require Import ZArith QArith Qround Qabs Lqa Lia List Bool.
From Stdlib Require String.
From stdpp Require Import base option list gmap sets.

Set Default Proof Using "Type".

(* ================================================================== *)
(** * Part I: the model                                                *)
(* ================================================================== *)

(** ** JavaScript numbers and the [Math] object *)

Module JS.
Local Open Scope Q_scope.

(** [a < b] and [a > b] on finite numbers. *)
Definition ltb (a b : Q) : bool := negb (Qle_bool b a).
Definition gtb (a b : Q) : bool := ltb b a.
Definition leb (a b : Q) : bool := Qle_bool a b.
Definition geb (a b : Q) : bool := Qle_bool b a.

Definition Math_min (a b : Q) : Q := if Qle_bool a b then a else b.
Definition Math_max (a b : Q) : Q := if Qle_bool a b then b else a.
Definition Math_abs (a : Q) : Q := Qabs a.

(** [Math.round]: the nearest integer, ties towards +infinity. *)
Definition Math_round (x : Q) : Z := Qfloor (x + (1 # 2)).
Definition Math_floor (x : Q) : Z := Qfloor x.

(** A number that may be non-finite. *)
Inductive jsnum : Type :=
| NaN
| Infinity (negative : bool)
| Num (q : Q).

(** [x > 0] as JavaScript evaluates it: false on [NaN]. *)
Definition jsnum_gt0 (x : jsnum) : bool :=
  match x with
  | NaN => false
  | Infinity negative => negb negative
  | Num q => gtb q 0
  end.

(** [x <= 0], again false on [NaN]. *)
Definition jsnum_le0 (x : jsnum) : bool :=
  match x with
  | NaN => false
  | Infinity negative => negative
  | Num q => leb q 0
  end.

Definition jsnum_isNaN (x : jsnum) : bool :=
  match x with NaN => true | _ => false end.

End JS.

(** ** Vectors ([THREE.Vector3], [CANNON.Vec3]) *)

Record Vec3 : Type := mkVec3 { vx : Q; vy : Q; vz : Q }.

Record Quaternion : Type := mkQuat { qx : Q; qy : Q; qz : Q; qw : Q }.

Module Vec.
Local Open Scope Q_scope.

Definition zero : Vec3 := mkVec3 0 0 0.
Definition add (a b : Vec3) : Vec3 :=
  mkVec3 (vx a + vx b) (vy a + vy b) (vz a + vz b).
Definition sub (a b : Vec3) : Vec3 :=
  mkVec3 (vx a - vx b) (vy a - vy b) (vz a - vz b).
Definition scale (a : Vec3) (k : Q) : Vec3 :=
  mkVec3 (vx a * k) (vy a * k) (vz a * k).
Definition lengthSq (a : Vec3) : Q := vx a * vx a + vy a * vy a + vz a * vz a.

End Vec.

(** ** The part of [Math] that is not rational

    [Math_sqrt], [Math_sin], [Math_cos] and [Math_atan2] are the
    floating-point routines of the host; [Math_PI] is the constant.
    Nothing is assumed about them here; a theorem that needs a property
    (a range, a bound) states it as a hypothesis. *)

Class MathLib : Type := {
  Math_sqrt : Q -> Q;
  Math_sin : Q -> Q;
  Math_cos : Q -> Q;
  Math_atan2 : Q -> Q -> Q;
  Math_PI : Q
}.

Module VecLib.
Section WithMath.
Context `{MathLib}.
Local Open Scope Q_scope.

(** [Vector3.length()]. *)
Definition length (a : Vec3) : Q := Math_sqrt (Vec.lengthSq a).

(** [a.distanceTo(b)]. *)
Definition distanceTo (a b : Vec3) : Q := length (Vec.sub a b).

(** [Vector3.normalize()]: [divideScalar(length() || 1)]. *)
Definition normalize (a : Vec3) : Vec3 :=
  let l := length a in
  let d := if Qeq_bool l 0 then 1 else l in
  mkVec3 (vx a / d) (vy a / d) (vz a / d).

End WithMath.
End VecLib.

(** ** [Vehicle]: the longitudinal controller *)

Module Vehicle.
Local Open Scope Q_scope.

Record ControlState : Type := mkControls {
  forward : bool;
  backward : bool;
  left : bool;
  right : bool;
  brake : bool;
  handbrake : bool
}.

(** Vehicle properties: private fields that are initialised once and
    never assigned again. *)
Definition maxSpeed : Q := 55.
Definition acceleration : Q := 10.
Definition turnSpeed : Q := 0.03.
Definition brakeForce : Q := 15.

(** A vehicle: scalar velocity, heading, and the ids of its physics body
    and of its mesh. *)
Record t : Type := mkVehicle {
  velocity : Q;
  direction : Q;
  body : Z;
  mesh : Z
}.

(** What the managers keep of the vehicle they are handed: the object
    itself is shared, and they only ever reach its body and its mesh. *)
Record ref : Type := mkRef {
  ref_body : Z;
  ref_mesh : Z
}.

Definition ref_of (veh : t) : ref := mkRef (body veh) (mesh veh).

(** The successive stages of [applyControls], each a function of the
    velocity (or heading) left by the previous one. *)
Definition accelerate (cs : ControlState) (v : Q) : Q :=
  if forward cs then v + acceleration * 0.016 else v.

Definition brake_or_reverse (cs : ControlState) (v : Q) : Q :=
  if backward cs then
    (if JS.gtb v 0 then v - brakeForce * 0.016 else v - acceleration * 0.016)
  else v.

Definition steer (cs : ControlState) (d : Q) : Q :=
  let d := if left cs then d + turnSpeed else d in
  if right cs then d - turnSpeed else d.

Definition apply_handbrake (cs : ControlState) (v : Q) : Q :=
  if handbrake cs then v * 0.9 else v.

Definition apply_brake (cs : ControlState) (v : Q) : Q :=
  if brake cs then
    (if JS.gtb v 0 then v - brakeForce * 0.016
     else if JS.ltb v 0 then v + brakeForce * 0.016
     else v)
  else v.

Definition clamp (v : Q) : Q :=
  JS.Math_max (JS.Math_min v maxSpeed) (- maxSpeed / 2).

Definition natural_deceleration (cs : ControlState) (v : Q) : Q :=
  if negb (forward cs) && negb (backward cs) then
    (if JS.ltb (JS.Math_abs v) 0.1 then 0 else v * 0.98)
  else v.

Definition applyControls (cs : ControlState) (veh : t) : t :=
  let v := accelerate cs (velocity veh) in
  let v := brake_or_reverse cs v in
  let d := steer cs (direction veh) in
  let v := apply_handbrake cs v in
  let v := apply_brake cs v in
  let v := clamp v in
  let v := natural_deceleration cs v in
  {| velocity := v; direction := d; body := body veh; mesh := mesh veh |}.

Definition getVelocity (veh : t) : Q := velocity veh.
Definition getSpeed (veh : t) : Q := JS.Math_abs (velocity veh).
Definition getDirection (veh : t) : Q := direction veh.
Definition getBody (veh : t) : Z := body veh.

Definition no_input : ControlState := mkControls false false false false false false.

End Vehicle.

(** ** Species *)

Inductive AnimalType : Type := DOG | CAT | COW | DEER | BIRD.

#[global] Instance AnimalType_eq_dec : EqDecision AnimalType.
Proof. solve_decision. Defined.

(** ** Objects of the physics library (cannon-es) *)

Module CANNON.

Inductive NpcType : Type := HumanNpc | AnimalNpc.

(** A rigid body.  [shapeOffsets] and [shapeOrientations] have one entry
    per shape; [_npcType] and [_animalType] are the ad hoc tags the agents
    attach to their bodies. *)
Record Body : Type := mkBody {
  id : Z;
  position : Vec3;
  velocity : Vec3;
  quaternion : Quaternion;
  force : Vec3;
  angularVelocity : Vec3;
  mass : Q;
  collisionFilterGroup : Z;
  shapeOffsets : list Vec3;
  shapeOrientations : list Quaternion;
  _npcType : option NpcType;
  _animalType : option AnimalType
}.

Definition set_position (x : Vec3) (r : Body) : Body :=
  mkBody (id r) x (velocity r) (quaternion r) (force r) (angularVelocity r)
    (mass r) (collisionFilterGroup r) (shapeOffsets r) (shapeOrientations r)
    (_npcType r) (_animalType r).
Definition set_velocity (x : Vec3) (r : Body) : Body :=
  mkBody (id r) (position r) x (quaternion r) (force r) (angularVelocity r)
    (mass r) (collisionFilterGroup r) (shapeOffsets r) (shapeOrientations r)
    (_npcType r) (_animalType r).
Definition set_quaternion (x : Quaternion) (r : Body) : Body :=
  mkBody (id r) (position r) (velocity r) x (force r) (angularVelocity r)
    (mass r) (collisionFilterGroup r) (shapeOffsets r) (shapeOrientations r)
    (_npcType r) (_animalType r).
Definition set_force (x : Vec3) (r : Body) : Body :=
  mkBody (id r) (position r) (velocity r) (quaternion r) x (angularVelocity
    r) (mass r) (collisionFilterGroup r) (shapeOffsets r) (shapeOrientations
    r) (_npcType r) (_animalType r).
Definition set_angularVelocity (x : Vec3) (r : Body) : Body :=
  mkBody (id r) (position r) (velocity r) (quaternion r) (force r) x (mass
    r) (collisionFilterGroup r) (shapeOffsets r) (shapeOrientations r)
    (_npcType r) (_animalType r).

(** A contact of the current step.  [bi] and [bj] are the ids of the two
    bodies, [ri] the contact point relative to [bi];
    [impactVelocityAlongNormal] is what [getImpactVelocityAlongNormal()]
    returns for it. *)
Record ContactEquation : Type := mkContact {
  bi : Z;
  bj : Z;
  ri : Vec3;
  enabled : bool;
  impactVelocityAlongNormal : Q
}.

End CANNON.

(** ** Objects of the rendering library (three.js) *)

Module THREE.

(** A scene object: position, [rotation.y] and orientation.  three.js
    keeps [rotation] and [quaternion] in step with each other; that
    conversion is not modelled, and no property below reads one after
    writing the other. *)
Record Object3D : Type := mkObject3D {
  id : Z;
  position : Vec3;
  rotation_y : Q;
  quaternion : Quaternion
}.

Definition set_position (x : Vec3) (r : Object3D) : Object3D :=
  mkObject3D (id r) x (rotation_y r) (quaternion r).
Definition set_rotation_y (x : Q) (r : Object3D) : Object3D :=
  mkObject3D (id r) (position r) x (quaternion r).
Definition set_quaternion (x : Quaternion) (r : Object3D) : Object3D :=
  mkObject3D (id r) (position r) (rotation_y r) x.

End THREE.

(** ** [Map] with object keys

    A JavaScript [Map] iterates in insertion order, and [set] on a key
    that is present keeps its place.  Keys are object ids. *)

Module JSMap.
Section JSMap.
Context {V : Type}.

Definition t : Type := list (Z * V).

Fixpoint get (k : Z) (m : t) : option V :=
  match m with
  | [] => None
  | (k', v) :: rest => if Z.eqb k k' then Some v else get k rest
  end.

Definition has (k : Z) (m : t) : bool :=
  match get k m with Some _ => true | None => false end.

Fixpoint replace (k : Z) (v : V) (m : t) : t :=
  match m with
  | [] => []
  | (k', v') :: rest =>
      if Z.eqb k k' then (k', v) :: rest else (k', v') :: replace k v rest
  end.

Definition set (k : Z) (v : V) (m : t) : t :=
  if has k m then replace k v m else m ++ [(k, v)].

Definition delete (k : Z) (m : t) : t :=
  List.filter (fun p => negb (Z.eqb k (fst p))) m.

End JSMap.
Arguments t : clear implicits.
End JSMap.

(** ** Collision events *)

Inductive CollisionObjectType : Type :=
| VEHICLE | BUILDING | HUMAN_NPC | ANIMAL_NPC | PROP | GROUND | MISC.

#[global] Instance CollisionObjectType_eq_dec : EqDecision CollisionObjectType.
Proof. solve_decision. Defined.

(** The event the physics world hands to its collision callbacks.
    [checkCollisions] always fills in [contact]; [handleCollision] also
    accepts an event without one. *)
Module PhysicsEvent.
Record t : Type := mk {
  bodyA : Z;
  bodyB : Z;
  contact : option CANNON.ContactEquation;
  impactVelocity : Q
}.
End PhysicsEvent.

(** [CollisionEvent]: the outcome handed to the scoring rules and to the
    registered consumers. *)
Module CollisionEvent.
Record t : Type := mk {
  bodyA : Z;
  bodyB : Z;
  contact : option CANNON.ContactEquation;
  target : option Z;
  targetType : CollisionObjectType;
  impactVelocity : Q;
  collisionPoint : Vec3
}.
End CollisionEvent.

(** A consumer callback is an opaque closure of an external collaborator.
    What the core can observe of it is that it was called, and whether the
    call threw. *)
Record CollisionCallback : Type := mkCallback {
  cb_name : Z;
  cb_throws : CollisionEvent.t -> bool
}.

(** The callbacks registered on the physics world: the collision
    manager's bound [handleCollision], or a closure of somebody else. *)
Inductive PhysicsCallback : Type :=
| HandleCollision
| ExternalCallback (name : Z) (throws : PhysicsEvent.t -> bool).

(** How a call ended. *)
Inductive Outcome : Type := Returned | Threw.

(** Calls into the external collaborators (DOM popups, particle system,
    audio) and into the consumer callbacks, in the order they were made.
    Console output is not recorded. *)
Inductive Effect : Type :=
| ScorePopup (point : Vec3) (delta : Z)
| ComboPopup (comboCount : Z) (multiplier : Q)
| AnimalImpactEffect (point : Vec3) (intensity : Q)
| CollisionSound_animal
| NPCSound (animal : AnimalType)
| CallbackInvoked (name : Z) (event : CollisionEvent.t)
| PhysicsCallbackInvoked (name : Z) (event : PhysicsEvent.t).

(** A pending [setTimeout(() => this.hitObjects.delete(id), 1000)]. *)
Record Timer : Type := mkTimer {
  timer_due : Z;
  timer_target : Z
}.

(** ** State of [PhysicsWorld] *)

Module PhysicsWorldState.

Inductive SceneRef : Type := TheScene.

Record DebugMesh : Type := mkDebugMesh {
  debug_mesh : Z;
  __cannonBody : Z;
  __cannonShapeIndex : nat
}.

(** [world_bodies], [world_contacts] and [world_accumulator] are the part
    of the cannon-es [World] the wrapper relies on.  [physicsBodies] maps
    a body id to the body, that is, to its id again. *)
Record t : Type := mk {
  world_bodies : list Z;
  world_contacts : list CANNON.ContactEquation;
  world_accumulator : Q;
  physicsBodies : JSMap.t Z;
  meshBodyMap : JSMap.t Z;
  bodyMeshMap : JSMap.t Z;
  debugMode : bool;
  debugMeshes : list DebugMesh;
  debugScene : option SceneRef;
  collisionCallbacks : list PhysicsCallback
}.

Definition set_world_bodies (x : list Z) (r : t) : t :=
  mk x (world_contacts r) (world_accumulator r) (physicsBodies r)
    (meshBodyMap r) (bodyMeshMap r) (debugMode r) (debugMeshes r)
    (debugScene r) (collisionCallbacks r).
Definition set_world_contacts (x : list CANNON.ContactEquation) (r : t) : t :=
  mk (world_bodies r) x (world_accumulator r) (physicsBodies r) (meshBodyMap
    r) (bodyMeshMap r) (debugMode r) (debugMeshes r) (debugScene r)
    (collisionCallbacks r).
Definition set_world_accumulator (x : Q) (r : t) : t :=
  mk (world_bodies r) (world_contacts r) x (physicsBodies r) (meshBodyMap r)
    (bodyMeshMap r) (debugMode r) (debugMeshes r) (debugScene r)
    (collisionCallbacks r).
Definition set_physicsBodies (x : JSMap.t Z) (r : t) : t :=
  mk (world_bodies r) (world_contacts r) (world_accumulator r) x
    (meshBodyMap r) (bodyMeshMap r) (debugMode r) (debugMeshes r)
    (debugScene r) (collisionCallbacks r).
Definition set_meshBodyMap (x : JSMap.t Z) (r : t) : t :=
  mk (world_bodies r) (world_contacts r) (world_accumulator r)
    (physicsBodies r) x (bodyMeshMap r) (debugMode r) (debugMeshes r)
    (debugScene r) (collisionCallbacks r).
Definition set_bodyMeshMap (x : JSMap.t Z) (r : t) : t :=
  mk (world_bodies r) (world_contacts r) (world_accumulator r)
    (physicsBodies r) (meshBodyMap r) x (debugMode r) (debugMeshes r)
    (debugScene r) (collisionCallbacks r).
Definition set_debugMode (x : bool) (r : t) : t :=
  mk (world_bodies r) (world_contacts r) (world_accumulator r)
    (physicsBodies r) (meshBodyMap r) (bodyMeshMap r) x (debugMeshes r)
    (debugScene r) (collisionCallbacks r).
Definition set_debugMeshes (x : list DebugMesh) (r : t) : t :=
  mk (world_bodies r) (world_contacts r) (world_accumulator r)
    (physicsBodies r) (meshBodyMap r) (bodyMeshMap r) (debugMode r) x
    (debugScene r) (collisionCallbacks r).
Definition set_debugScene (x : option SceneRef) (r : t) : t :=
  mk (world_bodies r) (world_contacts r) (world_accumulator r)
    (physicsBodies r) (meshBodyMap r) (bodyMeshMap r) (debugMode r)
    (debugMeshes r) x (collisionCallbacks r).
Definition set_collisionCallbacks (x : list PhysicsCallback) (r : t) : t :=
  mk (world_bodies r) (world_contacts r) (world_accumulator r)
    (physicsBodies r) (meshBodyMap r) (bodyMeshMap r) (debugMode r)
    (debugMeshes r) (debugScene r) x.

End PhysicsWorldState.

(** ** State of [CollisionManager] *)

Module CollisionManagerState.

(** The fields [sounds] and [particleSystems] are left out: the first is
    never read, the second is never written (its initialiser is disabled),
    so it is the empty map throughout. *)
Record t : Type := mk {
  vehicle : option Vehicle.ref;
  collisionCallbacks : list CollisionCallback;
  consecutiveHumanHits : Z;
  lastHitTime : Z;
  comboTimeWindow : Z;
  score : Z;
  objectTypes : gmap Z CollisionObjectType;
  hitObjects : gset Z;
  debugMode : bool
}.

Definition set_vehicle (x : option Vehicle.ref) (r : t) : t :=
  mk x (collisionCallbacks r) (consecutiveHumanHits r) (lastHitTime r)
    (comboTimeWindow r) (score r) (objectTypes r) (hitObjects r) (debugMode
    r).
Definition set_collisionCallbacks (x : list CollisionCallback) (r : t) : t :=
  mk (vehicle r) x (consecutiveHumanHits r) (lastHitTime r) (comboTimeWindow
    r) (score r) (objectTypes r) (hitObjects r) (debugMode r).
Definition set_consecutiveHumanHits (x : Z) (r : t) : t :=
  mk (vehicle r) (collisionCallbacks r) x (lastHitTime r) (comboTimeWindow
    r) (score r) (objectTypes r) (hitObjects r) (debugMode r).
Definition set_lastHitTime (x : Z) (r : t) : t :=
  mk (vehicle r) (collisionCallbacks r) (consecutiveHumanHits r) x
    (comboTimeWindow r) (score r) (objectTypes r) (hitObjects r) (debugMode
    r).
Definition set_score (x : Z) (r : t) : t :=
  mk (vehicle r) (collisionCallbacks r) (consecutiveHumanHits r)
    (lastHitTime r) (comboTimeWindow r) x (objectTypes r) (hitObjects r)
    (debugMode r).
Definition set_objectTypes (x : gmap Z CollisionObjectType) (r : t) : t :=
  mk (vehicle r) (collisionCallbacks r) (consecutiveHumanHits r)
    (lastHitTime r) (comboTimeWindow r) (score r) x (hitObjects r)
    (debugMode r).
Definition set_hitObjects (x : gset Z) (r : t) : t :=
  mk (vehicle r) (collisionCallbacks r) (consecutiveHumanHits r)
    (lastHitTime r) (comboTimeWindow r) (score r) (objectTypes r) x
    (debugMode r).
Definition set_debugMode (x : bool) (r : t) : t :=
  mk (vehicle r) (collisionCallbacks r) (consecutiveHumanHits r)
    (lastHitTime r) (comboTimeWindow r) (score r) (objectTypes r)
    (hitObjects r) x.

End CollisionManagerState.

(** ** The shared program state

    [bodies] and [objects] are the stores of the two libraries'
    objects, with the counters their constructors draw ids from; [scene]
    lists the children of the three.js scene.  [timers] are the pending
    timeouts, [randoms] the values the coming calls of [Math.random()]
    return, [effects] the calls made so far into the collaborators.
    [particleSystem] says whether the scene has an object of that name
    with a [createEffect] method, [audioManager] whether
    [window.audioManager] is set. *)
Record Game : Type := mkGame {
  bodies : gmap Z CANNON.Body;
  objects : gmap Z THREE.Object3D;
  bodyIdCounter : Z;
  objectIdCounter : Z;
  scene : list Z;
  physicsWorld : PhysicsWorldState.t;
  collisionManager : CollisionManagerState.t;
  timers : list Timer;
  randoms : list Q;
  effects : list Effect;
  particleSystem : bool;
  audioManager : bool
}.

Definition set_bodies (x : gmap Z CANNON.Body) (r : Game) : Game :=
  mkGame x (objects r) (bodyIdCounter r) (objectIdCounter r) (scene r)
    (physicsWorld r) (collisionManager r) (timers r) (randoms r) (effects r)
    (particleSystem r) (audioManager r).
Definition set_objects (x : gmap Z THREE.Object3D) (r : Game) : Game :=
  mkGame (bodies r) x (bodyIdCounter r) (objectIdCounter r) (scene r)
    (physicsWorld r) (collisionManager r) (timers r) (randoms r) (effects r)
    (particleSystem r) (audioManager r).
Definition set_bodyIdCounter (x : Z) (r : Game) : Game :=
  mkGame (bodies r) (objects r) x (objectIdCounter r) (scene r)
    (physicsWorld r) (collisionManager r) (timers r) (randoms r) (effects r)
    (particleSystem r) (audioManager r).
Definition set_objectIdCounter (x : Z) (r : Game) : Game :=
  mkGame (bodies r) (objects r) (bodyIdCounter r) x (scene r) (physicsWorld
    r) (collisionManager r) (timers r) (randoms r) (effects r)
    (particleSystem r) (audioManager r).
Definition set_scene (x : list Z) (r : Game) : Game :=
  mkGame (bodies r) (objects r) (bodyIdCounter r) (objectIdCounter r) x
    (physicsWorld r) (collisionManager r) (timers r) (randoms r) (effects r)
    (particleSystem r) (audioManager r).
Definition set_physicsWorld (x : PhysicsWorldState.t) (r : Game) : Game :=
  mkGame (bodies r) (objects r) (bodyIdCounter r) (objectIdCounter r) (scene
    r) x (collisionManager r) (timers r) (randoms r) (effects r)
    (particleSystem r) (audioManager r).
Definition set_collisionManager (x : CollisionManagerState.t) (r : Game) : Game :=
  mkGame (bodies r) (objects r) (bodyIdCounter r) (objectIdCounter r) (scene
    r) (physicsWorld r) x (timers r) (randoms r) (effects r) (particleSystem
    r) (audioManager r).
Definition set_timers (x : list Timer) (r : Game) : Game :=
  mkGame (bodies r) (objects r) (bodyIdCounter r) (objectIdCounter r) (scene
    r) (physicsWorld r) (collisionManager r) x (randoms r) (effects r)
    (particleSystem r) (audioManager r).
Definition set_randoms (x : list Q) (r : Game) : Game :=
  mkGame (bodies r) (objects r) (bodyIdCounter r) (objectIdCounter r) (scene
    r) (physicsWorld r) (collisionManager r) (timers r) x (effects r)
    (particleSystem r) (audioManager r).
Definition set_effects (x : list Effect) (r : Game) : Game :=
  mkGame (bodies r) (objects r) (bodyIdCounter r) (objectIdCounter r) (scene
    r) (physicsWorld r) (collisionManager r) (timers r) (randoms r) x
    (particleSystem r) (audioManager r).

(** ** State of a [Human] *)

Module HumanState.

Record t : Type := mk {
  mesh : Z;
  body : Z;
  walkSpeed : Q;
  direction : Q;
  isWalking : bool;
  panicMode : bool;
  targetPosition : option Vec3;
  nextDirectionChange : Z;
  directionChangeInterval : Z
}.

Definition set_walkSpeed (x : Q) (r : t) : t :=
  mk (mesh r) (body r) x (direction r) (isWalking r) (panicMode r)
    (targetPosition r) (nextDirectionChange r) (directionChangeInterval r).
Definition set_direction (x : Q) (r : t) : t :=
  mk (mesh r) (body r) (walkSpeed r) x (isWalking r) (panicMode r)
    (targetPosition r) (nextDirectionChange r) (directionChangeInterval r).
Definition set_isWalking (x : bool) (r : t) : t :=
  mk (mesh r) (body r) (walkSpeed r) (direction r) x (panicMode r)
    (targetPosition r) (nextDirectionChange r) (directionChangeInterval r).
Definition set_panicMode (x : bool) (r : t) : t :=
  mk (mesh r) (body r) (walkSpeed r) (direction r) (isWalking r) x
    (targetPosition r) (nextDirectionChange r) (directionChangeInterval r).
Definition set_targetPosition (x : option Vec3) (r : t) : t :=
  mk (mesh r) (body r) (walkSpeed r) (direction r) (isWalking r) (panicMode
    r) x (nextDirectionChange r) (directionChangeInterval r).
Definition set_nextDirectionChange (x : Z) (r : t) : t :=
  mk (mesh r) (body r) (walkSpeed r) (direction r) (isWalking r) (panicMode
    r) (targetPosition r) x (directionChangeInterval r).
Definition set_directionChangeInterval (x : Z) (r : t) : t :=
  mk (mesh r) (body r) (walkSpeed r) (direction r) (isWalking r) (panicMode
    r) (targetPosition r) (nextDirectionChange r) x.

End HumanState.

(** ** State of an [Animal] *)

Module AnimalState.

Record t : Type := mk {
  mesh : Z;
  body : Z;
  animalType : AnimalType;
  movementSpeed : Q;
  direction : Q;
  isMoving : bool;
  flightMode : bool;
  flightHeight : Q;
  targetPosition : option Vec3;
  nextDirectionChange : Q;
  directionChangeInterval : Q
}.

Definition set_movementSpeed (x : Q) (r : t) : t :=
  mk (mesh r) (body r) (animalType r) x (direction r) (isMoving r)
    (flightMode r) (flightHeight r) (targetPosition r) (nextDirectionChange
    r) (directionChangeInterval r).
Definition set_direction (x : Q) (r : t) : t :=
  mk (mesh r) (body r) (animalType r) (movementSpeed r) x (isMoving r)
    (flightMode r) (flightHeight r) (targetPosition r) (nextDirectionChange
    r) (directionChangeInterval r).
Definition set_isMoving (x : bool) (r : t) : t :=
  mk (mesh r) (body r) (animalType r) (movementSpeed r) (direction r) x
    (flightMode r) (flightHeight r) (targetPosition r) (nextDirectionChange
    r) (directionChangeInterval r).
Definition set_flightMode (x : bool) (r : t) : t :=
  mk (mesh r) (body r) (animalType r) (movementSpeed r) (direction r)
    (isMoving r) x (flightHeight r) (targetPosition r) (nextDirectionChange
    r) (directionChangeInterval r).
Definition set_flightHeight (x : Q) (r : t) : t :=
  mk (mesh r) (body r) (animalType r) (movementSpeed r) (direction r)
    (isMoving r) (flightMode r) x (targetPosition r) (nextDirectionChange r)
    (directionChangeInterval r).
Definition set_targetPosition (x : option Vec3) (r : t) : t :=
  mk (mesh r) (body r) (animalType r) (movementSpeed r) (direction r)
    (isMoving r) (flightMode r) (flightHeight r) x (nextDirectionChange r)
    (directionChangeInterval r).
Definition set_nextDirectionChange (x : Q) (r : t) : t :=
  mk (mesh r) (body r) (animalType r) (movementSpeed r) (direction r)
    (isMoving r) (flightMode r) (flightHeight r) (targetPosition r) x
    (directionChangeInterval r).
Definition set_directionChangeInterval (x : Q) (r : t) : t :=
  mk (mesh r) (body r) (animalType r) (movementSpeed r) (direction r)
    (isMoving r) (flightMode r) (flightHeight r) (targetPosition r)
    (nextDirectionChange r) x.

End AnimalState.

(** ** State of [NPCManager] *)

Module NPCManagerState.

Record t : Type := mk {
  humans : list HumanState.t;
  animals : list AnimalState.t;
  lastHumanSpawnTime : Z;
  lastAnimalSpawnTime : Z;
  playerVehicle : option Vehicle.ref
}.

Definition set_humans (x : list HumanState.t) (r : t) : t :=
  mk x (animals r) (lastHumanSpawnTime r) (lastAnimalSpawnTime r)
    (playerVehicle r).
Definition set_animals (x : list AnimalState.t) (r : t) : t :=
  mk (humans r) x (lastHumanSpawnTime r) (lastAnimalSpawnTime r)
    (playerVehicle r).
Definition set_lastHumanSpawnTime (x : Z) (r : t) : t :=
  mk (humans r) (animals r) x (lastAnimalSpawnTime r) (playerVehicle r).
Definition set_lastAnimalSpawnTime (x : Z) (r : t) : t :=
  mk (humans r) (animals r) (lastHumanSpawnTime r) x (playerVehicle r).
Definition set_playerVehicle (x : option Vehicle.ref) (r : t) : t :=
  mk (humans r) (animals r) (lastHumanSpawnTime r) (lastAnimalSpawnTime r) x.

End NPCManagerState.
(** ** The object stores *)

Module Heap.
Local Open Scope Q_scope.

Definition identity : Quaternion := mkQuat 0 0 0 1.

(** What a dangling reference reads as.  References are created together
    with their object, so a well-formed state never reads these. *)
Definition no_body : CANNON.Body :=
  CANNON.mkBody (-1) Vec.zero Vec.zero identity Vec.zero Vec.zero 0 1 [] [] None None.
Definition no_object : THREE.Object3D :=
  THREE.mkObject3D (-1) Vec.zero 0 identity.

Definition body (g : Game) (i : Z) : CANNON.Body :=
  default no_body (bodies g !! i).
Definition object (g : Game) (i : Z) : THREE.Object3D :=
  default no_object (objects g !! i).

Definition update_body (f : CANNON.Body -> CANNON.Body) (i : Z) (g : Game) : Game :=
  set_bodies (alter f i (bodies g)) g.
Definition update_object (f : THREE.Object3D -> THREE.Object3D) (i : Z) (g : Game) : Game :=
  set_objects (alter f i (objects g)) g.

(** [new CANNON.Body(...)]: the id comes from the library's counter. *)
Definition new_body (mk : Z -> CANNON.Body) (g : Game) : Z * Game :=
  let i := bodyIdCounter g in
  (i, set_bodyIdCounter (i + 1)%Z (set_bodies (<[i := mk i]> (bodies g)) g)).

(** [new THREE.Group()] and the like. *)
Definition new_object (mk : Z -> THREE.Object3D) (g : Game) : Z * Game :=
  let i := objectIdCounter g in
  (i, set_objectIdCounter (i + 1)%Z (set_objects (<[i := mk i]> (objects g)) g)).

(** [Math.random()]: the next value of the stream. *)
Definition random (g : Game) : Q * Game :=
  match randoms g with
  | [] => (0, g)
  | r :: rest => (r, set_randoms rest g)
  end.

Definition emit (e : Effect) (g : Game) : Game :=
  set_effects (effects g ++ [e]) g.

(** [scene.add(o)] and [scene.remove(o)]. *)
Definition scene_add (o : Z) (g : Game) : Game :=
  if bool_decide (o ∈ scene g) then g else set_scene (scene g ++ [o]) g.
Definition scene_remove (o : Z) (g : Game) : Game :=
  set_scene (List.filter (fun o' => negb (Z.eqb o o')) (scene g)) g.

End Heap.

(** ** The physics engine proper

    [world.step] belongs to cannon-es.  The wrapper relies on two things:
    how many fixed-size internal steps a call makes (which depends on the
    accumulated time), and what one internal step does to the bodies of
    the world and to its contact list. *)

Class CannonLib : Type := {
  cannon_subSteps : Q -> JS.jsnum -> nat -> Q -> nat * Q;
  cannon_internalStep :
    Q -> list Z -> gmap Z CANNON.Body -> gmap Z CANNON.Body * list CANNON.ContactEquation
}.

(** ** [PhysicsWorld] *)

Module PhysicsWorld.
Import PhysicsWorldState.
Local Open Scope Q_scope.

Definition update_self (f : t -> t) (g : Game) : Game :=
  set_physicsWorld (f (physicsWorld g)) g.

Definition registerCollisionCallback (cb : PhysicsCallback) (g : Game) : Game :=
  update_self (fun w => set_collisionCallbacks (collisionCallbacks w ++ [cb]) w) g.

(** [world.addBody(body)]: a body already in the world is not added
    twice. *)
Definition world_addBody (b : Z) (w : t) : t :=
  if bool_decide (b ∈ world_bodies w) then w
  else set_world_bodies (world_bodies w ++ [b]) w.

(** [world.removeBody(body)]. *)
Definition world_removeBody (b : Z) (w : t) : t :=
  set_world_bodies (List.filter (fun b' => negb (Z.eqb b b')) (world_bodies w)) w.

Definition addBody (b : Z) (mesh : option Z) (g : Game) : Game :=
  update_self (fun w =>
    let w := world_addBody b w in
    let w := set_physicsBodies (JSMap.set b b (physicsBodies w)) w in
    match mesh with
    | Some m =>
        let w := set_meshBodyMap (JSMap.set m b (meshBodyMap w)) w in
        set_bodyMeshMap (JSMap.set b m (bodyMeshMap w)) w
    | None => w
    end) g.

(** The argument of [removeBody] is a body or a mesh. *)
Inductive BodyOrMesh : Type :=
| IsBody (b : Z)
| IsMesh (m : Z).

Definition removeBody (x : BodyOrMesh) (g : Game) : Game :=
  update_self (fun w =>
    match x with
    | IsBody b =>
        let w := world_removeBody b w in
        let w := set_physicsBodies (JSMap.delete b (physicsBodies w)) w in
        match JSMap.get b (bodyMeshMap w) with
        | Some m =>
            let w := set_meshBodyMap (JSMap.delete m (meshBodyMap w)) w in
            set_bodyMeshMap (JSMap.delete b (bodyMeshMap w)) w
        | None => w
        end
    | IsMesh m =>
        match JSMap.get m (meshBodyMap w) with
        | Some b =>
            let w := world_removeBody b w in
            let w := set_physicsBodies (JSMap.delete b (physicsBodies w)) w in
            let w := set_meshBodyMap (JSMap.delete m (meshBodyMap w)) w in
            set_bodyMeshMap (JSMap.delete b (bodyMeshMap w)) w
        | None => w
        end
    end) g.

Definition getBodyFromMesh (m : Z) (g : Game) : option Z :=
  JSMap.get m (meshBodyMap (physicsWorld g)).

Definition getMeshFromBody (b : Z) (g : Game) : option Z :=
  JSMap.get b (bodyMeshMap (physicsWorld g)).

Definition getBodiesCount (g : Game) : nat :=
  List.length (world_bodies (physicsWorld g)).

Section Step.
(** How a registered callback runs is not the physics world's business:
    it calls whatever closure it was given. *)
Variable call : PhysicsCallback -> PhysicsEvent.t -> Game -> Game * Outcome.

(** [for (const callback of this.collisionCallbacks) callback(event)]:
    an exception leaves the loop. *)
Fixpoint notify (cbs : list PhysicsCallback) (ev : PhysicsEvent.t) (g : Game)
  : Game * Outcome :=
  match cbs with
  | [] => (g, Returned)
  | cb :: rest =>
      match call cb ev g with
      | (g, Returned) => notify rest ev g
      | (g, Threw) => (g, Threw)
      end
  end.

Fixpoint checkCollisions_from (contacts : list CANNON.ContactEquation) (g : Game)
  : Game * Outcome :=
  match contacts with
  | [] => (g, Returned)
  | c :: rest =>
      if CANNON.enabled c then
        let ev := PhysicsEvent.mk (CANNON.bi c) (CANNON.bj c) (Some c)
                    (CANNON.impactVelocityAlongNormal c) in
        match notify (collisionCallbacks (physicsWorld g)) ev g with
        | (g, Returned) => checkCollisions_from rest g
        | (g, Threw) => (g, Threw)
        end
      else checkCollisions_from rest g
  end.

(** The [postStep] listener. *)
Definition checkCollisions (g : Game) : Game * Outcome :=
  checkCollisions_from (world_contacts (physicsWorld g)) g.

Context `{CannonLib}.

(** One internal step followed by the [postStep] event. *)
Definition internalStep (dt : Q) (g : Game) : Game * Outcome :=
  let (bs, cs) := cannon_internalStep dt (world_bodies (physicsWorld g)) (bodies g) in
  let g := set_bodies bs g in
  let g := update_self (set_world_contacts cs) g in
  checkCollisions g.

Fixpoint internalSteps (n : nat) (dt : Q) (g : Game) : Game * Outcome :=
  match n with
  | O => (g, Returned)
  | S n =>
      match internalStep dt g with
      | (g, Returned) => internalSteps n dt g
      | (g, Threw) => (g, Threw)
      end
  end.

(** [world.step(dt, timeSinceLastCalled, maxSubSteps)]. *)
Definition world_step (dt : Q) (timeSinceLastCalled : JS.jsnum) (maxSubSteps : nat)
    (g : Game) : Game * Outcome :=
  let (n, acc) :=
    cannon_subSteps dt timeSinceLastCalled maxSubSteps
      (world_accumulator (physicsWorld g)) in
  internalSteps n dt (update_self (set_world_accumulator acc) g).

(** The body of [bodyMeshMap.forEach]: copy a body's position and
    orientation to its mesh. *)
Definition sync_mesh (entry : Z * Z) (g : Game) : Game :=
  let (b, m) := entry in
  let body := Heap.body g b in
  Heap.update_object (fun o =>
    THREE.set_quaternion (CANNON.quaternion body)
      (THREE.set_position (CANNON.position body) o)) m g.

Definition updateDebugMesh (d : DebugMesh) (g : Game) : Game :=
  let body := Heap.body g (__cannonBody d) in
  let i := __cannonShapeIndex d in
  let g := Heap.update_object (fun o =>
    THREE.set_quaternion (CANNON.quaternion body)
      (THREE.set_position (CANNON.position body) o)) (debug_mesh d) g in
  let g := match CANNON.shapeOffsets body !! i with
           | Some offset =>
               Heap.update_object (fun o =>
                 THREE.set_position (Vec.add (THREE.position o) offset) o) (debug_mesh d) g
           | None => g
           end in
  match CANNON.shapeOrientations body !! i with
  | Some orientation =>
      Heap.update_object (THREE.set_quaternion orientation) (debug_mesh d) g
  | None => g
  end.

Definition updateDebugMeshes (g : Game) : Game :=
  if debugMode (physicsWorld g) && bool_decide (debugScene (physicsWorld g) <> None) then
    fold_left (fun g d => updateDebugMesh d g) (debugMeshes (physicsWorld g)) g
  else g.

(** [update(deltaTime)]. *)
Definition update (deltaTime : JS.jsnum) (g : Game) : Game * Outcome :=
  if JS.jsnum_gt0 deltaTime then
    match world_step (1 / 60) deltaTime 3 g with
    | (g, Returned) =>
        let g := fold_left (fun g e => sync_mesh e g) (bodyMeshMap (physicsWorld g)) g in
        let g :=
          if debugMode (physicsWorld g)
             && bool_decide (debugScene (physicsWorld g) <> None)
          then updateDebugMeshes g else g in
        (g, Returned)
    | (g, Threw) => (g, Threw)
    end
  else (g, Returned).

End Step.

End PhysicsWorld.
(** ** The event loop: pending timeouts *)

Module EventLoop.

(** [setTimeout(() => this.hitObjects.delete(id), delay)] at time [now]. *)
Definition setTimeout (target : Z) (delay : Z) (now : Z) (g : Game) : Game :=
  set_timers (timers g ++ [mkTimer (now + delay) target]) g.

Definition fire (tm : Timer) (g : Game) : Game :=
  set_collisionManager
    (CollisionManagerState.set_hitObjects
       (CollisionManagerState.hitObjects (collisionManager g) ∖ {[ timer_target tm ]})
       (collisionManager g)) g.

Definition is_due (now : Z) (tm : Timer) : bool := (timer_due tm <=? now)%Z.

(** Every timeout that is due at [now] runs, oldest first, before the
    next piece of program code does. *)
Definition run_due_timers (now : Z) (g : Game) : Game :=
  let due := List.filter (is_due now) (timers g) in
  let pending := List.filter (fun tm => negb (is_due now tm)) (timers g) in
  fold_left (fun g tm => fire tm g) due (set_timers pending g).

End EventLoop.

(** ** [CollisionManager] *)

Module CollisionManager.
Import CollisionManagerState.
Local Open Scope Q_scope.

Definition update_self (f : t -> t) (g : Game) : Game :=
  set_collisionManager (f (collisionManager g)) g.

(** The state a new manager starts in. *)
Definition initial : t :=
  mk None [] 0 0 5000 0 ∅ ∅ false.

(** [registerObject(body, type)]; [None] is a missing body, which is
    reported and ignored. *)
Definition registerObject (body : option Z) (type : CollisionObjectType) (g : Game) : Game :=
  match body with
  | None => g
  | Some b => update_self (fun cm => set_objectTypes (<[b := type]> (objectTypes cm)) cm) g
  end.

Definition setVehicle (vehicle : Vehicle.ref) (g : Game) : Game :=
  let g := update_self (set_vehicle (Some vehicle)) g in
  registerObject (Some (Vehicle.ref_body vehicle)) VEHICLE g.

Definition registerCollisionCallback (cb : CollisionCallback) (g : Game) : Game :=
  update_self (fun cm => set_collisionCallbacks (collisionCallbacks cm ++ [cb]) cm) g.

(** [createDebrisEffect]: [particleSystems.get('debris')] is undefined,
    so the method returns at its first test. *)
Definition createDebrisEffect (point : Vec3) (intensity : Q) (g : Game) : Game := g.

Definition processHumanCollision (now : Z) (event : CollisionEvent.t) (g : Game) : Game :=
  if bool_decide (CollisionEvent.bodyB event ∈ hitObjects (collisionManager g)) then g
  else
    let g := update_self (fun cm =>
               set_hitObjects ({[ CollisionEvent.bodyB event ]} ∪ hitObjects cm) cm) g in
    let scoreBase : Q := 100 in
    let speedMultiplier := JS.Math_min 3 (CollisionEvent.impactVelocity event / 5) in
    let scoreGain := JS.Math_round (scoreBase * speedMultiplier) in
    let g := update_self (fun cm =>
               set_lastHitTime now
                 (set_consecutiveHumanHits (consecutiveHumanHits cm + 1)%Z cm)) g in
    let hits := consecutiveHumanHits (collisionManager g) in
    let '(scoreGain, g) :=
      if (3 <=? hits)%Z then
        let comboMultiplier := JS.Math_min 3 (1 + (inject_Z hits - 2) * 0.5) in
        (JS.Math_round (inject_Z scoreGain * comboMultiplier),
         Heap.emit (ComboPopup hits comboMultiplier) g)
      else (scoreGain, g) in
    let g := update_self (fun cm => set_score (score cm + scoreGain)%Z cm) g in
    Heap.emit (ScorePopup (CollisionEvent.collisionPoint event) scoreGain) g.

Definition processAnimalCollision (event : CollisionEvent.t) (g : Game) : Game :=
  if bool_decide (CollisionEvent.bodyB event ∈ hitObjects (collisionManager g)) then g
  else
    let g := update_self (fun cm =>
               set_hitObjects ({[ CollisionEvent.bodyB event ]} ∪ hitObjects cm) cm) g in
    let g := update_self (fun cm => set_score (score cm - 200)%Z cm) g in
    let g := update_self (set_consecutiveHumanHits 0%Z) g in
    let g := Heap.emit (ScorePopup (CollisionEvent.collisionPoint event) (-200)) g in
    let intensity := JS.Math_min 2.0 (CollisionEvent.impactVelocity event / 5) in
    let g := if particleSystem g
             then Heap.emit (AnimalImpactEffect (CollisionEvent.collisionPoint event) intensity) g
             else g in
    if audioManager g then
      let g := Heap.emit CollisionSound_animal g in
      match CANNON._animalType (Heap.body g (CollisionEvent.bodyB event)) with
      | Some COW => Heap.emit (NPCSound COW) g
      | Some DOG => Heap.emit (NPCSound DOG) g
      | Some CAT => Heap.emit (NPCSound CAT) g
      | Some DEER => Heap.emit (NPCSound DEER) g
      | _ => g
      end
    else g.

Definition processBuildingCollision (event : CollisionEvent.t) (g : Game) : Game :=
  createDebrisEffect (CollisionEvent.collisionPoint event) (CollisionEvent.impactVelocity event) g.

Definition processPropCollision (event : CollisionEvent.t) (g : Game) : Game :=
  createDebrisEffect (CollisionEvent.collisionPoint event) (CollisionEvent.impactVelocity event) g.

Definition processCollision (now : Z) (event : CollisionEvent.t) (g : Game) : Game :=
  match CollisionEvent.targetType event with
  | HUMAN_NPC => processHumanCollision now event g
  | ANIMAL_NPC => processAnimalCollision event g
  | BUILDING => processBuildingCollision event g
  | PROP => processPropCollision event g
  | _ => createDebrisEffect (CollisionEvent.collisionPoint event)
           (CollisionEvent.impactVelocity event) g
  end.

(** [this.collisionCallbacks.forEach(callback => callback(event))]: the
    calls are made in order, and an exception ends the loop. *)
Fixpoint notify (cbs : list CollisionCallback) (event : CollisionEvent.t) (g : Game)
  : Game * Outcome :=
  match cbs with
  | [] => (g, Returned)
  | cb :: rest =>
      let g := Heap.emit (CallbackInvoked (cb_name cb) event) g in
      if cb_throws cb event then (g, Threw) else notify rest event g
  end.

(** The consumers a dispatch reaches: all of them up to and including
    the first that throws. *)
Fixpoint called (cbs : list CollisionCallback) (event : CollisionEvent.t)
  : list CollisionCallback :=
  match cbs with
  | [] => []
  | cb :: rest => cb :: (if cb_throws cb event then [] else called rest event)
  end.

(** The names of the consumers called, read off the record of effects. *)
Definition consumers_called (es : list Effect) : list Z :=
  omap (fun e => match e with CallbackInvoked name _ => Some name | _ => None end) es.

(** The failure rule as the specification words it: every registered
    consumer is called in the dispatch that took the state from [before]
    to [after]. *)
Definition every_consumer_called (before after : Game) : Prop :=
  Forall (fun cb =>
            cb_name cb ∈ consumers_called
              (drop (List.length (effects before)) (effects after)))
         (collisionCallbacks (collisionManager before)).

Section WithMath.
Context `{MathLib}.

Definition impactVelocity_of (event : PhysicsEvent.t) (g : Game) : Q :=
  match PhysicsEvent.contact event with
  | Some c => CANNON.impactVelocityAlongNormal c
  | None =>
      let velA := CANNON.velocity (Heap.body g (PhysicsEvent.bodyA event)) in
      let velB := CANNON.velocity (Heap.body g (PhysicsEvent.bodyB event)) in
      VecLib.length (Vec.sub velA velB)
  end.

Definition collisionPoint_of (event : PhysicsEvent.t) (g : Game) : Vec3 :=
  match PhysicsEvent.contact event with
  | Some c => Vec.add (CANNON.position (Heap.body g (CANNON.bi c))) (CANNON.ri c)
  | None =>
      let a := CANNON.position (Heap.body g (PhysicsEvent.bodyA event)) in
      let b := CANNON.position (Heap.body g (PhysicsEvent.bodyB event)) in
      mkVec3 ((vx a + vx b) / 2) ((vy a + vy b) / 2) ((vz a + vz b) / 2)
  end.

(** The target of a contact: the body that is not the vehicle. *)
Definition target_of (event : PhysicsEvent.t) (g : Game) : option Z :=
  let types := objectTypes (collisionManager g) in
  if bool_decide (types !! PhysicsEvent.bodyA event = Some VEHICLE)
  then Some (PhysicsEvent.bodyB event)
  else if bool_decide (types !! PhysicsEvent.bodyB event = Some VEHICLE)
  then Some (PhysicsEvent.bodyA event)
  else None.

(** The first part of [handleCollision], up to and including the
    construction of the collision event: [None] when the method returns
    early, otherwise the target, the event and the state in which the
    target has entered [hitObjects] and its timeout is pending. *)
Definition classify (now : Z) (event : PhysicsEvent.t) (g : Game)
  : option (Z * CollisionEvent.t * Game) :=
  match vehicle (collisionManager g) with
  | None => None
  | Some _ =>
      let impactVelocity := impactVelocity_of event g in
      if JS.ltb (JS.Math_abs impactVelocity) 1 then None
      else
        match target_of event g with
        | None => None
        | Some targetBody =>
            let targetType :=
              default MISC (objectTypes (collisionManager g) !! targetBody) in
            let targetMesh := PhysicsWorld.getMeshFromBody targetBody g in
            if bool_decide (targetBody ∈ hitObjects (collisionManager g)) then None
            else
              let g1 := update_self (fun cm =>
                          set_hitObjects ({[ targetBody ]} ∪ hitObjects cm) cm) g in
              let g1 := EventLoop.setTimeout targetBody 1000 now g1 in
              let collisionEvent :=
                CollisionEvent.mk (PhysicsEvent.bodyA event) (PhysicsEvent.bodyB event)
                  (PhysicsEvent.contact event) targetMesh targetType
                  (JS.Math_abs impactVelocity) (collisionPoint_of event g) in
              Some (targetBody, collisionEvent, g1)
        end
  end.

(** [handleCollision(event)]. *)
Definition handleCollision (now : Z) (event : PhysicsEvent.t) (g : Game)
  : Game * Outcome :=
  match classify now event g with
  | None => (g, Returned)
  | Some (_, collisionEvent, g) =>
      let g := processCollision now collisionEvent g in
      notify (collisionCallbacks (collisionManager g)) collisionEvent g
  end.

End WithMath.

(** [update(deltaTime)] at time [now].  Nothing inside its [try] block
    throws. *)
Definition update (deltaTime : Q) (now : Z) (g : Game) : Game :=
  let cm := collisionManager g in
  let g :=
    if (0 <? lastHitTime cm)%Z && (comboTimeWindow cm <? now - lastHitTime cm)%Z
    then update_self (set_consecutiveHumanHits 0%Z) g
    else g in
  if (Z.rem now 1000 <? 20)%Z
  then update_self (set_hitObjects ∅) g
  else g.

Definition getScore (g : Game) : Z := score (collisionManager g).

Definition reset (g : Game) : Game :=
  update_self (fun cm =>
    set_hitObjects ∅ (set_lastHitTime 0%Z (set_consecutiveHumanHits 0%Z (set_score 0%Z cm)))) g.

Definition setDebugMode (enabled : bool) (g : Game) : Game :=
  update_self (set_debugMode enabled) g.

End CollisionManager.
(** ** [Vehicle.getPosition] through a reference *)

Module VehicleRef.

(** [getPosition()]: a copy of the mesh position. *)
Definition getPosition (v : Vehicle.ref) (g : Game) : Vec3 :=
  THREE.position (Heap.object g (Vehicle.ref_mesh v)).

End VehicleRef.

(** ** [Human]

    Every method takes the time [now] that [Date.now()] returns while it
    runs.  The child meshes of the figure (head, torso, limbs) and their
    swing animation are rendering detail and are left out; the three
    random numbers that colour the clothing are drawn all the same. *)

Module Human.
Import HumanState.
Local Open Scope Q_scope.

Section WithMath.
Context `{MathLib}.

Definition mesh_position (h : t) (g : Game) : Vec3 :=
  THREE.position (Heap.object g (mesh h)).

(** [chooseNewDirection()]. *)
Definition chooseNewDirection (now : Z) (h : t) (g : Game) : t * Game :=
  let (r1, g) := Heap.random g in
  let h := set_direction (r1 * Math_PI * 2) h in
  let (r2, g) := Heap.random g in
  let distance := 5 + r2 * 10 in
  let p := mesh_position h g in
  let h := set_targetPosition
             (Some (mkVec3 (vx p + Math_sin (direction h) * distance) 0
                           (vz p + Math_cos (direction h) * distance))) h in
  let g := Heap.update_object (THREE.set_rotation_y (direction h)) (mesh h) g in
  let h := set_nextDirectionChange (now + directionChangeInterval h)%Z h in
  (h, g).

(** [startWalking()]. *)
Definition startWalking (now : Z) (h : t) (g : Game) : t * Game :=
  chooseNewDirection now (set_isWalking true h) g.

(** [createHumanMesh()]: a new group at the origin. *)
Definition createHumanMesh (g : Game) : Z * Game :=
  let (_, g) := Heap.random g in
  let (_, g) := Heap.random g in
  let (_, g) := Heap.random g in
  Heap.new_object (fun i => THREE.mkObject3D i Vec.zero 0 Heap.identity) g.

(** [createPhysicsBody(position)]. *)
Definition createPhysicsBody (mesh : Z) (position : Vec3) (g : Game) : Z * Game :=
  let radius : Q := 0.3 in
  let height : Q := 1.8 in
  let (b, g) :=
    Heap.new_body (fun i =>
      CANNON.mkBody i (mkVec3 (vx position) (vy position + height / 2) (vz position))
        Vec.zero Heap.identity Vec.zero Vec.zero 70 2
        [Vec.zero] [Heap.identity] (Some CANNON.HumanNpc) None) g in
  (b, PhysicsWorld.addBody b (Some mesh) g).

(** [new Human(scene, physicsWorld, position)]. *)
Definition new (now : Z) (position : Vec3) (g : Game) : t * Game :=
  let (m, g) := createHumanMesh g in
  let g := Heap.update_object (THREE.set_position position) m g in
  let g := Heap.scene_add m g in
  let (b, g) := createPhysicsBody m position g in
  startWalking now (mk m b 1.5 0 false false None 0 3000) g.

(** [panic(threatPosition)]. *)
Definition panic (now : Z) (threatPosition : Vec3) (h : t) (g : Game) : t * Game :=
  if panicMode h then (h, g)
  else
    let h := set_panicMode true h in
    let h := set_walkSpeed 5 h in
    let p := mesh_position h g in
    let awayVector := VecLib.normalize (Vec.sub p threatPosition) in
    let h := set_direction (Math_atan2 (vx awayVector) (vz awayVector)) h in
    let g := Heap.update_object (THREE.set_rotation_y (direction h)) (mesh h) g in
    let distance : Q := 20 in
    let h := set_targetPosition
               (Some (mkVec3 (vx p + vx awayVector * distance) 0
                             (vz p + vz awayVector * distance))) h in
    let h := set_directionChangeInterval 5000%Z h in
    let h := set_nextDirectionChange (now + directionChangeInterval h)%Z h in
    (h, g).

(** [update(deltaTime)]. *)
Definition update (now : Z) (deltaTime : Q) (h : t) (g : Game) : t * Game :=
  if negb (isWalking h) then (h, g)
  else
    let '(h, g) :=
      if (nextDirectionChange h <? now)%Z then chooseNewDirection now h g else (h, g) in
    let distance := walkSpeed h * deltaTime in
    let movement := mkVec3 (Math_sin (direction h) * distance) 0
                           (Math_cos (direction h) * distance) in
    let g := Heap.update_object (fun o =>
               THREE.set_position (Vec.add (THREE.position o) movement) o) (mesh h) g in
    let p := mesh_position h g in
    let g := Heap.update_body (fun b =>
               CANNON.set_position
                 (mkVec3 (vx p) (vy (CANNON.position b)) (vz p)) b) (body h) g in
    let '(h, g) :=
      match targetPosition h with
      | Some target =>
          if JS.ltb (VecLib.distanceTo p target) 1
          then chooseNewDirection now h g else (h, g)
      | None => (h, g)
      end in
    let walkCycle := Math_sin (inject_Z now * 0.01) * 0.05 in
    let baseHeight : Q := 0 in
    let g := Heap.update_object (fun o =>
               THREE.set_position
                 (mkVec3 (vx (THREE.position o)) (baseHeight + walkCycle)
                         (vz (THREE.position o))) o) (mesh h) g in
    let bodyHeight : Q := 1.8 in
    let g := Heap.update_body (fun b =>
               CANNON.set_quaternion (mkQuat 0 0 0 1)
                 (CANNON.set_position
                    (mkVec3 (vx (CANNON.position b))
                            (bodyHeight / 2 + baseHeight + walkCycle)
                            (vz (CANNON.position b))) b)) (body h) g in
    (h, g).

(** [getPosition()]: a copy of the mesh position. *)
Definition getPosition (h : t) (g : Game) : Vec3 := mesh_position h g.

Definition getBody (h : t) : Z := body h.
Definition getMesh (h : t) : Z := mesh h.

(** [dispose()]. *)
Definition dispose (h : t) (g : Game) : Game :=
  let g := Heap.scene_remove (mesh h) g in
  PhysicsWorld.removeBody (PhysicsWorld.IsBody (body h)) g.

End WithMath.
End Human.
(** ** [Animal] *)

Module Animal.
Import AnimalState.
Local Open Scope Q_scope.

Record AnimalProperties : Type := mkProperties {
  scale : Q;
  speed : Q;
  mass : Q;
  flightCapable : bool;
  unpredictability : Q
}.

(** The table [animalProperties] (without the colours). *)
Definition animalProperties (a : AnimalType) : AnimalProperties :=
  match a with
  | DOG => mkProperties 0.4 2.5 30 false 0.7
  | CAT => mkProperties 0.3 3 10 false 0.9
  | COW => mkProperties 1.2 1 600 false 0.3
  | DEER => mkProperties 1 3.5 200 false 0.5
  | BIRD => mkProperties 0.2 4 1 true 0.8
  end.

Definition properties (a : t) : AnimalProperties := animalProperties (animalType a).

Definition is_bird (a : t) : bool := bool_decide (animalType a = BIRD).
Definition is_cow (a : t) : bool := bool_decide (animalType a = COW).

Fixpoint draw (n : nat) (g : Game) : Game :=
  match n with
  | O => g
  | S n => draw n (snd (Heap.random g))
  end.

Section WithMath.
Context `{MathLib}.

(** [Quaternion.setFromEuler(x, y, z)] of cannon-es, order XYZ. *)
Definition setFromEuler (x y z : Q) : Quaternion :=
  let c1 := Math_cos (x / 2) in
  let c2 := Math_cos (y / 2) in
  let c3 := Math_cos (z / 2) in
  let s1 := Math_sin (x / 2) in
  let s2 := Math_sin (y / 2) in
  let s3 := Math_sin (z / 2) in
  mkQuat (s1 * c2 * c3 + c1 * s2 * s3)
         (c1 * s2 * c3 - s1 * c2 * s3)
         (c1 * c2 * s3 + s1 * s2 * c3)
         (c1 * c2 * c3 - s1 * s2 * s3).

Definition mesh_position (a : t) (g : Game) : Vec3 :=
  THREE.position (Heap.object g (mesh a)).

(** [chooseNewDirection()]. *)
Definition chooseNewDirection (now : Z) (a : t) (g : Game) : t * Game :=
  let (r1, g) := Heap.random g in
  let a := set_direction (r1 * Math_PI * 2) a in
  let distanceFactor := 1 - unpredictability (properties a) in
  let (r2, g) := Heap.random g in
  let distance := 5 + r2 * 10 * distanceFactor in
  let '(a, g) :=
    if flightMode a then
      let (r3, g) := Heap.random g in (set_flightHeight (3 + r3 * 7) a, g)
    else (a, g) in
  let p := mesh_position a g in
  let a := set_targetPosition
             (Some (mkVec3 (vx p + Math_sin (direction a) * distance)
                           (if flightMode a then flightHeight a else 0)
                           (vz p + Math_cos (direction a) * distance))) a in
  let g := Heap.update_object (THREE.set_rotation_y (direction a)) (mesh a) g in
  let baseInterval : Q := 2000 in
  let (r4, g) := Heap.random g in
  let randomFactor := 1000 + r4 * 3000 in
  let a := set_directionChangeInterval
             (baseInterval + randomFactor * (1 - unpredictability (properties a))) a in
  let a := set_nextDirectionChange (inject_Z now + directionChangeInterval a) a in
  (a, g).

(** [startMoving()]. *)
Definition startMoving (now : Z) (a : t) (g : Game) : t * Game :=
  chooseNewDirection now (set_isMoving true a) g.

(** [createAnimalMesh()]: a new group at the origin.  A cow draws four
    random numbers for each of its five spots, a deer one for its
    antlers. *)
Definition createAnimalMesh (type : AnimalType) (g : Game) : Z * Game :=
  let g := match type with
           | COW => draw 20 g
           | DEER => draw 1 g
           | _ => g
           end in
  Heap.new_object (fun i => THREE.mkObject3D i Vec.zero 0 Heap.identity) g.

(** [createPhysicsBody(position)]. *)
Definition createPhysicsBody (type : AnimalType) (mesh : Z) (position : Vec3) (g : Game)
  : Z * Game :=
  let bodyPosition :=
    match type with
    | COW => mkVec3 (vx position) (vy position + 0.6) (vz position)
    | _ => position
    end in
  let (b, g) :=
    Heap.new_body (fun i =>
      CANNON.mkBody i bodyPosition Vec.zero Heap.identity Vec.zero Vec.zero
        (mass (animalProperties type)) 3
        [Vec.zero] [Heap.identity] (Some CANNON.AnimalNpc) (Some type)) g in
  (b, PhysicsWorld.addBody b (Some mesh) g).

(** [new Animal(scene, physicsWorld, animalType, position)]. *)
Definition new (now : Z) (type : AnimalType) (position : Vec3) (g : Game) : t * Game :=
  let (m, g) := createAnimalMesh type g in
  let g := Heap.update_object (THREE.set_position position) m g in
  let g := Heap.scene_add m g in
  let (b, g) := createPhysicsBody type m position g in
  let '(a, g) :=
    startMoving now
      (mk m b type (speed (animalProperties type)) 0 false false 0 None 0 2000) g in
  if flightCapable (properties a) then
    let (r, g) := Heap.random g in
    (set_flightHeight (5 + r * 5) (set_flightMode true a), g)
  else (a, g).

(** [flee(threatPosition)]. *)
Definition flee (now : Z) (threatPosition : Vec3) (a : t) (g : Game) : t * Game :=
  let a :=
    if is_bird a && negb (flightMode a)
    then set_flightHeight 10 (set_flightMode true a) else a in
  let p := mesh_position a g in
  let awayVector := VecLib.normalize (Vec.sub p threatPosition) in
  let a := set_direction (Math_atan2 (vx awayVector) (vz awayVector)) a in
  let g := Heap.update_object (THREE.set_rotation_y (direction a)) (mesh a) g in
  let distance : Q := 30 in
  let a := set_targetPosition
             (Some (mkVec3 (vx p + vx awayVector * distance)
                           (if flightMode a then flightHeight a else 0)
                           (vz p + vz awayVector * distance))) a in
  let a := set_movementSpeed (speed (properties a) * 1.5) a in
  let a := set_nextDirectionChange (inject_Z now + 5000) a in
  (a, g).

(** [update(deltaTime)]. *)
Definition update (now : Z) (deltaTime : Q) (a : t) (g : Game) : t * Game :=
  if negb (isMoving a) then (a, g)
  else
    let '(a, g) :=
      if JS.gtb (inject_Z now) (nextDirectionChange a) then
        let '(a, g) := chooseNewDirection now a g in
        let (r, g) := Heap.random g in
        if JS.ltb r (unpredictability (properties a)) then
          let (r', g) := Heap.random g in
          let a := set_direction (direction a + (r' - 0.5) * Math_PI) a in
          (a, Heap.update_object (THREE.set_rotation_y (direction a)) (mesh a) g)
        else (a, g)
      else (a, g) in
    let distance := movementSpeed a * deltaTime in
    let movement := mkVec3 (Math_sin (direction a) * distance) 0
                           (Math_cos (direction a) * distance) in
    let g :=
      if is_bird a && flightMode a then
        let g := Heap.update_object (fun o =>
                   THREE.set_position (Vec.add (THREE.position o) movement) o) (mesh a) g in
        Heap.update_object (fun o =>
          let currentHeight := vy (THREE.position o) in
          let heightDiff := flightHeight a - currentHeight in
          THREE.set_position
            (mkVec3 (vx (THREE.position o)) (currentHeight + heightDiff * 0.02)
                    (vz (THREE.position o))) o) (mesh a) g
      else
        let g := Heap.update_object (fun o =>
                   THREE.set_position
                     (mkVec3 (vx (THREE.position o) + vx movement) 0
                             (vz (THREE.position o) + vz movement)) o) (mesh a) g in
        if negb (is_cow a) then
          let walkCycle := Math_sin (inject_Z now * 0.005) * 0.05 in
          Heap.update_object (fun o =>
            THREE.set_position
              (mkVec3 (vx (THREE.position o)) (JS.Math_max 0 walkCycle)
                      (vz (THREE.position o))) o) (mesh a) g
        else g in
    let position := mesh_position a g in
    let g :=
      if is_cow a then
        Heap.update_body (fun b =>
          CANNON.set_angularVelocity Vec.zero
            (CANNON.set_force (mkVec3 0 (-500) 0)
               (CANNON.set_velocity Vec.zero
                  (CANNON.set_position (mkVec3 (vx position) 0.6 (vz position)) b))))
          (body a) g
      else if flightMode a then
        Heap.update_body (CANNON.set_position position) (body a) g
      else
        Heap.update_body (fun b =>
          CANNON.set_velocity
            (mkVec3 (vx (CANNON.velocity b)) 0 (vz (CANNON.velocity b)))
            (CANNON.set_position position b)) (body a) g in
    let g := Heap.update_body
               (CANNON.set_quaternion (setFromEuler 0 (direction a) 0)) (body a) g in
    (a, g).

Definition getPosition (a : t) (g : Game) : Vec3 := mesh_position a g.
Definition getBody (a : t) : Z := body a.
Definition getMesh (a : t) : Z := mesh a.
Definition getAnimalType (a : t) : AnimalType := animalType a.

(** [dispose()]. *)
Definition dispose (a : t) (g : Game) : Game :=
  let g := Heap.scene_remove (mesh a) g in
  PhysicsWorld.removeBody (PhysicsWorld.IsBody (body a)) g.

End WithMath.
End Animal.
(** ** [NPCManager] *)

Module NPCManager.
Import NPCManagerState.
Local Open Scope Q_scope.

Definition maxHumans : nat := 200.
Definition humanSpawnInterval : Z := 1500.
Definition maxAnimals : nat := 150.
Definition animalSpawnInterval : Z := 2000.
Definition panicRadius : Q := 15.
Definition maxTotalNPCs : nat := 350.

(** [animalTypeRatios], in the order [Object.entries] lists it. *)
Definition animalTypeRatios : list (AnimalType * Q) :=
  [(DOG, 0.3); (CAT, 0.3); (COW, 0.1); (DEER, 0.2); (BIRD, 0.1)].

Definition initial : t := mk [] [] 0 0 None.

Definition setPlayerVehicle (vehicle : Vehicle.ref) (n : t) : t :=
  set_playerVehicle (Some vehicle) n.

Definition getHumanCount (n : t) : nat := List.length (humans n).
Definition getAnimalCount (n : t) : nat := List.length (animals n).
Definition getTotalNPCCount (n : t) : nat :=
  (List.length (humans n) + List.length (animals n))%nat.

(** [selectRandomAnimalType()]. *)
Fixpoint select_from (ratios : list (AnimalType * Q)) (random cumulativeProb : Q)
  : AnimalType :=
  match ratios with
  | [] => DOG
  | (type, probability) :: rest =>
      let cumulativeProb := cumulativeProb + probability in
      if JS.ltb random cumulativeProb then type
      else select_from rest random cumulativeProb
  end.

Definition selectRandomAnimalType (g : Game) : AnimalType * Game :=
  let (random, g) := Heap.random g in
  (select_from animalTypeRatios random 0, g).

Section WithMath.
Context `{MathLib}.

(** [isValidSpawnPosition(position)]. *)
Definition isValidSpawnPosition (position : Vec3) (n : t) (g : Game) : bool :=
  forallb (fun h => negb (JS.ltb (VecLib.distanceTo (Human.getPosition h g) position) 5))
          (humans n)
  && forallb (fun a => negb (JS.ltb (VecLib.distanceTo (Animal.getPosition a g) position) 5))
             (animals n).

Fixpoint findSpawnPosition_from (tries : nat) (basePosition : Vec3)
    (minDistance maxDistance : Q) (n : t) (g : Game) : option Vec3 * Game :=
  match tries with
  | O => (None, g)
  | S tries =>
      let (r1, g) := Heap.random g in
      let angle := r1 * Math_PI * 2 in
      let (r2, g) := Heap.random g in
      let distance := minDistance + r2 * (maxDistance - minDistance) in
      let posX := vx basePosition + Math_sin angle * distance in
      let posZ := vz basePosition + Math_cos angle * distance in
      let position := mkVec3 posX 0 posZ in
      if isValidSpawnPosition position n g then (Some position, g)
      else findSpawnPosition_from tries basePosition minDistance maxDistance n g
  end.

(** [findSpawnPosition(urbanArea)]. *)
Definition findSpawnPosition (urbanArea : bool) (n : t) (g : Game) : option Vec3 * Game :=
  let basePosition :=
    match playerVehicle n with
    | Some v => VehicleRef.getPosition v g
    | None => mkVec3 0 0 0
    end in
  let '(minDistance, maxDistance) :=
    if urbanArea then (50, 100) else (80, 150) in
  findSpawnPosition_from 10 basePosition minDistance maxDistance n g.

Fixpoint spawnHumans (count : nat) (now : Z) (n : t) (g : Game) : t * Game :=
  match count with
  | O => (n, g)
  | S count =>
      match findSpawnPosition true n g with
      | (None, g) => spawnHumans count now n g
      | (Some spawnPosition, g) =>
          let '(human, g) := Human.new now spawnPosition g in
          let g := CollisionManager.registerObject (Some (Human.getBody human)) HUMAN_NPC g in
          spawnHumans count now (set_humans (humans n ++ [human]) n) g
      end
  end.

(** [trySpawnHuman()]. *)
Definition trySpawnHuman (now : Z) (n : t) (g : Game) : t * Game :=
  if (maxHumans <=? List.length (humans n))%nat then (n, g)
  else if (maxTotalNPCs <? getTotalNPCCount n)%nat then (n, g)
  else
    let spawnCount := Nat.min 3 (maxHumans - List.length (humans n)) in
    spawnHumans spawnCount now n g.

Fixpoint spawnAnimals (count : nat) (now : Z) (n : t) (g : Game) : t * Game :=
  match count with
  | O => (n, g)
  | S count =>
      let (animalType, g) := selectRandomAnimalType g in
      let isUrban :=
        bool_decide (animalType = DOG) || bool_decide (animalType = CAT)
        || bool_decide (animalType = BIRD) in
      match findSpawnPosition isUrban n g with
      | (None, g) => spawnAnimals count now n g
      | (Some spawnPosition, g) =>
          let '(spawnPosition, g) :=
            if bool_decide (animalType = BIRD) then
              let (r, g) := Heap.random g in
              (mkVec3 (vx spawnPosition) (3 + r * 7) (vz spawnPosition), g)
            else (spawnPosition, g) in
          let '(animal, g) := Animal.new now animalType spawnPosition g in
          let g := CollisionManager.registerObject (Some (Animal.getBody animal)) ANIMAL_NPC g in
          spawnAnimals count now (set_animals (animals n ++ [animal]) n) g
      end
  end.

(** [trySpawnAnimal()]. *)
Definition trySpawnAnimal (now : Z) (n : t) (g : Game) : t * Game :=
  if (maxAnimals <=? List.length (animals n))%nat then (n, g)
  else if (maxTotalNPCs <? getTotalNPCCount n)%nat then (n, g)
  else
    let spawnCount := Nat.min 2 (maxAnimals - List.length (animals n)) in
    spawnAnimals spawnCount now n g.

(** The loop [for (i = humans.length - 1; i >= 0; i--)]: the humans
    behind index [i] have been dealt with when [i] is, and
    [splice(i, 1)] leaves the ones in front where they are. *)
Fixpoint updateHumans (now : Z) (deltaTime : Q) (vehicle : option Vehicle.ref)
    (hs : list HumanState.t) (g : Game) : list HumanState.t * Game :=
  match hs with
  | [] => ([], g)
  | human :: behind =>
      let '(rest, g) := updateHumans now deltaTime vehicle behind g in
      let '(human, g) := Human.update now deltaTime human g in
      let position := Human.getPosition human g in
      if JS.gtb (VecLib.length position) 150 then
        (rest, Human.dispose human g)
      else
        match vehicle with
        | Some v =>
            let vehiclePosition := VehicleRef.getPosition v g in
            let distanceToVehicle := VecLib.distanceTo position vehiclePosition in
            if JS.ltb distanceToVehicle panicRadius then
              let '(human, g) := Human.panic now vehiclePosition human g in
              (human :: rest, g)
            else (human :: rest, g)
        | None => (human :: rest, g)
        end
  end.

Fixpoint updateAnimals (now : Z) (deltaTime : Q) (vehicle : option Vehicle.ref)
    (xs : list AnimalState.t) (g : Game) : list AnimalState.t * Game :=
  match xs with
  | [] => ([], g)
  | animal :: behind =>
      let '(rest, g) := updateAnimals now deltaTime vehicle behind g in
      let '(animal, g) := Animal.update now deltaTime animal g in
      let position := Animal.getPosition animal g in
      if JS.gtb (VecLib.length position) 150 then
        (rest, Animal.dispose animal g)
      else
        match vehicle with
        | Some v =>
            let vehiclePosition := VehicleRef.getPosition v g in
            let distanceToVehicle := VecLib.distanceTo position vehiclePosition in
            if JS.ltb distanceToVehicle panicRadius then
              let '(animal, g) := Animal.flee now vehiclePosition animal g in
              (animal :: rest, g)
            else (animal :: rest, g)
        | None => (animal :: rest, g)
        end
  end.

(** [update(deltaTime)]. *)
Definition update (now : Z) (deltaTime : Q) (n : t) (g : Game) : t * Game :=
  let '(n, g) :=
    if (humanSpawnInterval <? now - lastHumanSpawnTime n)%Z then
      let '(n, g) := trySpawnHuman now n g in
      (set_lastHumanSpawnTime now n, g)
    else (n, g) in
  let '(n, g) :=
    if (animalSpawnInterval <? now - lastAnimalSpawnTime n)%Z then
      let '(n, g) := trySpawnAnimal now n g in
      (set_lastAnimalSpawnTime now n, g)
    else (n, g) in
  let '(hs, g) := updateHumans now deltaTime (playerVehicle n) (humans n) g in
  let n := set_humans hs n in
  let '(xs, g) := updateAnimals now deltaTime (playerVehicle n) (animals n) g in
  (set_animals xs n, g).

(** [clear()]. *)
Definition clear (n : t) (g : Game) : t * Game :=
  let g := fold_left (fun g h => Human.dispose h g) (humans n) g in
  let n := set_humans [] n in
  let g := fold_left (fun g a => Animal.dispose a g) (animals n) g in
  (set_animals [] n, g).

End WithMath.
End NPCManager.
(** ** Lifetimes and runs

    What can happen to a human between its construction and its disposal:
    its own public methods are called, and in between the rest of the
    program works on the shared state, which cannot reach the private
    fields of the human. *)

Module HumanLife.

Inductive Call : Type :=
| Update (now : Z) (deltaTime : Q)
| Panic (now : Z) (threatPosition : Vec3)
| Elsewhere (f : Game -> Game).

Section WithMath.
Context `{MathLib}.

Definition call (c : Call) (h : HumanState.t) (g : Game) : HumanState.t * Game :=
  match c with
  | Update now deltaTime => Human.update now deltaTime h g
  | Panic now threatPosition => Human.panic now threatPosition h g
  | Elsewhere f => (h, f g)
  end.

Fixpoint run (cs : list Call) (h : HumanState.t) (g : Game) : HumanState.t * Game :=
  match cs with
  | [] => (h, g)
  | c :: rest => let '(h, g) := call c h g in run rest h g
  end.

End WithMath.

(** A human that panics runs at speed 5. *)
Definition panic_inv (h : HumanState.t) : Prop :=
  HumanState.panicMode h = true -> HumanState.walkSpeed h = 5%Q.

End HumanLife.
(** ** Running the callbacks of the physics world

    The closures registered with [PhysicsWorld] are run here: the
    collision manager's handler is [CollisionManager.handleCollision];
    any other closure is called and may throw. *)

Module Engine.
Section WithLibs.
Context `{MathLib} `{CannonLib}.

Definition call (now : Z) (cb : PhysicsCallback) (event : PhysicsEvent.t) (g : Game)
  : Game * Outcome :=
  match cb with
  | HandleCollision => CollisionManager.handleCollision now event g
  | ExternalCallback name throws =>
      (Heap.emit (PhysicsCallbackInvoked name event) g,
       if throws event then Threw else Returned)
  end.

(** [this.physicsWorld.update(delta)] as the animation loop calls it. *)
Definition physics_update (now : Z) (delta : JS.jsnum) (g : Game) : Game * Outcome :=
  PhysicsWorld.update (call now) delta g.

End WithLibs.
End Engine.

(** ** Runs of the collision manager

    What reaches the collision manager over time: contacts reported by
    the physics world, its own [update] once per frame, [reset], and the
    registration calls.  Each action carries the time at which it runs;
    timeouts that are due run first.  Between two actions the bodies may
    have moved. *)

Module CollisionRun.

Inductive Action : Type :=
| Contact (event : PhysicsEvent.t)
| Update (deltaTime : Q)
| ResetScore
| RegisterObject (body : option Z) (type : CollisionObjectType)
| SetVehicle (vehicle : Vehicle.ref)
| RegisterCallback (cb : CollisionCallback)
| MoveBodies (bodies : gmap Z CANNON.Body).

(** A collision outcome that was handed to the consumers: when, for
    which target, and the event itself. *)
Record Dispatch : Type := mkDispatch {
  dispatch_time : Z;
  dispatch_target : Z;
  dispatch_event : CollisionEvent.t
}.

(** The periodic clearing of the hit set in [update], and [reset]. *)
Definition clears (now : Z) (a : Action) : bool :=
  match a with
  | Update _ => (Z.rem now 1000 <? 20)%Z
  | ResetScore => true
  | _ => false
  end.

Definition clear_free (tr : list (Z * Action)) : Prop :=
  Forall (fun '(now, a) => clears now a = false) tr.

(** Two events are between the same pair of bodies. *)
Definition same_pair (e1 e2 : CollisionEvent.t) : Prop :=
  (CollisionEvent.bodyA e1 = CollisionEvent.bodyA e2 /\
   CollisionEvent.bodyB e1 = CollisionEvent.bodyB e2) \/
  (CollisionEvent.bodyA e1 = CollisionEvent.bodyB e2 /\
   CollisionEvent.bodyB e1 = CollisionEvent.bodyA e2).

(** The dedup property as the specification words it: two outcomes
    dispatched for the same pair of bodies are at least a cooldown
    apart. *)
Definition one_per_cooldown (ds : list Dispatch) : Prop :=
  forall i j d1 d2,
    (i < j)%nat -> ds !! i = Some d1 -> ds !! j = Some d2 ->
    same_pair (dispatch_event d1) (dispatch_event d2) ->
    (dispatch_time d1 + 1000 <= dispatch_time d2)%Z.

(** The same, keyed the way the hit set is: by target. *)
Definition one_per_cooldown_and_target (ds : list Dispatch) : Prop :=
  forall i j d1 d2,
    (i < j)%nat -> ds !! i = Some d1 -> ds !! j = Some d2 ->
    dispatch_target d1 = dispatch_target d2 ->
    (dispatch_time d1 + 1000 <= dispatch_time d2)%Z.

Section WithMath.
Context `{MathLib}.

Definition act (now : Z) (a : Action) (g : Game) : Game * list Dispatch :=
  match a with
  | Contact event =>
      ((CollisionManager.handleCollision now event g).1,
       match CollisionManager.classify now event g with
       | Some (target, collisionEvent, _) => [mkDispatch now target collisionEvent]
       | None => []
       end)
  | Update deltaTime => (CollisionManager.update deltaTime now g, [])
  | ResetScore => (CollisionManager.reset g, [])
  | RegisterObject body type => (CollisionManager.registerObject body type g, [])
  | SetVehicle vehicle => (CollisionManager.setVehicle vehicle g, [])
  | RegisterCallback cb => (CollisionManager.registerCollisionCallback cb g, [])
  | MoveBodies bodies => (set_bodies bodies g, [])
  end.

Definition step (now : Z) (a : Action) (g : Game) : Game * list Dispatch :=
  act now a (EventLoop.run_due_timers now g).

Fixpoint run (tr : list (Z * Action)) (g : Game) : Game * list Dispatch :=
  match tr with
  | [] => (g, [])
  | (now, a) :: rest =>
      let '(g, ds) := step now a g in
      let '(g, ds') := run rest g in
      (g, ds ++ ds')
  end.

(** The score and the count of consecutive human hits after each action
    of a run. *)
Fixpoint scoreboard (tr : list (Z * Action)) (g : Game) : list (Z * Z) :=
  match tr with
  | [] => []
  | (now, a) :: rest =>
      let g := (step now a g).1 in
      (CollisionManagerState.score (collisionManager g),
       CollisionManagerState.consecutiveHumanHits (collisionManager g))
      :: scoreboard rest g
  end.

(** A contact qualifies when the manager has its vehicle, the impact is
    not below the noise threshold, and one of the two bodies is the
    vehicle. *)
Definition qualifies (event : PhysicsEvent.t) (g : Game) : option Z :=
  match CollisionManagerState.vehicle (collisionManager g) with
  | None => None
  | Some _ =>
      if JS.ltb (JS.Math_abs (CollisionManager.impactVelocity_of event g)) 1 then None
      else CollisionManager.target_of event g
  end.

End WithMath.
End CollisionRun.
(** ** Concrete inputs

    States and events on which the model is run in the examples below. *)

Module Sample.
Local Open Scope Q_scope.

(** A stand-in for the floating-point routines: sine and cosine of a
    walker that keeps heading along the z axis, and for the square root
    one Newton step from 1, which never lies below the root. *)
#[local] Instance math : MathLib := {|
  Math_sqrt := fun x => (x + 1) * (1 # 2);
  Math_sin := fun _ => 0;
  Math_cos := fun _ => 1;
  Math_atan2 := fun _ _ => 0;
  Math_PI := 3.141592653589793
|}.

(** A physics engine in which bodies rest and nothing touches. *)
#[local] Instance cannon : CannonLib := {|
  cannon_subSteps := fun _ _ maxSubSteps acc => (Nat.min 1 maxSubSteps, acc);
  cannon_internalStep := fun _ _ bodies => (bodies, [])
|}.

(** The program before anything is created: the collision manager has
    registered its handler with the physics world. *)
Definition empty : Game :=
  mkGame ∅ ∅ 0 0 []
    (PhysicsWorldState.mk [] [] 0 [] [] [] false [] None [HandleCollision])
    CollisionManager.initial [] [] [] false false.

(** The player's car: body 0 with mesh 0, at [position]. *)
Definition with_vehicle (position : Vec3) (g : Game) : Vehicle.ref * Game :=
  let (b, g) := Heap.new_body (fun i =>
                  CANNON.mkBody i position Vec.zero Heap.identity Vec.zero Vec.zero
                    1000 1 [Vec.zero] [Heap.identity] None None) g in
  let (m, g) := Heap.new_object (fun i => THREE.mkObject3D i position 0 Heap.identity) g in
  let g := PhysicsWorld.addBody b (Some m) g in
  let v := Vehicle.mkRef b m in
  (v, CollisionManager.setVehicle v g).

(** A pedestrian created the way [NPCManager] does it. *)
Definition with_human (now : Z) (position : Vec3) (g : Game) : HumanState.t * Game :=
  let '(h, g) := Human.new now position g in
  (h, CollisionManager.registerObject (Some (Human.getBody h)) HUMAN_NPC g).

Definition with_animal (now : Z) (type : AnimalType) (position : Vec3) (g : Game)
  : AnimalState.t * Game :=
  let '(a, g) := Animal.new now type position g in
  (a, CollisionManager.registerObject (Some (Animal.getBody a)) ANIMAL_NPC g).

(** A street scene: the car at the origin (body 0), three pedestrians
    (bodies 1, 2, 3) and a dog (body 4), and two consumers of collision
    events. *)
Definition consumer (name : Z) : CollisionCallback := mkCallback name (fun _ => false).
Definition faulty_consumer (name : Z) : CollisionCallback := mkCallback name (fun _ => true).

Definition street : Game :=
  let '(_, g) := with_vehicle (mkVec3 0 2 0) empty in
  let '(_, g) := with_human 0 (mkVec3 60 0 0) g in
  let '(_, g) := with_human 0 (mkVec3 70 0 0) g in
  let '(_, g) := with_human 0 (mkVec3 80 0 0) g in
  let '(_, g) := with_animal 0 DOG (mkVec3 90 0 0) g in
  CollisionManager.registerCollisionCallback (consumer 1) g.

(** The same street with a second consumer that throws and a third
    behind it. *)
Definition street_with_faulty_consumer : Game :=
  CollisionManager.registerCollisionCallback (consumer 3)
    (CollisionManager.registerCollisionCallback (faulty_consumer 2) street).

(** The car parked 200 units out along the x axis, and a pedestrian
    standing right beside it. *)
Definition far_out : HumanState.t * Game :=
  let '(_, g) := with_vehicle (mkVec3 200 0 0) empty in
  with_human 0 (mkVec3 200 0 1) g.

Definition far_out_manager : NPCManagerState.t :=
  NPCManagerState.mk [far_out.1] [] 0 0 (Some (Vehicle.mkRef 0 0)).

(** A contact between bodies [a] and [b] with the given closing speed. *)
Definition contact (a b : Z) (speed : Q) : PhysicsEvent.t :=
  PhysicsEvent.mk a b (Some (CANNON.mkContact a b Vec.zero true speed)) speed.

(** Three pedestrians hit at speed 5 within four tenths of a second, the
    car being the first body of each contact. *)
Definition three_hits_vehicle_first : list (Z * CollisionRun.Action) :=
  [(5000, CollisionRun.Contact (contact 0 1 5));
   (5200, CollisionRun.Contact (contact 0 2 5));
   (5400, CollisionRun.Contact (contact 0 3 5))]%Z.

(** The same three hits, the car being the second body. *)
Definition three_hits_vehicle_second : list (Z * CollisionRun.Action) :=
  [(5000, CollisionRun.Contact (contact 1 0 5));
   (5200, CollisionRun.Contact (contact 2 0 5));
   (5400, CollisionRun.Contact (contact 3 0 5))]%Z.

(** Three hits a second apart, with a frame in between that falls in the
    first 20 ms of a second and so empties the hit set. *)
Definition three_hits_with_clearing : list (Z * CollisionRun.Action) :=
  [(5500, CollisionRun.Contact (contact 1 0 5));
   (6010, CollisionRun.Update (1 # 60));
   (6500, CollisionRun.Contact (contact 2 0 5));
   (7010, CollisionRun.Update (1 # 60));
   (7500, CollisionRun.Contact (contact 3 0 5))]%Z.

(** A dog hit after those three, first with the car as first body, then,
    after another clearing frame, with the car as second body, and then a
    pedestrian again. *)
Definition dog_after_combo : list (Z * CollisionRun.Action) :=
  three_hits_with_clearing ++
  [(8010, CollisionRun.Update (1 # 60));
   (8100, CollisionRun.Contact (contact 0 4 10));
   (9010, CollisionRun.Update (1 # 60));
   (9100, CollisionRun.Contact (contact 4 0 10));
   (9200, CollisionRun.Contact (contact 1 0 5))]%Z.

(** The same pair in contact twice within 20 ms, a clearing frame in
    between. *)
Definition two_contacts_around_clearing : list (Z * CollisionRun.Action) :=
  [(990, CollisionRun.Contact (contact 0 1 10));
   (1000, CollisionRun.Update (1 # 60));
   (1010, CollisionRun.Contact (contact 0 1 10))]%Z.

(** A contact, a second one within the cooldown, a third one after it. *)
Definition three_contacts : list (Z * CollisionRun.Action) :=
  [(5100, CollisionRun.Contact (contact 0 1 10));
   (5600, CollisionRun.Contact (contact 1 0 10));
   (6100, CollisionRun.Contact (contact 0 1 10))]%Z.

End Sample.
(** ** The invariant of runs without clearing

    As long as neither [reset] nor the periodic clearing in [update]
    empties the hit set, the pending timeouts and the hit set stay in
    step with the outcomes dispatched so far. *)

Module RunInv.
Import CollisionRun.

Definition hit (g : Game) : gset Z :=
  CollisionManagerState.hitObjects (collisionManager g).

Record holds (now : Z) (ds : list Dispatch) (g : Game) : Prop := mk {
  (** every pending timeout guards an id that is in the hit set *)
  pending_hit : forall tm, tm ∈ timers g -> timer_target tm ∈ hit g;
  (** at most one timeout is pending for an id *)
  pending_nodup : NoDup (map timer_target (timers g));
  (** every pending timeout was set by a dispatch, a cooldown before it
      is due *)
  pending_origin : forall tm, tm ∈ timers g ->
    exists d, d ∈ ds /\ timer_due tm = (dispatch_time d + 1000)%Z /\
              timer_target tm = dispatch_target d;
  (** the timeout of a dispatch younger than the cooldown is pending *)
  recent_pending : forall d, d ∈ ds -> (now < dispatch_time d + 1000)%Z ->
    mkTimer (dispatch_time d + 1000) (dispatch_target d) ∈ timers g;
  (** an id is in the hit set because its timeout is pending, or because
      it was the second body of a dispatched event with another target *)
  hit_origin : forall i, i ∈ hit g ->
    (exists tm, tm ∈ timers g /\ timer_target tm = i) \/
    (exists d, d ∈ ds /\ dispatch_target d <> i /\
               CollisionEvent.bodyB (dispatch_event d) = i);
  (** no pending timeout is due *)
  pending_future : forall tm, tm ∈ timers g -> (now < timer_due tm)%Z;
  (** dispatches lie in the past *)
  dispatched_past : forall d, d ∈ ds -> (dispatch_time d <= now)%Z
}.

(** Times of a run never go back, starting from [now]. *)
Fixpoint ordered (now : Z) (tr : list (Z * Action)) : Prop :=
  match tr with
  | [] => True
  | (t, _) :: rest => (now <= t)%Z /\ ordered t rest
  end.

(** The time of the last action of a run that starts at [now]. *)
Fixpoint end_time (now : Z) (tr : list (Z * Action)) : Z :=
  match tr with
  | [] => now
  | (t, _) :: rest => end_time t rest
  end.

(** A state in which no hit is remembered and no timeout is pending. *)
Definition fresh (g : Game) : Prop := hit g = ∅ /\ timers g = [].

End RunInv.

(** ** Removal of a body, as the specification words it *)

Module Removal.

(** Neither the hit set nor the classification map of the collision
    manager has an entry for [b]. *)
Definition purged (b : Z) (g : Game) : Prop :=
  (b ∉ CollisionManagerState.hitObjects (collisionManager g)) /\
  CollisionManagerState.objectTypes (collisionManager g) !! b = None.

(** The street after the car has run into the first pedestrian
    (body 1). *)
Definition street_after_hit : Game :=
  (CollisionManager.handleCollision (H := Sample.math) 5000
     (Sample.contact 1 0 10) Sample.street).1.

End Removal.

(** ** Counting the contacts of a run *)

Module ScoreRun.

Definition is_contact (a : CollisionRun.Action) : bool :=
  match a with CollisionRun.Contact _ => true | _ => false end.

(** How many of the actions of a run are contacts reported by the
    physics world. *)
Definition contacts (tr : list (Z * CollisionRun.Action)) : Z :=
  Z.of_nat (List.length (List.filter (fun x => is_contact x.2) tr)).

End ScoreRun.

(** ** What an agent may touch

    The methods of [Human] and [Animal] that run every frame move the
    agent's mesh and body and draw random numbers.  [moved g g'] says that
    [g'] differs from [g] in nothing else. *)

Module Frame.

Record moved (g g' : Game) : Prop := mk {
  same_world : physicsWorld g' = physicsWorld g;
  same_scene : scene g' = scene g;
  same_manager : collisionManager g' = collisionManager g;
  same_timers : timers g' = timers g;
  same_effects : effects g' = effects g;
  same_bodyIdCounter : bodyIdCounter g' = bodyIdCounter g;
  same_objectIdCounter : objectIdCounter g' = objectIdCounter g;
  same_body_ids : forall i, is_Some (bodies g' !! i) <-> is_Some (bodies g !! i);
  same_object_ids : forall i, is_Some (objects g' !! i) <-> is_Some (objects g !! i)
}.

End Frame.

(** ** The life of an animal

    Between construction and disposal the manager calls [update] and
    [flee] on an animal. *)

Module AnimalLife.

Inductive Call : Type :=
| Update (now : Z) (deltaTime : Q)
| Flee (now : Z) (threatPosition : Vec3).

Section WithMath.
Context `{MathLib}.

Definition call (c : Call) (a : AnimalState.t) (g : Game) : AnimalState.t * Game :=
  match c with
  | Update now deltaTime => Animal.update now deltaTime a g
  | Flee now threatPosition => Animal.flee now threatPosition a g
  end.

Fixpoint run (cs : list Call) (a : AnimalState.t) (g : Game) : AnimalState.t * Game :=
  match cs with
  | [] => (a, g)
  | c :: rest => let '(a, g) := call c a g in run rest a g
  end.

End WithMath.

Definition is_flee (c : Call) : bool :=
  match c with Flee _ _ => true | Update _ _ => false end.

End AnimalLife.

(** ** [VehicleControls]: the keyboard

    The vehicle object is shared with the engine; the controls hold a
    reference to it.  [vehicle] says whether that reference is set, and
    [update] is given the object it points to.  [listening] says whether
    the two key listeners are registered with the document. *)

Module VehicleControls.
Import String.
Local Open Scope string_scope.

Inductive Action : Type := Forward | Backward | Left | Right | Brake | Handbrake.

(** The keys of [controlState] and of [keyBindings], in the order
    [Object.entries] lists them. *)
Definition actions : list Action := [Forward; Backward; Left; Right; Brake; Handbrake].

Record KeyBindings : Type := mkBindings {
  forward : list string;
  backward : list string;
  left : list string;
  right : list string;
  brake : list string;
  handbrake : list string
}.

(** [Partial<typeof this.keyBindings>]: [None] is a key that is not
    there. *)
Record PartialBindings : Type := mkPartial {
  forward' : option (list string);
  backward' : option (list string);
  left' : option (list string);
  right' : option (list string);
  brake' : option (list string);
  handbrake' : option (list string)
}.

Definition defaultBindings : KeyBindings :=
  mkBindings ["w"; "ArrowUp"] ["s"; "ArrowDown"] ["a"; "ArrowLeft"] ["d"; "ArrowRight"]
             ["b"] [" "].

Record t : Type := mk {
  controlState : Vehicle.ControlState;
  keyBindings : KeyBindings;
  vehicle : bool;
  listening : bool
}.

Definition set_controlState (x : Vehicle.ControlState) (c : t) : t :=
  mk x (keyBindings c) (vehicle c) (listening c).
Definition set_keyBindings (x : KeyBindings) (c : t) : t :=
  mk (controlState c) x (vehicle c) (listening c).

(** [new VehicleControls()]. *)
Definition new : t := mk Vehicle.no_input defaultBindings false false.

(** [this.keyBindings[action]] and [this.controlState[action]]. *)
Definition keys (b : KeyBindings) (a : Action) : list string :=
  match a with
  | Forward => forward b
  | Backward => backward b
  | Left => left b
  | Right => right b
  | Brake => brake b
  | Handbrake => handbrake b
  end.

Definition control (cs : Vehicle.ControlState) (a : Action) : bool :=
  match a with
  | Forward => Vehicle.forward cs
  | Backward => Vehicle.backward cs
  | Left => Vehicle.left cs
  | Right => Vehicle.right cs
  | Brake => Vehicle.brake cs
  | Handbrake => Vehicle.handbrake cs
  end.

Definition assign (a : Action) (state : bool) (cs : Vehicle.ControlState)
  : Vehicle.ControlState :=
  match a with
  | Forward =>
      Vehicle.mkControls state (Vehicle.backward cs) (Vehicle.left cs) (Vehicle.right cs)
        (Vehicle.brake cs) (Vehicle.handbrake cs)
  | Backward =>
      Vehicle.mkControls (Vehicle.forward cs) state (Vehicle.left cs) (Vehicle.right cs)
        (Vehicle.brake cs) (Vehicle.handbrake cs)
  | Left =>
      Vehicle.mkControls (Vehicle.forward cs) (Vehicle.backward cs) state (Vehicle.right cs)
        (Vehicle.brake cs) (Vehicle.handbrake cs)
  | Right =>
      Vehicle.mkControls (Vehicle.forward cs) (Vehicle.backward cs) (Vehicle.left cs) state
        (Vehicle.brake cs) (Vehicle.handbrake cs)
  | Brake =>
      Vehicle.mkControls (Vehicle.forward cs) (Vehicle.backward cs) (Vehicle.left cs)
        (Vehicle.right cs) state (Vehicle.handbrake cs)
  | Handbrake =>
      Vehicle.mkControls (Vehicle.forward cs) (Vehicle.backward cs) (Vehicle.left cs)
        (Vehicle.right cs) (Vehicle.brake cs) state
  end.

(** [keys.includes(key)]. *)
Definition includes (ks : list string) (key : string) : bool :=
  existsb (String.eqb key) ks.

(** [initialize(vehicle)] and [dispose()]. *)
Definition initialize (c : t) : t := mk (controlState c) (keyBindings c) true true.
Definition dispose (c : t) : t := mk (controlState c) (keyBindings c) false false.

(** The loop shared by the two handlers: every action one of whose keys
    is [key] is set to [state], and the event's default is prevented.
    The result carries [event.defaultPrevented]. *)
Definition handleKey (state : bool) (key : string) (c : t) : t * bool :=
  fold_left
    (fun (acc : t * bool) (a : Action) =>
       let (c, prevented) := acc in
       if includes (keys (keyBindings c) a) key
       then (set_controlState (assign a state (controlState c)) c, true)
       else (c, prevented))
    actions (c, false).

(** [handleKeyDown(event)] and [handleKeyUp(event)]. *)
Definition handleKeyDown (key : string) (c : t) : t * bool := handleKey true key c.
Definition handleKeyUp (key : string) (c : t) : t * bool := handleKey false key c.

(** A [keydown] or [keyup] event of the document: it reaches the handler
    if the listeners are registered. *)
Definition keydown (key : string) (c : t) : t * bool :=
  if listening c then handleKeyDown key c else (c, false).
Definition keyup (key : string) (c : t) : t * bool :=
  if listening c then handleKeyUp key c else (c, false).

(** [update()]: [veh] is the vehicle the reference points to. *)
Definition update (c : t) (veh : Vehicle.t) : Vehicle.t :=
  if vehicle c then Vehicle.applyControls (controlState c) veh else veh.

(** [getControlState()]: a copy. *)
Definition getControlState (c : t) : Vehicle.ControlState := controlState c.

Definition setControlState (a : Action) (state : bool) (c : t) : t :=
  set_controlState (assign a state (controlState c)) c.

(** [resetControls()]. *)
Definition resetControls (c : t) : t :=
  fold_left (fun c a => set_controlState (assign a false (controlState c)) c) actions c.

(** [isAnyControlActive()]. *)
Definition isAnyControlActive (c : t) : bool :=
  existsb (control (controlState c)) actions.

(** [setKeyBindings(bindings)]. *)
Definition setKeyBindings (p : PartialBindings) (c : t) : t :=
  let b := keyBindings c in
  set_keyBindings
    (mkBindings (default (forward b) (forward' p)) (default (backward b) (backward' p))
                (default (left b) (left' p)) (default (right b) (right' p))
                (default (brake b) (brake' p)) (default (handbrake b) (handbrake' p))) c.

(** Keys of the default layout, for the examples. *)
Definition key_w : string := "w".
Definition key_ArrowUp : string := "ArrowUp".
Definition key_x : string := "x".

End VehicleControls.

(** ** The decay of the velocity, as the specification words it *)

Module Decay.
Import Vehicle.
Local Open Scope Q_scope.


(** Only the brake key held. *)
Definition brake_only : ControlState := mkControls false false false false true false.

End Decay.
(* ================================================================== *)
(** * Part II: properties                                              *)
(* ================================================================== *)

(** ** Facts about JavaScript comparisons *)

Section JSFacts.
Local Open Scope Q_scope.

Lemma ltb_true (a b : Q) : JS.ltb a b = true <-> a < b.
Proof.
  unfold JS.ltb. rewrite negb_true_iff, <- not_true_iff_false, Qle_bool_iff.
  split; [apply Qnot_le_lt | apply Qlt_not_le].
Qed.

Lemma ltb_false (a b : Q) : JS.ltb a b = false <-> b <= a.
Proof.
  unfold JS.ltb. rewrite negb_false_iff. apply Qle_bool_iff.
Qed.

Lemma gtb_true (a b : Q) : JS.gtb a b = true <-> b < a.
Proof. apply ltb_true. Qed.

Lemma gtb_false (a b : Q) : JS.gtb a b = false <-> a <= b.
Proof. apply ltb_false. Qed.

Lemma Math_min_spec (a b : Q) :
  (a <= b /\ JS.Math_min a b = a) \/ (b < a /\ JS.Math_min a b = b).
Proof.
  unfold JS.Math_min. destruct (Qle_bool a b) eqn:E.
  - left. split; [by apply Qle_bool_iff | done].
  - right. split; [| done]. apply Qnot_le_lt. intros C.
    apply Qle_bool_iff in C. congruence.
Qed.

Lemma Math_max_spec (a b : Q) :
  (a <= b /\ JS.Math_max a b = b) \/ (b < a /\ JS.Math_max a b = a).
Proof.
  unfold JS.Math_max. destruct (Qle_bool a b) eqn:E.
  - left. split; [by apply Qle_bool_iff | done].
  - right. split; [| done]. apply Qnot_le_lt. intros C.
    apply Qle_bool_iff in C. congruence.
Qed.

Lemma Math_abs_lt (v e : Q) : JS.Math_abs v < e <-> - e < v /\ v < e.
Proof. unfold JS.Math_abs. apply Qabs_Qlt_condition. Qed.

End JSFacts.

(** ** The vehicle controller *)

Section VehicleFacts.
Local Open Scope Q_scope.
Import Vehicle.

Lemma reverse_limit : - maxSpeed / 2 == - (27.5).
Proof. reflexivity. Qed.

(** [lra] treats a quotient as an atom; give it the value of the one
    quotient the controller uses. *)
Ltac speed_lra := pose proof reverse_limit; unfold maxSpeed in *; lra.


Lemma clamp_id (v : Q) : - maxSpeed / 2 <= v <= maxSpeed -> clamp v == v.
Proof.
  unfold clamp. intros [Hl Hu].
  destruct (Math_min_spec v maxSpeed) as [[H1 ->] | [H1 ->]]; [| speed_lra].
  destruct (Math_max_spec v (- maxSpeed / 2)) as [[H2 ->] | [H2 ->]]; speed_lra.
Qed.



Lemma applyControls_velocity (cs : ControlState) (veh : t) :
  velocity (applyControls cs veh) =
  natural_deceleration cs
    (clamp (apply_brake cs (apply_handbrake cs
       (brake_or_reverse cs (accelerate cs (velocity veh)))))).
Proof. reflexivity. Qed.

Lemma coasting_velocity (cs : ControlState) (veh : t) :
  forward cs = false -> backward cs = false ->
  let w := clamp (apply_brake cs (apply_handbrake cs (velocity veh))) in
  (JS.Math_abs w < 0.1 -> velocity (applyControls cs veh) = 0) /\
  (0.1 <= JS.Math_abs w -> velocity (applyControls cs veh) = w * 0.98).
Proof.
  intros Hf Hb w. rewrite applyControls_velocity.
  unfold accelerate, brake_or_reverse, natural_deceleration.
  rewrite Hf, Hb. cbn [negb andb]. fold w. split; intros Hw.
  - apply ltb_true in Hw. by rewrite Hw.
  - apply ltb_false in Hw. by rewrite Hw.
Qed.




End VehicleFacts.

(** ** The panic transition of a human *)

Section HumanFacts.
Context `{MathLib}.
Local Open Scope Q_scope.
Import HumanState.

Lemma chooseNewDirection_private (now : Z) (h : HumanState.t) (g : Game) :
  panicMode (Human.chooseNewDirection now h g).1 = panicMode h /\
  walkSpeed (Human.chooseNewDirection now h g).1 = walkSpeed h /\
  isWalking (Human.chooseNewDirection now h g).1 = isWalking h.
Proof.
  unfold Human.chooseNewDirection.
  destruct (Heap.random g) as [r1 g1]. destruct (Heap.random g1) as [r2 g2].
  by cbn.
Qed.

Lemma update_private (now : Z) (dt : Q) (h : HumanState.t) (g : Game) :
  panicMode (Human.update now dt h g).1 = panicMode h /\
  walkSpeed (Human.update now dt h g).1 = walkSpeed h.
Proof.
  unfold Human.update. destruct (negb (isWalking h)); [done |].
  destruct (nextDirectionChange h <? now)%Z.
  - pose proof (chooseNewDirection_private now h g) as (Hp & Hw & _).
    destruct (Human.chooseNewDirection now h g) as [h1 g1]. cbn [fst] in Hp, Hw.
    destruct (targetPosition h1) as [tp |]; [| by cbn].
    match goal with |- context [JS.ltb ?a ?b] => destruct (JS.ltb a b) end; [| by cbn].
    match goal with |- context [Human.chooseNewDirection now h1 ?g'] =>
      pose proof (chooseNewDirection_private now h1 g') as (Hp' & Hw' & _);
      destruct (Human.chooseNewDirection now h1 g') as [h2 g2] end.
    cbn [fst] in *. split; congruence.
  - destruct (targetPosition h) as [tp |]; [| by cbn].
    match goal with |- context [JS.ltb ?a ?b] => destruct (JS.ltb a b) end; [| by cbn].
    match goal with |- context [Human.chooseNewDirection now h ?g'] =>
      pose proof (chooseNewDirection_private now h g') as (Hp' & Hw' & _);
      destruct (Human.chooseNewDirection now h g') as [h2 g2] end.
    cbn [fst] in *. split; congruence.
Qed.

Lemma panic_sets (now : Z) (threat : Vec3) (h : HumanState.t) (g : Game) :
  panicMode h = false ->
  panicMode (Human.panic now threat h g).1 = true /\
  walkSpeed (Human.panic now threat h g).1 = 5.
Proof. intros Hp. unfold Human.panic. rewrite Hp. by cbn. Qed.

Lemma panic_again (now : Z) (threat : Vec3) (h : HumanState.t) (g : Game) :
  panicMode h = true -> Human.panic now threat h g = (h, g).
Proof. intros Hp. unfold Human.panic. by rewrite Hp. Qed.

Lemma call_keeps_panic (c : HumanLife.Call) (h : HumanState.t) (g : Game) :
  panicMode h = true -> walkSpeed h = 5 ->
  panicMode (HumanLife.call c h g).1 = true /\
  walkSpeed (HumanLife.call c h g).1 = 5.
Proof.
  intros Hp Hw. destruct c as [now dt | now threat | f]; cbn [HumanLife.call].
  - destruct (update_private now dt h g) as [-> ->]. done.
  - by rewrite panic_again.
  - done.
Qed.

Lemma run_keeps_panic (cs : list HumanLife.Call) (h : HumanState.t) (g : Game) :
  panicMode h = true -> walkSpeed h = 5 ->
  panicMode (HumanLife.run cs h g).1 = true /\
  walkSpeed (HumanLife.run cs h g).1 = 5.
Proof.
  revert h g. induction cs as [| c cs IH]; intros h g Hp Hw; [done |].
  cbn [HumanLife.run].
  destruct (call_keeps_panic c h g Hp Hw) as [Hp' Hw'].
  destruct (HumanLife.call c h g) as [h1 g1]. by apply IH.
Qed.

Lemma call_keeps_inv (c : HumanLife.Call) (h : HumanState.t) (g : Game) :
  HumanLife.panic_inv h -> HumanLife.panic_inv (HumanLife.call c h g).1.
Proof.
  intros Hi. destruct (panicMode h) eqn:Hp.
  - intros _. by apply call_keeps_panic; [| apply Hi].
  - destruct c as [now dt | now threat | f]; cbn [HumanLife.call].
    + destruct (update_private now dt h g) as [Hp' _]. intros C. congruence.
    + intros _. by apply panic_sets.
    + done.
Qed.

Lemma run_keeps_inv (cs : list HumanLife.Call) (h : HumanState.t) (g : Game) :
  HumanLife.panic_inv h -> HumanLife.panic_inv (HumanLife.run cs h g).1.
Proof.
  revert h g. induction cs as [| c cs IH]; intros h g Hi; [done |].
  cbn [HumanLife.run]. pose proof (call_keeps_inv c h g Hi) as Hi'.
  destruct (HumanLife.call c h g) as [h1 g1]. by apply IH.
Qed.

Lemma new_not_panicking (now : Z) (position : Vec3) (g : Game) :
  panicMode (Human.new now position g).1 = false /\
  walkSpeed (Human.new now position g).1 = 1.5.
Proof.
  unfold Human.new.
  destruct (Human.createHumanMesh g) as [m g1].
  destruct (Human.createPhysicsBody m position _) as [b g2].
  unfold Human.startWalking.
  match goal with |- context [Human.chooseNewDirection now ?h ?g'] =>
    pose proof (chooseNewDirection_private now h g') as (Hp & Hw & _) end.
  done.
Qed.

(** C10. Take a human from its constructor through any calls of its
    methods, interleaved with anything the rest of the program does to the
    shared state; let [panic] be called at some point, and let any further
    calls follow.  Then the human is in panic mode, its speed is 5 and not
    the wander speed 1.5, and another call of [panic] returns the human
    and the shared state exactly as they are. *)
Theorem C10_panic_permanent_idempotent
    (now0 : Z) (position : Vec3) (g0 : Game)
    (before : list HumanLife.Call) (now : Z) (threat : Vec3)
    (after : list HumanLife.Call) :
  let '(h0, g) := Human.new now0 position g0 in
  let '(h1, g) := HumanLife.run before h0 g in
  let '(h2, g) := Human.panic now threat h1 g in
  let '(h3, g) := HumanLife.run after h2 g in
  panicMode h3 = true /\
  walkSpeed h3 = 5 /\
  Qeq_bool (walkSpeed h3) 1.5 = false /\
  forall now' threat', Human.panic now' threat' h3 g = (h3, g).
Proof.
  pose proof (new_not_panicking now0 position g0) as [Hn _].
  destruct (Human.new now0 position g0) as [h0 g1]. cbn [fst] in Hn.
  assert (HumanLife.panic_inv h0) as Hi0 by (intros C; congruence).
  pose proof (run_keeps_inv before h0 g1 Hi0) as Hi1.
  destruct (HumanLife.run before h0 g1) as [h1 g2]. cbn [fst] in Hi1.
  assert (panicMode (Human.panic now threat h1 g2).1 = true /\
          walkSpeed (Human.panic now threat h1 g2).1 = 5) as [Hp2 Hw2].
  { destruct (panicMode h1) eqn:Hp1.
    - rewrite panic_again by done. split; [done | by apply Hi1].
    - by apply panic_sets. }
  destruct (Human.panic now threat h1 g2) as [h2 g3]. cbn [fst] in Hp2, Hw2.
  pose proof (run_keeps_panic after h2 g3 Hp2 Hw2) as [Hp3 Hw3].
  destruct (HumanLife.run after h2 g3) as [h3 g4]. cbn [fst] in Hp3, Hw3.
  split; [done |]. split; [done |]. split.
  - by rewrite Hw3.
  - intros now' threat'. by apply panic_again.
Qed.

End HumanFacts.

(** ** The physics world *)

Section JSMapFacts.
Context {V : Type}.

Lemma JSMap_get_delete (k : Z) (m : JSMap.t V) : JSMap.get k (JSMap.delete k m) = None.
Proof.
  induction m as [| [k' v] m IH]; [done |].
  unfold JSMap.delete in *. cbn [List.filter fst].
  destruct (Z.eqb k k') eqn:E; cbn [negb]; [done |].
  cbn [JSMap.get]. by rewrite E.
Qed.

Lemma JSMap_get_delete_ne (k k' : Z) (m : JSMap.t V) :
  k <> k' -> JSMap.get k' (JSMap.delete k m) = JSMap.get k' m.
Proof.
  intros Hne. induction m as [| [k0 v] m IH]; [done |].
  unfold JSMap.delete in *. cbn [List.filter fst].
  destruct (Z.eqb k k0) eqn:E; cbn [negb JSMap.get].
  - apply Z.eqb_eq in E. subst k0.
    assert (Z.eqb k' k = false) as -> by (apply Z.eqb_neq; congruence). done.
  - destruct (Z.eqb k' k0); [done | apply IH].
Qed.

End JSMapFacts.

Section PhysicsFacts.
Import PhysicsWorldState.

Lemma world_removeBody_gone (b : Z) (w : PhysicsWorldState.t) :
  b ∉ world_bodies (PhysicsWorld.world_removeBody b w).
Proof.
  unfold PhysicsWorld.world_removeBody. cbn. intros Hin.
  apply list_elem_of_In, filter_In in Hin as [_ Hb].
  by rewrite Z.eqb_refl in Hb.
Qed.

(** C8. [update] with a time delta that is not positive, or is [NaN],
    returns normally and leaves the whole program state as it was: the
    world is not stepped, no callback runs, no body and no mesh moves or
    turns. *)
Theorem C8_update_nonpositive_or_NaN_is_noop `{CannonLib}
    (call : PhysicsCallback -> PhysicsEvent.t -> Game -> Game * Outcome)
    (deltaTime : JS.jsnum) (g : Game) :
  JS.jsnum_le0 deltaTime || JS.jsnum_isNaN deltaTime = true ->
  PhysicsWorld.update call deltaTime g = (g, Returned).
Proof.
  intros Hdt. unfold PhysicsWorld.update.
  assert (JS.jsnum_gt0 deltaTime = false) as ->; [| done].
  destruct deltaTime as [| negative | q]; cbn in *.
  - done.
  - by destruct negative.
  - rewrite orb_false_r in Hdt. unfold JS.leb in Hdt. apply Qle_bool_iff in Hdt.
    by apply gtb_false.
Qed.

End PhysicsFacts.

(** On the street, a delta of [NaN], of 0 and of a sixtieth of a second
    backwards each leave the state as it is. *)
Lemma C8_witness :
  (@Engine.physics_update Sample.math Sample.cannon 1000 JS.NaN Sample.street
   = (Sample.street, Returned)) /\
  (@Engine.physics_update Sample.math Sample.cannon 1000 (JS.Num 0) Sample.street
   = (Sample.street, Returned)) /\
  (@Engine.physics_update Sample.math Sample.cannon 1000 (JS.Num (- (1 # 60)))
     Sample.street
   = (Sample.street, Returned)).
Proof.
  unfold Engine.physics_update.
  split; [| split]; apply C8_update_nonpositive_or_NaN_is_noop; vm_compute; reflexivity.
Defined.

Section RemovalFacts.
Import PhysicsWorldState.

Lemma world_removeBody_others (b b' : Z) (w : PhysicsWorldState.t) :
  b' <> b ->
  b' ∈ world_bodies (PhysicsWorld.world_removeBody b w) <-> b' ∈ world_bodies w.
Proof.
  intros Hne. unfold PhysicsWorld.world_removeBody. cbn.
  rewrite !list_elem_of_In, filter_In, negb_true_iff, Z.eqb_neq. split.
  - by intros [? _].
  - intros Hin. split; [done | congruence].
Qed.

(** C6, as the code has it.  [removeBody(body)] takes the body out of
    the world's body list, out of [physicsBodies] and out of
    [bodyMeshMap], and takes the mesh that [bodyMeshMap] held for it out
    of [meshBodyMap]; [removeBody(mesh)] does the same for the body that
    [meshBodyMap] holds for the mesh, and nothing when there is none.
    Every other body and every other mesh keeps its entries: a mesh that
    was registered for the same body earlier keeps pointing at it.
    Nothing else is touched: the collision manager, with its hit set and
    its classification map, the pending timeouts and the object stores
    are what they were.  (The collision manager has no operation that
    forgets a body; an id leaves the hit set through its timeout, the
    periodic clearing or [reset], and never leaves the classification
    map.) *)
Theorem C6_removeBody_leaves_collision_manager (x : PhysicsWorld.BodyOrMesh) (g : Game) :
  let g' := PhysicsWorld.removeBody x g in
  let removed b :=
    (b ∉ world_bodies (physicsWorld g')) /\
    JSMap.get b (physicsBodies (physicsWorld g')) = None /\
    JSMap.get b (bodyMeshMap (physicsWorld g')) = None /\
    (forall b', b' <> b ->
       (b' ∈ world_bodies (physicsWorld g') <-> b' ∈ world_bodies (physicsWorld g)) /\
       JSMap.get b' (physicsBodies (physicsWorld g')) =
         JSMap.get b' (physicsBodies (physicsWorld g)) /\
       JSMap.get b' (bodyMeshMap (physicsWorld g')) =
         JSMap.get b' (bodyMeshMap (physicsWorld g))) in
  let unlinked m :=
    JSMap.get m (meshBodyMap (physicsWorld g')) = None /\
    (forall m', m' <> m ->
       JSMap.get m' (meshBodyMap (physicsWorld g')) =
         JSMap.get m' (meshBodyMap (physicsWorld g))) in
  collisionManager g' = collisionManager g /\
  timers g' = timers g /\
  bodies g' = bodies g /\
  objects g' = objects g /\
  match x with
  | PhysicsWorld.IsBody b =>
      removed b /\
      match JSMap.get b (bodyMeshMap (physicsWorld g)) with
      | Some m => unlinked m
      | None => meshBodyMap (physicsWorld g') = meshBodyMap (physicsWorld g)
      end
  | PhysicsWorld.IsMesh m =>
      match JSMap.get m (meshBodyMap (physicsWorld g)) with
      | Some b => removed b /\ unlinked m
      | None => physicsWorld g' = physicsWorld g
      end
  end.
Proof.
  cbn zeta. repeat (split; [done |]).
  destruct x as [b | m]; cbn.
  - destruct (JSMap.get b (bodyMeshMap (physicsWorld g))) as [m |] eqn:E; cbn.
    + split; [split; [apply world_removeBody_gone |] |].
      * split; [apply JSMap_get_delete |]. split; [apply JSMap_get_delete |].
        intros b' Hne. split; [by apply world_removeBody_others |].
        split; apply JSMap_get_delete_ne; congruence.
      * split; [apply JSMap_get_delete |].
        intros m' Hne. apply JSMap_get_delete_ne. congruence.
    + split; [| done]. split; [apply world_removeBody_gone |].
      split; [apply JSMap_get_delete |]. split; [done |].
      intros b' Hne. split; [by apply world_removeBody_others |].
      split; [apply JSMap_get_delete_ne; congruence | done].
  - destruct (JSMap.get m (meshBodyMap (physicsWorld g))) as [b |] eqn:E; cbn.
    + split; [split; [apply world_removeBody_gone |] |].
      * split; [apply JSMap_get_delete |]. split; [apply JSMap_get_delete |].
        intros b' Hne. split; [by apply world_removeBody_others |].
        split; apply JSMap_get_delete_ne; congruence.
      * split; [apply JSMap_get_delete |].
        intros m' Hne. apply JSMap_get_delete_ne. congruence.
    + by destruct (physicsWorld g).
Qed.

End RemovalFacts.

(** A body registered twice, first with mesh 9 and then with mesh 10:
    removing it takes mesh 10, the one [bodyMeshMap] holds, out of
    [meshBodyMap], and mesh 9 keeps pointing at the removed body. *)
Lemma C6_witness :
  let g := PhysicsWorld.addBody 5 (Some 10%Z)
             (PhysicsWorld.addBody 5 (Some 9%Z) Sample.street) in
  let g' := PhysicsWorld.removeBody (PhysicsWorld.IsBody 5) g in
  PhysicsWorld.getMeshFromBody 5 g' = None /\
  PhysicsWorld.getBodyFromMesh 10 g' = None /\
  PhysicsWorld.getBodyFromMesh 9 g' = Some 5%Z.
Proof.
  cbv zeta.
  pose proof (C6_removeBody_leaves_collision_manager (PhysicsWorld.IsBody 5)
                (PhysicsWorld.addBody 5 (Some 10%Z)
                   (PhysicsWorld.addBody 5 (Some 9%Z) Sample.street))) as H.
  cbv zeta in H. destruct H as (_ & _ & _ & _ & (_ & _ & Hb & _) & Hm).
  assert (JSMap.get 5
            (PhysicsWorldState.bodyMeshMap
               (physicsWorld
                  (PhysicsWorld.addBody 5 (Some 10%Z)
                     (PhysicsWorld.addBody 5 (Some 9%Z) Sample.street)))) = Some 10%Z) as E
    by (vm_compute; reflexivity).
  rewrite E in Hm. destruct Hm as [Hnone Hother].
  unfold PhysicsWorld.getMeshFromBody, PhysicsWorld.getBodyFromMesh.
  split; [exact Hb |]. split; [exact Hnone |].
  rewrite (Hother 9%Z ltac:(discriminate)). vm_compute. reflexivity.
Defined.

(** C6 as the specification words it fails once the car has hit the
    first pedestrian: when that pedestrian is disposed of, its body is
    still in the hit set and still classified as a human. *)
Lemma C6_counterexample :
  ~ Removal.purged 1
      (PhysicsWorld.removeBody (PhysicsWorld.IsBody 1) Removal.street_after_hit).
Proof.
  intros [_ Hmap]. by vm_compute in Hmap.
Qed.

(** ** The collision manager: dispatch to the consumers *)

(** Normalise the record updates and split on whatever test is left. *)
Ltac split_cases :=
  repeat (cbn;
          try match goal with
              | |- context [match ?c with _ => _ end] => destruct c eqn:?
              end).

Section NotifyFacts.
Import CollisionManagerState.

Lemma notify_frame (cbs : list CollisionCallback) (ev : CollisionEvent.t) (g : Game) :
  collisionManager (CollisionManager.notify cbs ev g).1 = collisionManager g /\
  timers (CollisionManager.notify cbs ev g).1 = timers g /\
  bodies (CollisionManager.notify cbs ev g).1 = bodies g.
Proof.
  revert g. induction cbs as [| cb cbs IH]; intros g; [done |].
  cbn [CollisionManager.notify]. destruct (cb_throws cb ev); [done |].
  destruct (IH (Heap.emit (CallbackInvoked (cb_name cb) ev) g)) as (-> & -> & ->).
  done.
Qed.

Lemma notify_effects (cbs : list CollisionCallback) (ev : CollisionEvent.t) (g : Game) :
  effects (CollisionManager.notify cbs ev g).1 =
  effects g ++ map (fun cb => CallbackInvoked (cb_name cb) ev) (CollisionManager.called cbs ev).
Proof.
  revert g. induction cbs as [| cb cbs IH]; intros g.
  - cbn. by rewrite app_nil_r.
  - cbn [CollisionManager.notify CollisionManager.called].
    destruct (cb_throws cb ev); [done |].
    rewrite IH. cbn. by rewrite <- app_assoc.
Qed.

Lemma notify_outcome (cbs : list CollisionCallback) (ev : CollisionEvent.t) (g : Game) :
  (CollisionManager.notify cbs ev g).2 =
  if existsb (fun cb => cb_throws cb ev) cbs then Threw else Returned.
Proof.
  revert g. induction cbs as [| cb cbs IH]; intros g; [done |].
  cbn [CollisionManager.notify existsb]. destruct (cb_throws cb ev); [done |].
  apply IH.
Qed.

Lemma called_until_throw (pre post : list CollisionCallback) (cb : CollisionCallback)
    (ev : CollisionEvent.t) :
  Forall (fun c => cb_throws c ev = false) pre -> cb_throws cb ev = true ->
  CollisionManager.called (pre ++ cb :: post) ev = pre ++ [cb] /\
  existsb (fun c => cb_throws c ev) (pre ++ cb :: post) = true.
Proof.
  intros Hpre Hcb. induction Hpre as [| c pre Hc Hpre IH]; cbn.
  - by rewrite Hcb.
  - rewrite Hc. destruct IH as [-> ->]. done.
Qed.

Lemma called_all (cbs : list CollisionCallback) (ev : CollisionEvent.t) :
  Forall (fun c => cb_throws c ev = false) cbs ->
  CollisionManager.called cbs ev = cbs /\
  existsb (fun c => cb_throws c ev) cbs = false.
Proof.
  intros Hall. induction Hall as [| c cbs Hc Hall IH]; cbn; [done |].
  rewrite Hc. destruct IH as [-> ->]. done.
Qed.

End NotifyFacts.

Section HandleCollisionFacts.
Context `{MathLib}.
Import CollisionManagerState.
Local Open Scope Q_scope.

Lemma processCollision_callbacks (now : Z) (ev : CollisionEvent.t) (g : Game) :
  collisionCallbacks (collisionManager (CollisionManager.processCollision now ev g)) =
  collisionCallbacks (collisionManager g).
Proof.
  unfold CollisionManager.processCollision.
  destruct (CollisionEvent.targetType ev); try done.
  - unfold CollisionManager.processHumanCollision. case_bool_decide; [done |].
    cbn. by destruct (3 <=? _)%Z.
  - unfold CollisionManager.processAnimalCollision. case_bool_decide; [done |].
    by split_cases.
Qed.

(** What [classify] returns, spelled out. *)
Lemma classify_Some (now : Z) (ev : PhysicsEvent.t) (g : Game)
    (T : Z) (ce : CollisionEvent.t) (g1 : Game) :
  CollisionManager.classify now ev g = Some (T, ce, g1) ->
  CollisionRun.qualifies ev g = Some T /\
  (T ∉ hitObjects (collisionManager g)) /\
  g1 = EventLoop.setTimeout T 1000 now
         (CollisionManager.update_self (fun cm =>
            set_hitObjects ({[ T ]} ∪ hitObjects cm) cm) g) /\
  CollisionEvent.bodyA ce = PhysicsEvent.bodyA ev /\
  CollisionEvent.bodyB ce = PhysicsEvent.bodyB ev /\
  CollisionEvent.targetType ce = default MISC (objectTypes (collisionManager g) !! T) /\
  CollisionEvent.impactVelocity ce =
    JS.Math_abs (CollisionManager.impactVelocity_of ev g).
Proof.
  unfold CollisionManager.classify, CollisionRun.qualifies.
  destruct (vehicle (collisionManager g)); [| done].
  destruct (JS.ltb _ 1); [done |].
  destruct (CollisionManager.target_of ev g) as [T' |]; [| done].
  case_bool_decide; [done |].
  intros [= <- <- <-]. done.
Qed.

Lemma classify_None (now : Z) (ev : PhysicsEvent.t) (g : Game) :
  CollisionManager.classify now ev g = None <->
  CollisionRun.qualifies ev g = None \/
  exists T, CollisionRun.qualifies ev g = Some T /\ T ∈ hitObjects (collisionManager g).
Proof.
  unfold CollisionManager.classify, CollisionRun.qualifies.
  destruct (vehicle (collisionManager g)); [| by split; [left |]].
  destruct (JS.ltb _ 1); [by split; [left |] |].
  destruct (CollisionManager.target_of ev g) as [T' |]; [| by split; [left |]].
  case_bool_decide as Hin.
  - split; [intros _; right; eauto | done].
  - split; [done |]. intros [C | (T & [= <-] & C)]; done.
Qed.

(** A contact that is not classified leaves everything as it is and
    reaches no consumer. *)
Lemma handleCollision_skipped (now : Z) (ev : PhysicsEvent.t) (g : Game) :
  CollisionManager.classify now ev g = None ->
  CollisionManager.handleCollision now ev g = (g, Returned).
Proof. intros Hc. unfold CollisionManager.handleCollision. by rewrite Hc. Qed.

(** A contact that is classified goes through the scoring rules and then
    to the consumers. *)
Lemma handleCollision_dispatched (now : Z) (ev : PhysicsEvent.t) (g : Game)
    (T : Z) (ce : CollisionEvent.t) (g1 : Game) :
  CollisionManager.classify now ev g = Some (T, ce, g1) ->
  CollisionManager.handleCollision now ev g =
  CollisionManager.notify (collisionCallbacks (collisionManager g)) ce
    (CollisionManager.processCollision now ce g1).
Proof.
  intros Hc. unfold CollisionManager.handleCollision. rewrite Hc.
  rewrite processCollision_callbacks.
  apply classify_Some in Hc as (_ & _ & -> & _). done.
Qed.

End HandleCollisionFacts.

(** ** The collision manager: consumers that throw *)

Section ConsumerFacts.
Context `{MathLib}.
Import CollisionManagerState.

(** C5, as the code has it.  A dispatch calls the registered consumers in
    registration order, up to and including the first one that throws:
    the exception leaves [handleCollision], and the consumers registered
    behind the throwing one are not called in that dispatch.  When no
    consumer throws, all are called, in registration order. *)
Theorem C5_consumers_called_until_first_throw
    (now : Z) (ev : PhysicsEvent.t) (g : Game)
    (T : Z) (ce : CollisionEvent.t) (g1 : Game) :
  CollisionManager.classify now ev g = Some (T, ce, g1) ->
  let cbs := collisionCallbacks (collisionManager g) in
  let result := CollisionManager.handleCollision now ev g in
  effects result.1 =
    effects (CollisionManager.processCollision now ce g1)
    ++ map (fun cb => CallbackInvoked (cb_name cb) ce) (CollisionManager.called cbs ce) /\
  (forall pre cb post,
     cbs = pre ++ cb :: post ->
     Forall (fun c => cb_throws c ce = false) pre -> cb_throws cb ce = true ->
     CollisionManager.called cbs ce = pre ++ [cb] /\ result.2 = Threw) /\
  (Forall (fun c => cb_throws c ce = false) cbs ->
     CollisionManager.called cbs ce = cbs /\ result.2 = Returned).
Proof.
  intros Hc cbs result. subst result.
  rewrite (handleCollision_dispatched _ _ _ _ _ _ Hc). fold cbs.
  split; [apply notify_effects |]. split.
  - intros pre cb post -> Hpre Hcb. rewrite notify_outcome.
    destruct (called_until_throw pre post cb ce Hpre Hcb) as [-> ->]. done.
  - intros Hall. rewrite notify_outcome.
    destruct (called_all cbs ce Hall) as [-> ->]. done.
Qed.

End ConsumerFacts.

(** On the street with consumers 1, 2 and 3, of which 2 throws, a hit
    reaches 1 and 2 and ends with the exception. *)
Lemma C5_witness :
  CollisionManager.consumers_called
    (effects (CollisionManager.handleCollision (H := Sample.math) 5000
                (Sample.contact 0 1 10) Sample.street_with_faulty_consumer).1) = [1; 2]%Z /\
  (CollisionManager.handleCollision (H := Sample.math) 5000
     (Sample.contact 0 1 10) Sample.street_with_faulty_consumer).2 = Threw.
Proof.
  destruct (CollisionManager.classify (H := Sample.math) 5000 (Sample.contact 0 1 10)
              Sample.street_with_faulty_consumer) as [[[T ce] g1] |] eqn:Hc;
    [| by vm_compute in Hc].
  destruct (C5_consumers_called_until_first_throw (H := Sample.math) _ _ _ _ _ _ Hc)
    as (He & Hthrow & _).
  split.
  - rewrite He. vm_compute in Hc. injection Hc as <- <- <-. by vm_compute.
  - apply (Hthrow [Sample.consumer 1] (Sample.faulty_consumer 2) [Sample.consumer 3]).
    + by vm_compute.
    + by repeat constructor.
    + done.
Defined.

(** C5 as the specification words it fails on that input: consumer 3 is
    registered and is not called. *)
Lemma C5_counterexample :
  ~ CollisionManager.every_consumer_called
      Sample.street_with_faulty_consumer
      (CollisionManager.handleCollision (H := Sample.math) 5000
         (Sample.contact 0 1 10) Sample.street_with_faulty_consumer).1.
Proof.
  unfold CollisionManager.every_consumer_called. intros Hall.
  apply Forall_forall with (x := Sample.consumer 3) in Hall.
  - vm_compute in Hall.
    apply elem_of_cons in Hall as [Hall | Hall]; [discriminate |].
    apply elem_of_cons in Hall as [Hall | Hall]; [discriminate |].
    by apply elem_of_nil in Hall.
  - vm_compute. do 2 apply list_elem_of_further. apply list_elem_of_here.
Qed.

(** ** The collision manager: scoring *)

Section ScoringFacts.
Context `{MathLib}.
Import CollisionManagerState.
Local Open Scope Q_scope.

Lemma qualifies_vehicle_first (ev : PhysicsEvent.t) (g : Game) (T : Z) :
  objectTypes (collisionManager g) !! PhysicsEvent.bodyA ev = Some VEHICLE ->
  CollisionRun.qualifies ev g = Some T -> T = PhysicsEvent.bodyB ev.
Proof.
  intros Hv. unfold CollisionRun.qualifies, CollisionManager.target_of.
  destruct (vehicle (collisionManager g)); [| done].
  destruct (JS.ltb _ 1); [done |].
  rewrite bool_decide_eq_true_2 by done. congruence.
Qed.

(** The scoring rules do nothing for an event whose second body is
    already in the hit set. *)
Lemma processCollision_guarded (now : Z) (ce : CollisionEvent.t) (g : Game) :
  CollisionEvent.bodyB ce ∈ hitObjects (collisionManager g) ->
  CollisionManager.processCollision now ce g = g.
Proof.
  intros Hin. unfold CollisionManager.processCollision.
  destruct (CollisionEvent.targetType ce); try done.
  - unfold CollisionManager.processHumanCollision. by rewrite bool_decide_eq_true_2.
  - unfold CollisionManager.processAnimalCollision. by rewrite bool_decide_eq_true_2.
Qed.

(** What the human rule does when its guard lets the event through, for
    a counter that stays below the combo threshold. *)
Lemma processHumanCollision_scores (now : Z) (ce : CollisionEvent.t) (g : Game) :
  CollisionEvent.bodyB ce ∉ hitObjects (collisionManager g) ->
  (consecutiveHumanHits (collisionManager g) + 1 < 3)%Z ->
  let g' := CollisionManager.processHumanCollision now ce g in
  score (collisionManager g') =
    (score (collisionManager g)
     + JS.Math_round (100 * JS.Math_min 3 (CollisionEvent.impactVelocity ce / 5)))%Z /\
  consecutiveHumanHits (collisionManager g') =
    (consecutiveHumanHits (collisionManager g) + 1)%Z /\
  lastHitTime (collisionManager g') = now.
Proof.
  intros Hout Hlow. unfold CollisionManager.processHumanCollision.
  rewrite bool_decide_eq_false_2 by done. cbn.
  destruct (3 <=? _)%Z eqn:E; [apply Z.leb_le in E; lia |]. done.
Qed.

(** The same at or above the threshold: the combo multiplier is applied
    to the rounded gain, and the product is rounded again. *)
Lemma processHumanCollision_combo (now : Z) (ce : CollisionEvent.t) (g : Game) :
  CollisionEvent.bodyB ce ∉ hitObjects (collisionManager g) ->
  (3 <= consecutiveHumanHits (collisionManager g) + 1)%Z ->
  let g' := CollisionManager.processHumanCollision now ce g in
  let counter := (consecutiveHumanHits (collisionManager g) + 1)%Z in
  score (collisionManager g') =
    (score (collisionManager g)
     + JS.Math_round
         (inject_Z (JS.Math_round (100 * JS.Math_min 3 (CollisionEvent.impactVelocity ce / 5)))
          * JS.Math_min 3 (1 + (inject_Z counter - 2) * 0.5)))%Z /\
  consecutiveHumanHits (collisionManager g') = counter.
Proof.
  intros Hout Hhigh. unfold CollisionManager.processHumanCollision.
  rewrite bool_decide_eq_false_2 by done. cbn.
  destruct (3 <=? _)%Z eqn:E; [| apply Z.leb_gt in E; lia]. done.
Qed.

(** What the animal rule does when its guard lets the event through. *)
Lemma processAnimalCollision_scores (ce : CollisionEvent.t) (g : Game) :
  CollisionEvent.bodyB ce ∉ hitObjects (collisionManager g) ->
  let g' := CollisionManager.processAnimalCollision ce g in
  score (collisionManager g') = (score (collisionManager g) - 200)%Z /\
  consecutiveHumanHits (collisionManager g') = 0%Z.
Proof.
  intros Hout. unfold CollisionManager.processAnimalCollision.
  rewrite bool_decide_eq_false_2 by done. by split_cases.
Qed.

(** C2, at the input on which the code departs from it.  Whenever the
    vehicle is the first body of the contact, [handleCollision] has put
    the target, which is then the second body, into the hit set before
    the scoring rule looks that same body up there: the rule returns at
    its guard, and neither the score nor the counter of consecutive human
    hits changes, whatever the impact speed. *)
Theorem C2_no_score_when_vehicle_is_first_body
    (now : Z) (ev : PhysicsEvent.t) (g : Game) :
  objectTypes (collisionManager g) !! PhysicsEvent.bodyA ev = Some VEHICLE ->
  let g' := (CollisionManager.handleCollision now ev g).1 in
  score (collisionManager g') = score (collisionManager g) /\
  consecutiveHumanHits (collisionManager g') = consecutiveHumanHits (collisionManager g).
Proof.
  intros Hv g'. subst g'.
  destruct (CollisionManager.classify now ev g) as [[[T ce] g1] |] eqn:Hc.
  - rewrite (handleCollision_dispatched _ _ _ _ _ _ Hc).
    destruct (notify_frame (collisionCallbacks (collisionManager g)) ce
                (CollisionManager.processCollision now ce g1)) as (-> & _).
    apply classify_Some in Hc as (Hq & _ & -> & _ & HB & _).
    apply (qualifies_vehicle_first _ _ _ Hv) in Hq. subst T.
    rewrite processCollision_guarded; [done |].
    rewrite HB. cbn. set_solver.
  - by rewrite handleCollision_skipped.
Qed.

End ScoringFacts.

(** On the street, the car (body 0) hits the first pedestrian (body 1) at
    speed 10 as first body of the contact: the outcome reaches the
    consumer, and the score stays 0 instead of becoming 200. *)
Lemma C2_witness :
  let g' := (CollisionManager.handleCollision (H := Sample.math) 5000
               (Sample.contact 0 1 10) Sample.street).1 in
  CollisionManagerState.score (collisionManager g') = 0%Z /\
  CollisionManagerState.consecutiveHumanHits (collisionManager g') = 0%Z /\
  CollisionManager.consumers_called (effects g') = [1%Z].
Proof.
  destruct (C2_no_score_when_vehicle_is_first_body (H := Sample.math) 5000
              (Sample.contact 0 1 10) Sample.street) as [Hs Hh];
    [vm_compute; reflexivity |].
  vm_compute in Hs, Hh. vm_compute. clear Hs Hh. repeat split.
Defined.

(** C3, at the input on which the code departs from it.  On the street,
    three pedestrians are hit at speed 5 within four tenths of a second.
    With the car as first body of the contacts nothing is scored.  With
    the car as second body the first hit scores 100 and puts the car's own
    id into the hit set, after which the rule returns at its guard: the
    score stays 100 and the counter 1, where the claim has 100, 200, 350
    and a counter of 3.  Only when a frame empties the hit set between the
    hits do the deltas 100, 100 and 150 appear. *)
Theorem C3_three_quick_hits_score_once :
  CollisionRun.scoreboard (H := Sample.math) Sample.three_hits_vehicle_first Sample.street
    = [(0, 0); (0, 0); (0, 0)]%Z /\
  CollisionRun.scoreboard (H := Sample.math) Sample.three_hits_vehicle_second Sample.street
    = [(100, 1); (100, 1); (100, 1)]%Z /\
  CollisionRun.scoreboard (H := Sample.math) Sample.three_hits_with_clearing Sample.street
    = [(100, 1); (100, 1); (200, 2); (200, 2); (350, 3)]%Z.
Proof. by vm_compute. Qed.

(** C4, at the input on which the code departs from it.  After three
    pedestrians (score 350, counter 3) the car hits the dog as first body
    of the contact: no penalty, and the counter is not reset.  After a
    clearing frame it hits the dog as second body: the score drops by 200
    to 150 and the counter is reset, and the rule has put the car's id
    into the hit set, so that the pedestrian hit next scores nothing and
    leaves the counter at 0 instead of 1. *)
Theorem C4_dog_hit_unpenalised_and_blocks_next_hit :
  CollisionRun.scoreboard (H := Sample.math) Sample.dog_after_combo Sample.street
    = [(100, 1); (100, 1); (200, 2); (200, 2); (350, 3);
       (350, 3); (350, 3); (350, 3); (150, 0); (150, 0)]%Z.
Proof. by vm_compute. Qed.

(** ** The collision manager: the hit set over time *)

Section TimerFacts.
Import CollisionManagerState.

Lemma fold_fire_timers (l : list Timer) (g : Game) :
  timers (fold_left (fun g tm => EventLoop.fire tm g) l g) = timers g.
Proof. revert g. induction l as [| tm l IH]; intros g; [done |]. cbn. by rewrite IH. Qed.

Lemma fold_fire_hit (l : list Timer) (g : Game) (i : Z) :
  i ∈ RunInv.hit (fold_left (fun g tm => EventLoop.fire tm g) l g) <->
  i ∈ RunInv.hit g /\ ~ In i (map timer_target l).
Proof.
  revert g. induction l as [| tm l IH]; intros g; cbn [fold_left map In].
  - tauto.
  - rewrite IH. unfold RunInv.hit, EventLoop.fire. cbn.
    rewrite elem_of_difference, elem_of_singleton. intuition congruence.
Qed.

Lemma fold_fire_frame (l : list Timer) (g : Game) :
  let g' := fold_left (fun g tm => EventLoop.fire tm g) l g in
  vehicle (collisionManager g') = vehicle (collisionManager g) /\
  objectTypes (collisionManager g') = objectTypes (collisionManager g) /\
  bodies g' = bodies g.
Proof.
  revert g. induction l as [| tm l IH]; intros g; [done |].
  cbn [fold_left]. destruct (IH (EventLoop.fire tm g)) as (-> & -> & ->). done.
Qed.

Lemma run_due_timers_timers (now : Z) (g : Game) (tm : Timer) :
  tm ∈ timers (EventLoop.run_due_timers now g) <->
  tm ∈ timers g /\ (now < timer_due tm)%Z.
Proof.
  unfold EventLoop.run_due_timers. rewrite fold_fire_timers. cbn.
  rewrite !list_elem_of_In, filter_In. unfold EventLoop.is_due.
  rewrite negb_true_iff, Z.leb_gt. done.
Qed.

Lemma run_due_timers_hit (now : Z) (g : Game) (i : Z) :
  i ∈ RunInv.hit (EventLoop.run_due_timers now g) <->
  i ∈ RunInv.hit g /\
  ~ exists tm, tm ∈ timers g /\ (timer_due tm <= now)%Z /\ timer_target tm = i.
Proof.
  unfold EventLoop.run_due_timers. rewrite fold_fire_hit.
  assert (RunInv.hit (set_timers
            (List.filter (fun tm => negb (EventLoop.is_due now tm)) (timers g)) g)
          = RunInv.hit g) as -> by done.
  apply and_iff_compat_l. rewrite in_map_iff. split; intros Hn C; apply Hn.
  - destruct C as (tm & Hin & Hdue & <-). exists tm. split; [done |].
    apply filter_In. split; [by apply list_elem_of_In |].
    unfold EventLoop.is_due. by apply Z.leb_le.
  - destruct C as (tm & <- & Hin). apply filter_In in Hin as [Hin Hdue].
    exists tm. split; [by apply list_elem_of_In |]. split; [| done].
    unfold EventLoop.is_due in Hdue. by apply Z.leb_le.
Qed.

Lemma run_due_timers_nodup (now : Z) (g : Game) :
  NoDup (map timer_target (timers g)) ->
  NoDup (map timer_target (timers (EventLoop.run_due_timers now g))).
Proof.
  unfold EventLoop.run_due_timers. rewrite fold_fire_timers. cbn.
  induction (timers g) as [| tm l IH]; [done |].
  cbn [map List.filter]. intros Hnd. apply NoDup_cons in Hnd as [Hout Hnd].
  destruct (negb (EventLoop.is_due now tm)); [| by apply IH].
  cbn [map]. apply NoDup_cons. split; [| by apply IH].
  intros Hin. apply Hout. apply list_elem_of_In, in_map_iff.
  apply list_elem_of_In, in_map_iff in Hin as (tm' & Ht & Hin).
  apply filter_In in Hin as [Hin _]. eauto.
Qed.

(** Two pending timeouts for the same id are the same timeout. *)
Lemma nodup_target_inj (l : list Timer) (a b : Timer) :
  NoDup (map timer_target l) -> a ∈ l -> b ∈ l ->
  timer_target a = timer_target b -> a = b.
Proof.
  induction l as [| tm l IH]; intros Hnd Ha Hb Ht.
  - by apply elem_of_nil in Ha.
  - cbn [map] in Hnd. apply NoDup_cons in Hnd as [Hout Hnd].
    apply elem_of_cons in Ha as [-> | Ha]; apply elem_of_cons in Hb as [-> | Hb].
    + done.
    + exfalso. apply Hout. rewrite Ht. apply list_elem_of_In, in_map.
      by apply list_elem_of_In.
    + exfalso. apply Hout. rewrite <- Ht. apply list_elem_of_In, in_map.
      by apply list_elem_of_In.
    + by apply IH.
Qed.

End TimerFacts.

(** The cases of [processAnimalCollision] behind its guard: with or
    without particle system, with or without audio, by species. *)
Ltac animal_effects g :=
  cbn [particleSystem audioManager set_collisionManager
       CollisionManager.update_self Heap.emit set_effects];
  destruct (particleSystem g);
  cbn [particleSystem audioManager set_collisionManager
       CollisionManager.update_self Heap.emit set_effects];
  destruct (audioManager g);
  try match goal with
      | |- context [CANNON._animalType ?b] =>
          destruct (CANNON._animalType b) as [[] |]
      end.

Section InvariantFacts.
Context `{MathLib}.
Import CollisionManagerState CollisionRun.
Local Open Scope Z_scope.

Lemma fresh_holds (now : Z) (g : Game) : RunInv.fresh g -> RunInv.holds now [] g.
Proof.
  intros [Hh Ht]. split; rewrite ?Ht, ?Hh; cbn.
  - intros tm C. by apply elem_of_nil in C.
  - constructor.
  - intros tm C. by apply elem_of_nil in C.
  - intros d C. by apply elem_of_nil in C.
  - intros i C. by apply not_elem_of_empty in C.
  - intros tm C. by apply elem_of_nil in C.
  - intros d C. by apply elem_of_nil in C.
Qed.

(** Time passes and the timeouts that have become due run. *)
Lemma holds_advance (now now' : Z) (ds : list Dispatch) (g : Game) :
  RunInv.holds now ds g -> now <= now' ->
  RunInv.holds now' ds (EventLoop.run_due_timers now' g).
Proof.
  intros [Hhit Hnd Horig Hrec Hho Hfut Hpast] Hle. split.
  - intros tm Htm. apply run_due_timers_timers in Htm as [Htm Hdue].
    apply run_due_timers_hit. split; [by apply Hhit |].
    intros (tm' & Htm' & Hdue' & Ht).
    assert (tm' = tm) as -> by (by apply (nodup_target_inj (timers g))).
    lia.
  - by apply run_due_timers_nodup.
  - intros tm Htm. apply run_due_timers_timers in Htm as [Htm _]. by apply Horig.
  - intros d Hd Hyoung. apply run_due_timers_timers. split.
    + apply Hrec; [done | lia].
    + cbn. lia.
  - intros i Hi. apply run_due_timers_hit in Hi as [Hi Hnot].
    destruct (Hho i Hi) as [(tm & Htm & Ht) | Hd]; [| by right].
    left. exists tm. split; [| done]. apply run_due_timers_timers. split; [done |].
    destruct (Z.le_gt_cases (timer_due tm) now') as [C | C]; [| lia].
    exfalso. apply Hnot. eauto.
  - intros tm Htm. by apply run_due_timers_timers in Htm as [_ Hdue].
  - intros d Hd. specialize (Hpast d Hd). lia.
Qed.

(** What the scoring rules do to the hit set and to the timeouts. *)
Lemma processCollision_hit (now : Z) (ce : CollisionEvent.t) (g : Game) :
  timers (CollisionManager.processCollision now ce g) = timers g /\
  (RunInv.hit (CollisionManager.processCollision now ce g) = RunInv.hit g \/
   (CollisionEvent.bodyB ce ∉ RunInv.hit g) /\
   RunInv.hit (CollisionManager.processCollision now ce g)
   = {[ CollisionEvent.bodyB ce ]} ∪ RunInv.hit g).
Proof.
  unfold CollisionManager.processCollision.
  destruct (CollisionEvent.targetType ce); try (split; [done | by left]).
  - unfold CollisionManager.processHumanCollision. case_bool_decide as Hin.
    + split; [done | by left].
    + cbv zeta. destruct (3 <=? _)%Z.
      * split; [reflexivity |]. right. split; [done | reflexivity].
      * split; [reflexivity |]. right. split; [done | reflexivity].
  - unfold CollisionManager.processAnimalCollision. case_bool_decide as Hin.
    + split; [done | by left].
    + cbv zeta. animal_effects g;
        (split; [reflexivity |]; right; split; [done | reflexivity]).
Qed.

(** What a dispatched contact does to the hit set and to the timeouts. *)
Lemma handleCollision_hit (now : Z) (ev : PhysicsEvent.t) (g : Game)
    (T : Z) (ce : CollisionEvent.t) (g1 : Game) :
  CollisionManager.classify now ev g = Some (T, ce, g1) ->
  let g' := (CollisionManager.handleCollision now ev g).1 in
  timers g' = timers g ++ [mkTimer (now + 1000) T] /\
  (RunInv.hit g' = {[ T ]} ∪ RunInv.hit g \/
   CollisionEvent.bodyB ce <> T /\ (CollisionEvent.bodyB ce ∉ RunInv.hit g) /\
   RunInv.hit g' = {[ CollisionEvent.bodyB ce ]} ∪ ({[ T ]} ∪ RunInv.hit g)).
Proof.
  intros Hc. cbn zeta. rewrite (handleCollision_dispatched _ _ _ _ _ _ Hc).
  set (gp := CollisionManager.processCollision now ce g1).
  destruct (notify_frame (collisionCallbacks (collisionManager g)) ce gp)
    as (Hcm & Ht & _).
  assert (RunInv.hit (CollisionManager.notify
                        (collisionCallbacks (collisionManager g)) ce gp).1
          = RunInv.hit gp) as Hh by (unfold RunInv.hit; by rewrite Hcm).
  rewrite Ht, Hh. subst gp. clear Hcm Ht Hh.
  destruct (processCollision_hit now ce g1) as [Ht1 Hh1]. rewrite Ht1.
  apply classify_Some in Hc as (_ & _ & -> & _).
  change (RunInv.hit (EventLoop.setTimeout T 1000 now
            (CollisionManager.update_self
               (fun cm => set_hitObjects ({[ T ]} ∪ hitObjects cm) cm) g)))
    with ({[ T ]} ∪ RunInv.hit g) in Hh1.
  split; [reflexivity |].
  destruct Hh1 as [-> | [Hout ->]].
  - by left.
  - right. apply not_elem_of_union in Hout as [HneT Hout].
    apply not_elem_of_singleton in HneT. done.
Qed.

End InvariantFacts.

Section RunFacts.
Context `{MathLib}.
Import CollisionManagerState CollisionRun.
Local Open Scope Z_scope.

(** An action that neither dispatches nor clears leaves the hit set and
    the timeouts alone. *)
Lemma holds_same (now : Z) (ds : list Dispatch) (g g' : Game) :
  RunInv.holds now ds g -> RunInv.hit g' = RunInv.hit g -> timers g' = timers g ->
  RunInv.holds now (ds ++ []) g'.
Proof.
  intros [Hhit Hnd Horig Hrec Hho Hfut Hpast] Hh Ht. rewrite app_nil_r.
  split; rewrite ?Hh, ?Ht; done.
Qed.

(** A dispatch for [T] at time [now] extends the invariant, and every
    earlier dispatch for [T] is at least a cooldown old. *)
Lemma holds_dispatch (now : Z) (ds : list Dispatch) (ev : PhysicsEvent.t) (g : Game)
    (T : Z) (ce : CollisionEvent.t) (g1 : Game) :
  RunInv.holds now ds g ->
  CollisionManager.classify now ev g = Some (T, ce, g1) ->
  RunInv.holds now (ds ++ [mkDispatch now T ce])
    (CollisionManager.handleCollision now ev g).1 /\
  (forall d, d ∈ ds -> dispatch_target d = T -> dispatch_time d + 1000 <= now).
Proof.
  intros [Hhit Hnd Horig Hrec Hho Hfut Hpast] Hc.
  pose proof (handleCollision_hit now ev g T ce g1 Hc) as [Ht Hh]. cbn zeta in Ht, Hh.
  pose proof (classify_Some _ _ _ _ _ _ Hc) as (_ & HT & _).
  fold (RunInv.hit g) in HT.
  assert (forall tm, tm ∈ timers g -> timer_target tm <> T) as Hno.
  { intros tm Htm E. apply HT. rewrite <- E. by apply Hhit. }
  assert (forall i, i ∈ RunInv.hit g ∨ i = T ->
            i ∈ RunInv.hit (CollisionManager.handleCollision now ev g).1) as Hsub.
  { intros i Hi. destruct Hh as [-> | (_ & _ & ->)];
      rewrite !elem_of_union, !elem_of_singleton; tauto. }
  split; [split |].
  - intros tm Htm. rewrite Ht in Htm. apply elem_of_app in Htm as [Htm | Htm].
    + apply Hsub. left. by apply Hhit.
    + apply list_elem_of_singleton in Htm as ->. apply Hsub. by right.
  - rewrite Ht, map_app. cbn [map]. apply NoDup_app. split; [done |]. split.
    + intros i Hi Hi'. apply list_elem_of_singleton in Hi' as ->.
      apply list_elem_of_In, in_map_iff in Hi as (tm & E & Htm).
      apply (Hno tm); [by apply list_elem_of_In | done].
    + apply NoDup_singleton.
  - intros tm Htm. rewrite Ht in Htm. apply elem_of_app in Htm as [Htm | Htm].
    + destruct (Horig tm Htm) as (d & Hd & E1 & E2). exists d.
      split; [apply elem_of_app; by left | done].
    + apply list_elem_of_singleton in Htm as ->. exists (mkDispatch now T ce).
      split; [apply elem_of_app; right; by apply list_elem_of_singleton | done].
  - intros d Hd Hyoung. rewrite Ht. apply elem_of_app.
    apply elem_of_app in Hd as [Hd | Hd].
    + left. by apply Hrec.
    + apply list_elem_of_singleton in Hd as ->. right. by apply list_elem_of_singleton.
  - intros i Hi.
    assert (i ∈ RunInv.hit g \/ i = T \/
            (i = CollisionEvent.bodyB ce /\ CollisionEvent.bodyB ce <> T)) as Hcases.
    { destruct Hh as [Hh | (Hne & _ & Hh)]; rewrite Hh in Hi;
        rewrite !elem_of_union, !elem_of_singleton in Hi; tauto. }
    destruct Hcases as [Hold | [-> | [-> Hne]]].
    + destruct (Hho i Hold) as [(tm & Htm & E) | (d & Hd & E1 & E2)].
      * left. exists tm. split; [| done]. rewrite Ht. apply elem_of_app. by left.
      * right. exists d. split; [apply elem_of_app; by left | done].
    + left. exists (mkTimer (now + 1000) T). split; [| done].
      rewrite Ht. apply elem_of_app. right. by apply list_elem_of_singleton.
    + right. exists (mkDispatch now T ce).
      split; [apply elem_of_app; right; by apply list_elem_of_singleton |]. cbn.
      split; [congruence | done].
  - intros tm Htm. rewrite Ht in Htm. apply elem_of_app in Htm as [Htm | Htm].
    + by apply Hfut.
    + apply list_elem_of_singleton in Htm as ->. cbn. lia.
  - intros d Hd. apply elem_of_app in Hd as [Hd | Hd]; [by apply Hpast |].
    apply list_elem_of_singleton in Hd as ->. cbn. lia.
  - intros d Hd E.
    destruct (Z.le_gt_cases (dispatch_time d + 1000) now) as [C | C]; [done |].
    exfalso. apply (Hno _ (Hrec d Hd C)). by cbn.
Qed.

Lemma update_keeps_hit (deltaTime : Q) (now : Z) (g : Game) :
  (Z.rem now 1000 <? 20) = false ->
  RunInv.hit (CollisionManager.update deltaTime now g) = RunInv.hit g /\
  timers (CollisionManager.update deltaTime now g) = timers g.
Proof.
  intros Hnc. unfold CollisionManager.update. rewrite Hnc. by split_cases.
Qed.

Lemma registerObject_keeps_hit (body : option Z) (type : CollisionObjectType) (g : Game) :
  RunInv.hit (CollisionManager.registerObject body type g) = RunInv.hit g /\
  timers (CollisionManager.registerObject body type g) = timers g.
Proof. by destruct body. Qed.

(** One action of a run without clearing. *)
Lemma holds_act (now : Z) (a : Action) (ds : list Dispatch) (g : Game) :
  RunInv.holds now ds g -> clears now a = false ->
  RunInv.holds now (ds ++ (act now a g).2) (act now a g).1 /\
  (forall d d', d ∈ ds -> d' ∈ (act now a g).2 ->
     dispatch_target d = dispatch_target d' ->
     dispatch_time d + 1000 <= dispatch_time d') /\
  (List.length (act now a g).2 <= 1)%nat.
Proof.
  intros Hinv Hnc. destruct a as [ev | dt | | body type | v | cb | bs];
    cbn [act fst snd]; try discriminate Hnc.
  - destruct (CollisionManager.classify now ev g) as [[[T ce] g1] |] eqn:Hc.
    + destruct (holds_dispatch now ds ev g T ce g1 Hinv Hc) as [Hinv' Hold].
      split; [done |]. split; [| done].
      intros d d' Hd Hd'. apply list_elem_of_singleton in Hd' as ->. cbn. by apply Hold.
    + rewrite handleCollision_skipped by done.
      split; [by apply (holds_same _ _ g) |]. split; [| cbn; lia].
      intros d d' _ C. by apply elem_of_nil in C.
  - cbn in Hnc. destruct (update_keeps_hit dt now g Hnc) as [Hh Ht].
    split; [by apply (holds_same _ _ g) |]. split; [| cbn; lia].
    intros d d' _ C. by apply elem_of_nil in C.
  - destruct (registerObject_keeps_hit body type g) as [Hh Ht].
    split; [by apply (holds_same _ _ g) |]. split; [| cbn; lia].
    intros d d' _ C. by apply elem_of_nil in C.
  - split; [by apply (holds_same _ _ g) |]. split; [| cbn; lia].
    intros d d' _ C. by apply elem_of_nil in C.
  - split; [by apply (holds_same _ _ g) |]. split; [| cbn; lia].
    intros d d' _ C. by apply elem_of_nil in C.
  - split; [by apply (holds_same _ _ g) |]. split; [| cbn; lia].
    intros d d' _ C. by apply elem_of_nil in C.
Qed.

(** Dispatches made at the time the invariant speaks of, appended to a
    list that respects the cooldown, respect it too. *)
Lemma cooldown_extend (now : Z) (ds new : list Dispatch) :
  one_per_cooldown_and_target ds ->
  (forall d d', d ∈ ds -> d' ∈ new ->
     dispatch_target d = dispatch_target d' ->
     dispatch_time d + 1000 <= dispatch_time d') ->
  (List.length new <= 1)%nat ->
  one_per_cooldown_and_target (ds ++ new).
Proof.
  intros Hds Hnew Hlen i j d1 d2 Hij H1 H2 Et.
  destruct (decide (j < List.length ds)%nat) as [Hj | Hj].
  - rewrite lookup_app_l in H1 by lia. rewrite lookup_app_l in H2 by lia.
    by apply (Hds i j).
  - rewrite lookup_app_r in H2 by lia.
    destruct (decide (i < List.length ds)%nat) as [Hi | Hi].
    + rewrite lookup_app_l in H1 by lia.
      apply Hnew; [by eapply list_elem_of_lookup_2 | by eapply list_elem_of_lookup_2 | done].
    + rewrite lookup_app_r in H1 by lia.
      apply lookup_lt_Some in H1, H2. lia.
Qed.

Lemma run_holds (tr : list (Z * Action)) :
  forall (now : Z) (ds : list Dispatch) (g : Game),
    RunInv.holds now ds g -> one_per_cooldown_and_target ds ->
    RunInv.ordered now tr -> clear_free tr ->
    RunInv.holds (RunInv.end_time now tr) (ds ++ (run tr g).2) (run tr g).1 /\
    one_per_cooldown_and_target (ds ++ (run tr g).2).
Proof.
  induction tr as [| [t a] tr IH]; intros now ds g Hinv Hcd Hord Hcf.
  - cbn. by rewrite app_nil_r.
  - cbn [RunInv.ordered] in Hord. destruct Hord as [Hle Hord].
    apply Forall_cons in Hcf as [Hnc Hcf].
    cbn [run RunInv.end_time]. unfold step.
    pose proof (holds_advance now t ds g Hinv Hle) as Hadv.
    destruct (holds_act t a ds _ Hadv Hnc) as (Hinv' & Hnew & Hlen).
    pose proof (cooldown_extend t ds _ Hcd Hnew Hlen) as Hcd'.
    destruct (act t a (EventLoop.run_due_timers t g)) as [g1 new]. cbn [fst snd] in *.
    specialize (IH t (ds ++ new) g1 Hinv' Hcd' Hord Hcf).
    destruct (run tr g1) as [g2 new']. cbn [fst snd] in *.
    by rewrite app_assoc.
Qed.

End RunFacts.

Section DedupTheorem.
Context `{MathLib}.
Import CollisionManagerState CollisionRun.
Local Open Scope Z_scope.

Lemma classify_qualified (now : Z) (ev : PhysicsEvent.t) (g : Game) (T : Z) :
  qualifies ev g = Some T -> T ∉ RunInv.hit g ->
  exists ce g1, CollisionManager.classify now ev g = Some (T, ce, g1).
Proof.
  intros Hq Hout.
  destruct (CollisionManager.classify now ev g) as [[[T' ce] g1] |] eqn:Hc.
  - apply classify_Some in Hc as (Hq' & _). exists ce, g1. congruence.
  - apply classify_None in Hc as [Hc | (T' & Hq' & Hin)]; [congruence |].
    exfalso. apply Hout. unfold RunInv.hit. congruence.
Qed.

(** C1, as the code has it.  Take a run that starts with an empty hit
    set and no pending timeout, whose times never go back, and in which
    the hit set is not emptied: no [reset], and no [update] in the first
    20 ms of a second.  Then two outcomes dispatched for the same target
    are at least 1000 ms apart; a contact that is not dispatched changes
    nothing and reaches no consumer; and a qualifying contact is
    dispatched as soon as every earlier dispatch for its target is
    1000 ms old, provided its target never was the second body of an
    outcome dispatched for another target (the scoring rules put that
    body into the hit set without a timeout).  The condition is on the
    whole run, not only on the time between two contacts: the clearing
    in [update] empties the set without cancelling the pending timeouts,
    and a timeout left over from before the clearing later removes an id
    that a new dispatch has put back. *)
Theorem C1_one_dispatch_per_target_until_cleared
    (now0 : Z) (tr : list (Z * Action)) (g : Game) :
  RunInv.fresh g -> RunInv.ordered now0 tr -> clear_free tr ->
  one_per_cooldown_and_target (run tr g).2 /\
  (forall now ev g0,
     (act now (Contact ev) g0).2 = [] ->
     CollisionManager.handleCollision now ev g0 = (g0, Returned)) /\
  (forall now ev T,
     RunInv.end_time now0 tr <= now ->
     qualifies ev (EventLoop.run_due_timers now (run tr g).1) = Some T ->
     (forall d, d ∈ (run tr g).2 -> dispatch_target d = T ->
        dispatch_time d + 1000 <= now) ->
     (forall d, d ∈ (run tr g).2 -> dispatch_target d <> T ->
        CollisionEvent.bodyB (dispatch_event d) <> T) ->
     exists ce, (step now (Contact ev) (run tr g).1).2 = [mkDispatch now T ce]).
Proof.
  intros Hfresh Hord Hcf.
  assert (one_per_cooldown_and_target []) as Hnil.
  { intros i j d1 d2 _ C. by rewrite lookup_nil in C. }
  destruct (run_holds tr now0 [] g (fresh_holds now0 g Hfresh) Hnil Hord Hcf)
    as [Hinv Hcd]. cbn [app] in Hinv, Hcd.
  split; [done |]. split.
  - intros now ev g0. cbn [act snd].
    destruct (CollisionManager.classify now ev g0) as [[[T ce] g1] |] eqn:Hc; [done |].
    intros _. by apply handleCollision_skipped.
  - intros now ev T Hle Hq Hold Hsecond.
    pose proof (holds_advance _ now _ _ Hinv Hle) as Hadv.
    assert (T ∉ RunInv.hit (EventLoop.run_due_timers now (run tr g).1)) as Hout.
    { intros Hin.
      destruct (RunInv.hit_origin _ _ _ Hadv T Hin)
        as [(tm & Htm & Et) | (d & Hd & Hne & Eb)].
      - destruct (RunInv.pending_origin _ _ _ Hadv tm Htm) as (d & Hd & Edue & Etar).
        pose proof (RunInv.pending_future _ _ _ Hadv tm Htm) as Hfut.
        specialize (Hold d Hd). rewrite <- Etar, Et in Hold. specialize (Hold eq_refl). lia.
      - by apply (Hsecond d Hd Hne). }
    destruct (classify_qualified now ev _ T Hq Hout) as (ce & g1 & Hc).
    exists ce. unfold step. cbn [act snd]. by rewrite Hc.
Qed.

End DedupTheorem.

(** On the street, the car and the first pedestrian touch at 5100, again
    at 5600 and again at 6100: outcomes are dispatched at 5100 and at
    6100. *)
Lemma C1_witness :
  CollisionRun.one_per_cooldown_and_target
    (CollisionRun.run (H := Sample.math) Sample.three_contacts Sample.street).2 /\
  map CollisionRun.dispatch_time
    (CollisionRun.run (H := Sample.math) Sample.three_contacts Sample.street).2
  = [5100; 6100]%Z.
Proof.
  split; [| by vm_compute].
  apply (C1_one_dispatch_per_target_until_cleared (H := Sample.math) 0
           Sample.three_contacts Sample.street).
  - split; by vm_compute.
  - cbn. lia.
  - repeat constructor.
Defined.

(** C1 as the specification words it fails when a frame that empties the
    hit set falls between two contacts: the same pair is dispatched at 990
    and again at 1010. *)
Lemma C1_counterexample :
  ~ CollisionRun.one_per_cooldown
      (CollisionRun.run (H := Sample.math)
         Sample.two_contacts_around_clearing Sample.street).2.
Proof.
  intros Hcd.
  destruct (CollisionRun.run (H := Sample.math)
              Sample.two_contacts_around_clearing Sample.street) as [g ds] eqn:Hrun.
  vm_compute in Hrun. injection Hrun as _ <-. cbn [snd] in Hcd.
  specialize (Hcd 0%nat 1%nat _ _ ltac:(lia) eq_refl eq_refl).
  cbn in Hcd. specialize (Hcd ltac:(left; done)). lia.
Qed.

(** ** The population manager: culling *)

Section HeapFacts.




End HeapFacts.

Section CullFacts.
Context `{MathLib}.
Import HumanState.
Local Open Scope Q_scope.




End CullFacts.


(* ================================================================== *)
(** * Part III: further properties of the code                         *)
(* ================================================================== *)

(** ** [Map] operations *)

Section JSMapMore.
Context {V : Type}.

Lemma JSMap_get_replace_eq (k : Z) (v : V) (m : JSMap.t V) :
  JSMap.has k m = true -> JSMap.get k (JSMap.replace k v m) = Some v.
Proof.
  unfold JSMap.has. induction m as [| [k' v'] m IH]; cbn [JSMap.get JSMap.replace]; [done |].
  destruct (Z.eqb k k') eqn:E; cbn [JSMap.get]; rewrite E; [done | apply IH].
Qed.

Lemma JSMap_get_replace_ne (k k' : Z) (v : V) (m : JSMap.t V) :
  k <> k' -> JSMap.get k' (JSMap.replace k v m) = JSMap.get k' m.
Proof.
  intros Hne. induction m as [| [k0 v0] m IH]; cbn [JSMap.get JSMap.replace]; [done |].
  destruct (Z.eqb k k0) eqn:E; cbn [JSMap.get].
  - apply Z.eqb_eq in E. subst k0.
    assert (Z.eqb k' k = false) as -> by (apply Z.eqb_neq; congruence). done.
  - by rewrite IH.
Qed.

Lemma JSMap_get_app (k : Z) (m1 m2 : JSMap.t V) :
  JSMap.get k (m1 ++ m2) =
  match JSMap.get k m1 with Some v => Some v | None => JSMap.get k m2 end.
Proof.
  induction m1 as [| [k' v'] m1 IH]; cbn [JSMap.get app]; [done |].
  by destruct (Z.eqb k k').
Qed.

Lemma JSMap_get_set_eq (k : Z) (v : V) (m : JSMap.t V) :
  JSMap.get k (JSMap.set k v m) = Some v.
Proof.
  unfold JSMap.set. destruct (JSMap.has k m) eqn:E.
  - by apply JSMap_get_replace_eq.
  - rewrite JSMap_get_app. unfold JSMap.has in E.
    destruct (JSMap.get k m); [done |]. cbn. by rewrite Z.eqb_refl.
Qed.

Lemma JSMap_get_set_ne (k k' : Z) (v : V) (m : JSMap.t V) :
  k <> k' -> JSMap.get k' (JSMap.set k v m) = JSMap.get k' m.
Proof.
  intros Hne. unfold JSMap.set. destruct (JSMap.has k m).
  - by apply JSMap_get_replace_ne.
  - rewrite JSMap_get_app. destruct (JSMap.get k' m); [done |]. cbn.
    assert (Z.eqb k' k = false) as -> by (apply Z.eqb_neq; congruence). done.
Qed.

Lemma JSMap_delete_absent (k : Z) (m : JSMap.t V) :
  JSMap.get k m = None -> JSMap.delete k m = m.
Proof.
  unfold JSMap.delete. induction m as [| [k' v'] m IH]; cbn [JSMap.get List.filter fst];
    [done |].
  destruct (Z.eqb k k'); [done |]. cbn [negb]. intros Hm. by rewrite IH.
Qed.

Lemma JSMap_delete_set_fresh (k : Z) (v : V) (m : JSMap.t V) :
  JSMap.get k m = None -> JSMap.delete k (JSMap.set k v m) = m.
Proof.
  intros Hm. unfold JSMap.set, JSMap.has. rewrite Hm.
  unfold JSMap.delete. rewrite List.filter_app. cbn. rewrite Z.eqb_refl. cbn.
  rewrite app_nil_r. by apply JSMap_delete_absent.
Qed.

End JSMapMore.

(** ** The body registry of the physics world *)

Section RegistryFacts.
Import PhysicsWorldState.

Lemma filter_absent (b : Z) (l : list Z) :
  b ∉ l -> List.filter (fun b' => negb (Z.eqb b b')) l = l.
Proof.
  induction l as [| x l IH]; [done |]. intros Hout.
  apply not_elem_of_cons in Hout as [Hne Hout]. cbn.
  assert (Z.eqb b x = false) as -> by (by apply Z.eqb_neq). cbn. by rewrite IH.
Qed.

Lemma update_self_id (f : PhysicsWorldState.t -> PhysicsWorldState.t) (g : Game) :
  f (physicsWorld g) = physicsWorld g -> PhysicsWorld.update_self f g = g.
Proof. intros Hf. unfold PhysicsWorld.update_self. rewrite Hf. by destruct g. Qed.

(** X1. After [addBody(body, mesh)] the two maps answer for each other:
    the body's mesh is [mesh], the mesh's body is [body], and the body is
    in the world and in [physicsBodies].  Bodies and meshes other than
    these two keep the answers they had. *)
Theorem X1_addBody_lookup_round_trip (b m : Z) (g : Game) :
  let g' := PhysicsWorld.addBody b (Some m) g in
  PhysicsWorld.getMeshFromBody b g' = Some m /\
  PhysicsWorld.getBodyFromMesh m g' = Some b /\
  (b ∈ world_bodies (physicsWorld g')) /\
  JSMap.get b (physicsBodies (physicsWorld g')) = Some b /\
  (forall b', b' <> b ->
     PhysicsWorld.getMeshFromBody b' g' = PhysicsWorld.getMeshFromBody b' g) /\
  (forall m', m' <> m ->
     PhysicsWorld.getBodyFromMesh m' g' = PhysicsWorld.getBodyFromMesh m' g).
Proof.
  cbn zeta. unfold PhysicsWorld.getMeshFromBody, PhysicsWorld.getBodyFromMesh,
    PhysicsWorld.addBody. cbn.
  split; [apply JSMap_get_set_eq |]. split; [apply JSMap_get_set_eq |].
  split.
  - unfold PhysicsWorld.world_addBody. case_bool_decide as Hin; [done |].
    cbn. apply elem_of_app. right. by apply list_elem_of_singleton.
  - split; [apply JSMap_get_set_eq |].
    split; intros x Hne; rewrite JSMap_get_set_ne by congruence;
      unfold PhysicsWorld.world_addBody; by case_bool_decide.
Qed.

(** What [removeBody] leaves behind makes a second call a no-op. *)
Lemma removeBody_leaves_unregistered (x : PhysicsWorld.BodyOrMesh) (g : Game) :
  match x with
  | PhysicsWorld.IsBody b =>
      (b ∉ world_bodies (physicsWorld (PhysicsWorld.removeBody x g))) /\
      JSMap.get b (physicsBodies (physicsWorld (PhysicsWorld.removeBody x g))) = None /\
      JSMap.get b (bodyMeshMap (physicsWorld (PhysicsWorld.removeBody x g))) = None
  | PhysicsWorld.IsMesh m =>
      JSMap.get m (meshBodyMap (physicsWorld (PhysicsWorld.removeBody x g))) = None
  end.
Proof.
  destruct x as [b | m]; cbn.
  - destruct (JSMap.get b (bodyMeshMap (physicsWorld g))) as [m |] eqn:E; cbn.
    + split; [apply world_removeBody_gone |]. split; apply JSMap_get_delete.
    + split; [apply world_removeBody_gone |]. split; [apply JSMap_get_delete | done].
  - destruct (JSMap.get m (meshBodyMap (physicsWorld g))) as [b |] eqn:E; cbn; [| done].
    apply JSMap_get_delete.
Qed.

Lemma removeBody_unregistered (x : PhysicsWorld.BodyOrMesh) (g : Game) :
  match x with
  | PhysicsWorld.IsBody b =>
      (b ∉ world_bodies (physicsWorld g)) /\
      JSMap.get b (physicsBodies (physicsWorld g)) = None /\
      JSMap.get b (bodyMeshMap (physicsWorld g)) = None
  | PhysicsWorld.IsMesh m => JSMap.get m (meshBodyMap (physicsWorld g)) = None
  end ->
  PhysicsWorld.removeBody x g = g.
Proof.
  destruct x as [b | m]; unfold PhysicsWorld.removeBody.
  - intros (Hw & Hp & Hm). apply update_self_id. cbn. rewrite Hm.
    unfold PhysicsWorld.world_removeBody. rewrite (filter_absent _ _ Hw).
    pose proof (JSMap_delete_absent _ _ Hp) as Hd. unfold JSMap.delete in Hd.
    rewrite Hd. by destruct (physicsWorld g).
  - intros Hm. apply update_self_id. by rewrite Hm.
Qed.

(** X2. Removing what is not registered is a no-op: a body that is in
    none of the world's body list, [physicsBodies] and [bodyMeshMap], and
    a mesh that has no body, leave the whole state as it is. *)
Theorem X2_removeBody_unregistered_is_noop (x : PhysicsWorld.BodyOrMesh) (g : Game) :
  match x with
  | PhysicsWorld.IsBody b =>
      (b ∉ world_bodies (physicsWorld g)) /\
      JSMap.get b (physicsBodies (physicsWorld g)) = None /\
      JSMap.get b (bodyMeshMap (physicsWorld g)) = None
  | PhysicsWorld.IsMesh m => JSMap.get m (meshBodyMap (physicsWorld g)) = None
  end ->
  PhysicsWorld.removeBody x g = g.
Proof. apply removeBody_unregistered. Qed.

(** X3. Removing twice is removing once. *)
Theorem X3_removeBody_idempotent (x : PhysicsWorld.BodyOrMesh) (g : Game) :
  PhysicsWorld.removeBody x (PhysicsWorld.removeBody x g) = PhysicsWorld.removeBody x g.
Proof.
  apply removeBody_unregistered.
  pose proof (removeBody_leaves_unregistered x g) as Hx. by destruct x.
Qed.

(** X4. A body and mesh that are new to the world can be added and
    removed again without trace. *)
Theorem X4_addBody_removeBody_restores (b m : Z) (g : Game) :
  b ∉ world_bodies (physicsWorld g) ->
  JSMap.get b (physicsBodies (physicsWorld g)) = None ->
  JSMap.get b (bodyMeshMap (physicsWorld g)) = None ->
  JSMap.get m (meshBodyMap (physicsWorld g)) = None ->
  PhysicsWorld.removeBody (PhysicsWorld.IsBody b) (PhysicsWorld.addBody b (Some m) g) = g.
Proof.
  intros Hw Hp Hbm Hmb.
  destruct g as [? ? ? ? ? w ? ? ? ? ? ?]. destruct w.
  cbn -[JSMap.set JSMap.delete JSMap.get List.filter bool_decide] in *.
  unfold PhysicsWorld.removeBody, PhysicsWorld.addBody, PhysicsWorld.update_self,
    PhysicsWorld.world_addBody.
  cbn -[JSMap.set JSMap.delete JSMap.get List.filter bool_decide].
  rewrite bool_decide_eq_false_2 by done.
  cbn -[JSMap.set JSMap.delete JSMap.get List.filter bool_decide].
  rewrite JSMap_get_set_eq.
  cbn -[JSMap.set JSMap.delete JSMap.get List.filter bool_decide].
  rewrite !JSMap_delete_set_fresh by done.
  unfold PhysicsWorld.world_removeBody.
  cbn -[JSMap.set JSMap.delete JSMap.get List.filter bool_decide].
  rewrite List.filter_app. cbn [List.filter]. rewrite Z.eqb_refl. cbn [negb].
  rewrite app_nil_r, (filter_absent _ _ Hw). reflexivity.
Qed.

Lemma X2_witness :
  PhysicsWorld.removeBody (PhysicsWorld.IsBody 7) Sample.street = Sample.street /\
  PhysicsWorld.removeBody (PhysicsWorld.IsMesh 7) Sample.street = Sample.street.
Proof.
  split.
  - apply (X2_removeBody_unregistered_is_noop (PhysicsWorld.IsBody 7) Sample.street).
    vm_compute. split; [| done].
    intros Hin. repeat (apply elem_of_cons in Hin as [Hin | Hin]; [discriminate |]).
    by apply elem_of_nil in Hin.
  - apply (X2_removeBody_unregistered_is_noop (PhysicsWorld.IsMesh 7) Sample.street).
    vm_compute. reflexivity.
Defined.

Lemma X4_witness :
  PhysicsWorld.removeBody (PhysicsWorld.IsBody 7)
    (PhysicsWorld.addBody 7 (Some 9%Z) Sample.street) = Sample.street.
Proof.
  apply (X4_addBody_removeBody_restores 7 9 Sample.street);
    [| vm_compute; reflexivity ..].
  vm_compute. intros Hin.
  repeat (apply elem_of_cons in Hin as [Hin | Hin]; [discriminate |]).
  by apply elem_of_nil in Hin.
Defined.

Lemma filter_nodup (b : Z) (l : list Z) :
  NoDup l -> NoDup (List.filter (fun b' => negb (Z.eqb b b')) l).
Proof.
  induction 1 as [| x l Hx Hl IH]; cbn; [constructor |].
  destruct (Z.eqb b x); cbn; [done |].
  constructor; [| done]. intros Hin. apply Hx.
  apply list_elem_of_In, List.filter_In in Hin as [Hin _]. by apply list_elem_of_In.
Qed.

Lemma filter_present_length (b : Z) (l : list Z) :
  NoDup l -> b ∈ l ->
  S (List.length (List.filter (fun b' => negb (Z.eqb b b')) l)) = List.length l.
Proof.
  induction 1 as [| x l Hx Hl IH]; intros Hin; [by apply elem_of_nil in Hin |].
  cbn. destruct (Z.eqb b x) eqn:E; cbn.
  - apply Z.eqb_eq in E. subst x. by rewrite (filter_absent _ _ Hx).
  - apply elem_of_cons in Hin as [-> | Hin]; [by rewrite Z.eqb_refl in E |].
    by rewrite IH.
Qed.

(** X7. The world's body list never holds a body twice, and
    [getBodiesCount] moves in step with it: adding a body that is in the
    world already leaves the count alone, adding a new one raises it by
    one; removing a body that is in the world lowers it by one, removing
    any other leaves it alone. *)
Theorem X7_body_count (b : Z) (mesh : option Z) (g : Game) :
  NoDup (world_bodies (physicsWorld g)) ->
  let present := bool_decide (b ∈ world_bodies (physicsWorld g)) in
  let added := PhysicsWorld.addBody b mesh g in
  let removed := PhysicsWorld.removeBody (PhysicsWorld.IsBody b) g in
  NoDup (world_bodies (physicsWorld added)) /\
  PhysicsWorld.getBodiesCount added =
    (PhysicsWorld.getBodiesCount g + (if present then 0 else 1))%nat /\
  NoDup (world_bodies (physicsWorld removed)) /\
  (PhysicsWorld.getBodiesCount removed + (if present then 1 else 0))%nat =
    PhysicsWorld.getBodiesCount g.
Proof.
  intros Hnd. cbn zeta. unfold PhysicsWorld.getBodiesCount.
  assert (world_bodies (physicsWorld (PhysicsWorld.addBody b mesh g)) =
          world_bodies (PhysicsWorld.world_addBody b (physicsWorld g))) as ->.
  { unfold PhysicsWorld.addBody. by destruct mesh. }
  assert (world_bodies (physicsWorld (PhysicsWorld.removeBody (PhysicsWorld.IsBody b) g)) =
          List.filter (fun b' => negb (Z.eqb b b')) (world_bodies (physicsWorld g))) as ->.
  { unfold PhysicsWorld.removeBody. cbn.
    by destruct (JSMap.get b (bodyMeshMap (physicsWorld g))). }
  unfold PhysicsWorld.world_addBody. case_bool_decide as Hin.
  - split; [done |]. split; [lia |]. split; [by apply filter_nodup |].
    rewrite <- (filter_present_length b _ Hnd Hin). lia.
  - cbn [world_bodies set_world_bodies]. split.
    + apply NoDup_app. split; [done |]. split; [| apply NoDup_singleton].
      intros x Hx Hb. apply list_elem_of_singleton in Hb. by subst x.
    + split; [rewrite length_app; cbn; lia |].
      split; [by apply filter_nodup |]. rewrite (filter_absent _ _ Hin). lia.
Qed.

Lemma X7_witness :
  PhysicsWorld.getBodiesCount (PhysicsWorld.addBody 1 None Sample.street) = 5%nat /\
  PhysicsWorld.getBodiesCount (PhysicsWorld.addBody 7 None Sample.street) = 6%nat /\
  PhysicsWorld.getBodiesCount
    (PhysicsWorld.removeBody (PhysicsWorld.IsBody 1) Sample.street) = 4%nat.
Proof.
  assert (NoDup (world_bodies (physicsWorld Sample.street))) as Hnd.
  { vm_compute. repeat (constructor; [intros Hin;
      repeat (apply elem_of_cons in Hin as [Hin | Hin]; [discriminate |]);
      by apply elem_of_nil in Hin |]). constructor. }
  destruct (X7_body_count 1 None Sample.street Hnd) as (_ & Ha & _ & Hr).
  destruct (X7_body_count 7 None Sample.street Hnd) as (_ & Ha' & _).
  clear Hnd. split; [exact Ha |]. split; [exact Ha' |].
  vm_compute in Hr. vm_compute. clear Ha Ha'. lia.
Defined.

End RegistryFacts.

(** ** One step of the physics world *)

Section StepFacts.
Import PhysicsWorldState.
Variable call : PhysicsCallback -> PhysicsEvent.t -> Game -> Game * Outcome.

(** Disabled contacts make no difference to [checkCollisions]. *)
Lemma checkCollisions_from_filter
    (contacts : list CANNON.ContactEquation) (g : Game) :
  PhysicsWorld.checkCollisions_from call contacts g =
  PhysicsWorld.checkCollisions_from call (List.filter CANNON.enabled contacts) g.
Proof.
  revert g. induction contacts as [| c contacts IH]; intros g; [done |].
  cbn [PhysicsWorld.checkCollisions_from List.filter].
  destruct (CANNON.enabled c) eqn:E; [| apply IH].
  cbn [PhysicsWorld.checkCollisions_from]. rewrite E.
  destruct (PhysicsWorld.notify call _ _ g) as [g' []]; [apply IH | done].
Qed.

Lemma sync_mesh_frame (e : Z * Z) (g : Game) :
  bodies (PhysicsWorld.sync_mesh e g) = bodies g /\
  physicsWorld (PhysicsWorld.sync_mesh e g) = physicsWorld g.
Proof. by destruct e. Qed.

Lemma sync_mesh_other (e : Z * Z) (g : Game) (m : Z) :
  m <> e.2 -> objects (PhysicsWorld.sync_mesh e g) !! m = objects g !! m.
Proof. destruct e as [b m']. intros Hne. cbn. by rewrite lookup_alter_ne. Qed.

Lemma fold_sync_frame (l : list (Z * Z)) (g : Game) :
  bodies (fold_left (fun g e => PhysicsWorld.sync_mesh e g) l g) = bodies g /\
  physicsWorld (fold_left (fun g e => PhysicsWorld.sync_mesh e g) l g) = physicsWorld g.
Proof.
  revert g. induction l as [| e l IH]; intros g; [done |].
  cbn [fold_left]. destruct (IH (PhysicsWorld.sync_mesh e g)) as [-> ->].
  apply sync_mesh_frame.
Qed.

Lemma fold_sync_other (l : list (Z * Z)) (g : Game) (m : Z) :
  m ∉ map snd l ->
  objects (fold_left (fun g e => PhysicsWorld.sync_mesh e g) l g) !! m = objects g !! m.
Proof.
  revert g. induction l as [| e l IH]; intros g Hout; [done |].
  cbn [map] in Hout. apply not_elem_of_cons in Hout as [Hne Hout].
  cbn [fold_left]. rewrite IH by done. by apply sync_mesh_other.
Qed.

Lemma fold_sync_entry (l : list (Z * Z)) (g : Game) (b m : Z) :
  NoDup (map snd l) -> (b, m) ∈ l ->
  objects (fold_left (fun g e => PhysicsWorld.sync_mesh e g) l g) !! m =
  (fun o => THREE.set_quaternion (CANNON.quaternion (Heap.body g b))
              (THREE.set_position (CANNON.position (Heap.body g b)) o))
    <$> objects g !! m.
Proof.
  revert g. induction l as [| e l IH]; intros g Hnd Hin; [by apply elem_of_nil in Hin |].
  cbn [map] in Hnd. apply NoDup_cons in Hnd as [Hout Hnd].
  cbn [fold_left]. apply elem_of_cons in Hin as [<- | Hin].
  - rewrite fold_sync_other by done. cbn. by rewrite lookup_alter_eq.
  - rewrite IH by done.
    assert (m <> e.2) as Hne.
    { intros ->. apply Hout. apply list_elem_of_fmap. by exists (b, e.2). }
    rewrite sync_mesh_other by done.
    unfold Heap.body. by destruct (sync_mesh_frame e g) as [-> _].
Qed.

Lemma updateDebugMesh_frame (d : DebugMesh) (g : Game) :
  bodies (PhysicsWorld.updateDebugMesh d g) = bodies g /\
  physicsWorld (PhysicsWorld.updateDebugMesh d g) = physicsWorld g /\
  forall m, m <> debug_mesh d ->
    objects (PhysicsWorld.updateDebugMesh d g) !! m = objects g !! m.
Proof.
  unfold PhysicsWorld.updateDebugMesh.
  destruct (CANNON.shapeOffsets _ !! _), (CANNON.shapeOrientations _ !! _); cbn;
    (split; [done |]); (split; [done |]); intros m Hne;
    by rewrite ?lookup_alter_ne.
Qed.

Lemma fold_updateDebugMesh_frame (ds : list DebugMesh) (g : Game) :
  bodies (fold_left (fun g d => PhysicsWorld.updateDebugMesh d g) ds g) = bodies g /\
  forall m, (forall d, d ∈ ds -> m <> debug_mesh d) ->
    objects (fold_left (fun g d => PhysicsWorld.updateDebugMesh d g) ds g) !! m =
    objects g !! m.
Proof.
  revert g. induction ds as [| d ds IH]; intros g; [done |].
  cbn [fold_left]. destruct (IH (PhysicsWorld.updateDebugMesh d g)) as [-> Ho].
  destruct (updateDebugMesh_frame d g) as (-> & _ & Hd). split; [done |].
  intros m Hm. rewrite Ho; [apply Hd, Hm, list_elem_of_here |].
  intros d' Hd'. by apply Hm, list_elem_of_further.
Qed.

Context `{CannonLib}.

(** X6. A frame of positive length whose physics step returns ends with
    every registered mesh where its body is: position and orientation of
    the mesh are those of the body.  This needs that no mesh is
    registered for two bodies and that no debug mesh is a registered
    mesh; the bodies themselves are not touched by the copying. *)
Theorem X6_update_syncs_meshes (deltaTime : JS.jsnum) (g g1 : Game) :
  JS.jsnum_gt0 deltaTime = true ->
  PhysicsWorld.world_step call (1 / 60) deltaTime 3 g = (g1, Returned) ->
  NoDup (map snd (bodyMeshMap (physicsWorld g1))) ->
  (forall d, d ∈ debugMeshes (physicsWorld g1) ->
     debug_mesh d ∉ map snd (bodyMeshMap (physicsWorld g1))) ->
  exists g2,
    PhysicsWorld.update call deltaTime g = (g2, Returned) /\
    bodies g2 = bodies g1 /\
    forall b m, (b, m) ∈ bodyMeshMap (physicsWorld g1) -> is_Some (objects g1 !! m) ->
      THREE.position (Heap.object g2 m) = CANNON.position (Heap.body g2 b) /\
      THREE.quaternion (Heap.object g2 m) = CANNON.quaternion (Heap.body g2 b).
Proof.
  intros Hpos Hstep Hnd Hdebug. unfold PhysicsWorld.update. rewrite Hpos, Hstep.
  eexists. split; [reflexivity |].
  set (g' := fold_left (fun g e => PhysicsWorld.sync_mesh e g)
               (bodyMeshMap (physicsWorld g1)) g1).
  destruct (fold_sync_frame (bodyMeshMap (physicsWorld g1)) g1) as [Hb Hw].
  fold g' in Hb, Hw.
  assert (forall b m, (b, m) ∈ bodyMeshMap (physicsWorld g1) ->
            is_Some (objects g1 !! m) ->
            THREE.position (Heap.object g' m) = CANNON.position (Heap.body g' b) /\
            THREE.quaternion (Heap.object g' m) = CANNON.quaternion (Heap.body g' b))
    as Hsync.
  { intros b m Hin [o Ho]. unfold Heap.object, Heap.body. rewrite Hb.
    unfold g'. rewrite (fold_sync_entry _ _ b m Hnd Hin), Ho. done. }
  destruct (debugMode (physicsWorld g') && bool_decide (debugScene (physicsWorld g') <> None))
    eqn:E; [| by split].
  unfold PhysicsWorld.updateDebugMeshes. rewrite E.
  destruct (fold_updateDebugMesh_frame (debugMeshes (physicsWorld g')) g') as [Hb' Ho'].
  split; [congruence |]. intros b m Hin Hsome.
  unfold Heap.object, Heap.body. rewrite Hb', Ho'; [by apply Hsync |].
  intros d Hd ->. rewrite Hw in Hd. apply (Hdebug d Hd).
  apply list_elem_of_fmap. by exists (b, debug_mesh d).
Qed.

End StepFacts.

Lemma X6_witness :
  exists g2,
    @Engine.physics_update Sample.math Sample.cannon 16 (JS.Num (1 # 60)) Sample.street
      = (g2, Returned) /\
    THREE.position (Heap.object g2 1) = CANNON.position (Heap.body g2 1).
Proof.
  destruct (X6_update_syncs_meshes (@Engine.call Sample.math 16) (H := Sample.cannon)
              (JS.Num (1 # 60)) Sample.street
              (PhysicsWorld.world_step (H := Sample.cannon) (@Engine.call Sample.math 16)
                 (1 / 60) (JS.Num (1 # 60)) 3 Sample.street).1)
    as (g2 & Hu & _ & Hs).
  - reflexivity.
  - vm_compute. reflexivity.
  - vm_compute. repeat (constructor; [intros Hin;
      repeat (apply elem_of_cons in Hin as [Hin | Hin]; [discriminate |]);
      by apply elem_of_nil in Hin |]). constructor.
  - vm_compute. intros d Hd. by apply elem_of_nil in Hd.
  - exists g2. split; [exact Hu |].
    apply (Hs 1%Z 1%Z).
    + vm_compute. apply list_elem_of_further, list_elem_of_here.
    + vm_compute. eexists. reflexivity.
Defined.

(** ** What [checkCollisions] reports *)

Section ReportFacts.
Context `{MathLib}.
Import PhysicsWorldState.

Lemma set_effects_same (g : Game) : set_effects (effects g) g = g.
Proof. by destruct g. Qed.

Lemma notify_observers (now : Z) (observers : list (Z * (PhysicsEvent.t -> bool)))
    (ev : PhysicsEvent.t) (g : Game) :
  Forall (fun o => o.2 ev = false) observers ->
  PhysicsWorld.notify (Engine.call now)
    (map (fun o => ExternalCallback o.1 o.2) observers) ev g =
  (set_effects (effects g ++ map (fun o => PhysicsCallbackInvoked o.1 ev) observers) g,
   Returned).
Proof.
  intros Hquiet. revert g. induction Hquiet as [| [n t] observers Hn Hquiet IH]; intros g.
  - cbn. by rewrite app_nil_r, set_effects_same.
  - cbn [map PhysicsWorld.notify Engine.call fst snd]. cbn [snd] in Hn. rewrite Hn.
    rewrite IH. cbn [Heap.emit effects set_effects]. by rewrite <- app_assoc.
Qed.

Lemma checkCollisions_from_reports (now : Z)
    (observers : list (Z * (PhysicsEvent.t -> bool)))
    (contacts : list CANNON.ContactEquation) (g : Game) :
  collisionCallbacks (physicsWorld g) = map (fun o => ExternalCallback o.1 o.2) observers ->
  Forall (fun o => forall ev, o.2 ev = false) observers ->
  PhysicsWorld.checkCollisions_from (Engine.call now) contacts g =
  (set_effects
     (effects g ++
      List.flat_map
        (fun c =>
           map (fun o =>
                  PhysicsCallbackInvoked o.1
                    (PhysicsEvent.mk (CANNON.bi c) (CANNON.bj c) (Some c)
                       (CANNON.impactVelocityAlongNormal c)))
               observers)
        (List.filter CANNON.enabled contacts))
     g,
   Returned).
Proof.
  intros Hcbs Hquiet. revert g Hcbs.
  induction contacts as [| c contacts IH]; intros g Hcbs.
  - cbn. by rewrite app_nil_r, set_effects_same.
  - cbn [PhysicsWorld.checkCollisions_from List.filter].
    destruct (CANNON.enabled c); [| by apply IH].
    rewrite Hcbs, notify_observers.
    + rewrite IH by done. cbn [List.flat_map effects set_effects].
      by rewrite <- app_assoc.
    + eapply Forall_impl; [exact Hquiet |]. intros o Ho. apply Ho.
Qed.

(** X5. [checkCollisions] reports exactly the enabled contacts.  With
    observers registered that do not throw, every observer is called, in
    registration order, once for each enabled contact of the world, in the
    order of the contact list, with the event made from that contact (its
    two bodies, the contact itself and its impact velocity along the
    normal); no call is made for a disabled contact, and nothing else
    changes. *)
Theorem X5_checkCollisions_reports_enabled (now : Z)
    (observers : list (Z * (PhysicsEvent.t -> bool))) (g : Game) :
  collisionCallbacks (physicsWorld g) = map (fun o => ExternalCallback o.1 o.2) observers ->
  Forall (fun o => forall ev, o.2 ev = false) observers ->
  PhysicsWorld.checkCollisions (Engine.call now) g =
  (set_effects
     (effects g ++
      List.flat_map
        (fun c =>
           map (fun o =>
                  PhysicsCallbackInvoked o.1
                    (PhysicsEvent.mk (CANNON.bi c) (CANNON.bj c) (Some c)
                       (CANNON.impactVelocityAlongNormal c)))
               observers)
        (List.filter CANNON.enabled (world_contacts (physicsWorld g))))
     g,
   Returned).
Proof. intros Hcbs Hquiet. by apply checkCollisions_from_reports. Qed.

End ReportFacts.

Lemma X5_witness :
  let quiet := fun _ : PhysicsEvent.t => false in
  let c1 := CANNON.mkContact 0 1 Vec.zero true 10 in
  let c2 := CANNON.mkContact 0 2 Vec.zero false 10 in
  let c3 := CANNON.mkContact 0 3 Vec.zero true 10 in
  let g := PhysicsWorld.update_self
             (fun w =>
                PhysicsWorldState.set_world_contacts [c1; c2; c3]
                  (PhysicsWorldState.set_collisionCallbacks
                     [ExternalCallback 7 quiet; ExternalCallback 8 quiet] w))
             Sample.empty in
  effects (PhysicsWorld.checkCollisions (@Engine.call Sample.math 16) g).1 =
  [PhysicsCallbackInvoked 7 (PhysicsEvent.mk 0 1 (Some c1) 10);
   PhysicsCallbackInvoked 8 (PhysicsEvent.mk 0 1 (Some c1) 10);
   PhysicsCallbackInvoked 7 (PhysicsEvent.mk 0 3 (Some c3) 10);
   PhysicsCallbackInvoked 8 (PhysicsEvent.mk 0 3 (Some c3) 10)].
Proof.
  cbv zeta.
  rewrite (X5_checkCollisions_reports_enabled (H := Sample.math) 16
             [(7%Z, fun _ => false); (8%Z, fun _ => false)]).
  - reflexivity.
  - reflexivity.
  - repeat constructor.
Defined.

(** ** Scoring: what a collision can be worth *)

Section RoundFacts.
Local Open Scope Q_scope.

Lemma Math_round_bounds (a b : Z) (x : Q) :
  inject_Z a <= x <= inject_Z b -> (a <= JS.Math_round x <= b)%Z.
Proof.
  intros [Ha Hb]. unfold JS.Math_round.
  pose proof (Qfloor_le (x + (1 # 2))) as Hl.
  pose proof (Qlt_floor (x + (1 # 2))) as Hu.
  assert (inject_Z a < inject_Z (Qfloor (x + (1 # 2)) + 1)) as H1 by lra.
  assert (inject_Z (Qfloor (x + (1 # 2))) < inject_Z (b + 1)) as H2.
  { rewrite inject_Z_plus. change (inject_Z 1) with 1. lra. }
  rewrite <- Zlt_Qlt in H1, H2. lia.
Qed.

End RoundFacts.

Section ScoreFacts.
Context `{MathLib}.
Import CollisionManagerState.
Local Open Scope Q_scope.

Lemma base_gain_bounds (v : Q) :
  1 <= v -> (20 <= JS.Math_round (100 * JS.Math_min 3 (v / 5)) <= 300)%Z.
Proof.
  intros Hv. apply Math_round_bounds.
  change (inject_Z 20) with 20. change (inject_Z 300) with 300.
  change (v / 5) with (v * (1 # 5)).
  destruct (Math_min_spec 3 (v * (1 # 5))) as [[Hm ->] | [Hm ->]]; lra.
Qed.

Lemma combo_multiplier_bounds (c : Z) :
  (3 <= c)%Z -> 1.5 <= JS.Math_min 3 (1 + (inject_Z c - 2) * 0.5) <= 3.
Proof.
  intros Hc. rewrite Zle_Qle in Hc. change (inject_Z 3) with 3 in Hc.
  destruct (Math_min_spec 3 (1 + (inject_Z c - 2) * 0.5)) as [[Hm ->] | [Hm ->]]; lra.
Qed.

Lemma combo_multiplier_cap (c : Z) :
  (6 <= c)%Z -> JS.Math_min 3 (1 + (inject_Z c - 2) * 0.5) == 3.
Proof.
  intros Hc. rewrite Zle_Qle in Hc. change (inject_Z 6) with 6 in Hc.
  destruct (Math_min_spec 3 (1 + (inject_Z c - 2) * 0.5)) as [[Hm ->] | [Hm ->]]; lra.
Qed.

Lemma combo_gain_bounds (base c : Z) :
  (20 <= base <= 300)%Z -> (3 <= c)%Z ->
  (20 <= JS.Math_round (inject_Z base * JS.Math_min 3 (1 + (inject_Z c - 2) * 0.5)) <= 900)%Z.
Proof.
  intros [Hl Hu] Hc. apply Math_round_bounds.
  change (inject_Z 20) with 20. change (inject_Z 900) with 900.
  rewrite Zle_Qle in Hl, Hu.
  change (inject_Z 20) with 20 in Hl. change (inject_Z 300) with 300 in Hu.
  pose proof (combo_multiplier_bounds c Hc) as [Hm1 Hm2].
  set (m := JS.Math_min 3 _) in *. set (q := inject_Z base) in *. nra.
Qed.

Lemma qualifies_impact (ev : PhysicsEvent.t) (g : Game) (T : Z) :
  CollisionRun.qualifies ev g = Some T ->
  1 <= JS.Math_abs (CollisionManager.impactVelocity_of ev g).
Proof.
  unfold CollisionRun.qualifies. destruct (vehicle (collisionManager g)); [| done].
  destruct (JS.ltb _ 1) eqn:E; [done |]. intros _. by apply ltb_false.
Qed.

(** What [processCollision] does to the score for an event whose impact
    is not below the threshold. *)
Lemma processCollision_score (now : Z) (ce : CollisionEvent.t) (g : Game) :
  1 <= CollisionEvent.impactVelocity ce ->
  let delta := (score (collisionManager (CollisionManager.processCollision now ce g))
                - score (collisionManager g))%Z in
  delta = 0%Z \/ delta = (-200)%Z \/ (20 <= delta <= 900)%Z.
Proof.
  intros Hv. cbv zeta. unfold CollisionManager.processCollision.
  destruct (CollisionEvent.targetType ce);
    try (left; cbv [CollisionManager.createDebrisEffect
                      CollisionManager.processBuildingCollision
                      CollisionManager.processPropCollision]; lia).
  - destruct (decide (CollisionEvent.bodyB ce ∈ hitObjects (collisionManager g)))
      as [Hin | Hout].
    { left. unfold CollisionManager.processHumanCollision.
      rewrite bool_decide_eq_true_2 by done. lia. }
    right; right. pose proof (base_gain_bounds _ Hv) as Hbase.
    destruct (Z.le_gt_cases 3 (consecutiveHumanHits (collisionManager g) + 1)) as [Hc | Hc].
    + destruct (processHumanCollision_combo now ce g Hout Hc) as [-> _].
      pose proof (combo_gain_bounds _ _ Hbase Hc). lia.
    + destruct (processHumanCollision_scores now ce g Hout) as [-> _]; lia.
  - destruct (decide (CollisionEvent.bodyB ce ∈ hitObjects (collisionManager g)))
      as [Hin | Hout].
    { left. unfold CollisionManager.processAnimalCollision.
      rewrite bool_decide_eq_true_2 by done. lia. }
    right; left. destruct (processAnimalCollision_scores ce g Hout) as [-> _]. lia.
Qed.

Lemma handleCollision_score (now : Z) (ev : PhysicsEvent.t) (g : Game) :
  let delta := (score (collisionManager (CollisionManager.handleCollision now ev g).1)
                - score (collisionManager g))%Z in
  delta = 0%Z \/ delta = (-200)%Z \/ (20 <= delta <= 900)%Z.
Proof.
  cbv zeta.
  destruct (CollisionManager.classify now ev g) as [[[T ce] g1] |] eqn:Hc.
  - rewrite (handleCollision_dispatched _ _ _ _ _ _ Hc).
    destruct (notify_frame (collisionCallbacks (collisionManager g)) ce
                (CollisionManager.processCollision now ce g1)) as (-> & _).
    apply classify_Some in Hc as (Hq & _ & Hg1 & _ & _ & _ & Hv).
    apply qualifies_impact in Hq. rewrite <- Hv in Hq.
    pose proof (processCollision_score now ce g1 Hq) as Hd. cbv zeta in Hd.
    assert (score (collisionManager g1) = score (collisionManager g)) as Hs
      by (by subst g1).
    by rewrite Hs in Hd.
  - rewrite (handleCollision_skipped _ _ _ Hc). left. cbn. lia.
Qed.

(** X8. One contact moves the score by nothing, by the animal penalty
    of 200, or by a gain between 20 and 900: the impact threshold of 1
    puts the base gain at 20 or more, the cap on the speed factor at 300
    or less, and the combo factor is at most 3. *)
Theorem X8_contact_score_change (now : Z) (ev : PhysicsEvent.t) (g : Game) :
  let delta :=
    (CollisionManager.getScore (CollisionManager.handleCollision now ev g).1
     - CollisionManager.getScore g)%Z in
  delta = 0%Z \/ delta = (-200)%Z \/ (20 <= delta <= 900)%Z.
Proof. apply handleCollision_score. Qed.

(** X9. From the sixth pedestrian in a row on, the combo factor has
    reached its cap: the hit is worth exactly three times what the same
    event is worth without a combo (with the counter below 2 before the
    hit). *)
Theorem X9_combo_cap (now : Z) (ce : CollisionEvent.t) (g g0 : Game) :
  CollisionEvent.bodyB ce ∉ hitObjects (collisionManager g) ->
  CollisionEvent.bodyB ce ∉ hitObjects (collisionManager g0) ->
  (5 <= consecutiveHumanHits (collisionManager g))%Z ->
  (consecutiveHumanHits (collisionManager g0) < 2)%Z ->
  (CollisionManager.getScore (CollisionManager.processHumanCollision now ce g)
   - CollisionManager.getScore g =
   3 * (CollisionManager.getScore (CollisionManager.processHumanCollision now ce g0)
        - CollisionManager.getScore g0))%Z.
Proof.
  intros Hout Hout0 Hc Hc0. unfold CollisionManager.getScore.
  destruct (processHumanCollision_combo now ce g Hout ltac:(lia)) as [-> _].
  destruct (processHumanCollision_scores now ce g0 Hout0 ltac:(lia)) as [-> _].
  set (base := JS.Math_round (100 * _)).
  pose proof (combo_multiplier_cap (consecutiveHumanHits (collisionManager g) + 1)
                ltac:(lia)) as Hm.
  assert (3 * base <= JS.Math_round
            (inject_Z base *
             JS.Math_min 3
               (1 + (inject_Z (consecutiveHumanHits (collisionManager g) + 1) - 2) * 0.5))
          <= 3 * base)%Z as Hr; [| lia].
  apply Math_round_bounds. rewrite Hm, inject_Z_mult.
  change (inject_Z 3) with 3. lra.
Qed.

End ScoreFacts.

Lemma X9_witness :
  let ce := CollisionEvent.mk 1 0 None (Some 1%Z) HUMAN_NPC 10 Vec.zero in
  let g := CollisionManager.update_self
             (CollisionManagerState.set_consecutiveHumanHits 5%Z) Sample.street in
  CollisionManager.getScore (CollisionManager.processHumanCollision 0 ce g) = 600%Z /\
  CollisionManager.getScore (CollisionManager.processHumanCollision 0 ce Sample.street)
    = 200%Z.
Proof.
  cbv zeta.
  assert (0%Z ∉ CollisionManagerState.hitObjects
                  (collisionManager
                     (CollisionManager.update_self
                        (CollisionManagerState.set_consecutiveHumanHits 5%Z) Sample.street)))
    as Hout.
  { assert (CollisionManagerState.hitObjects
              (collisionManager
                 (CollisionManager.update_self
                    (CollisionManagerState.set_consecutiveHumanHits 5%Z) Sample.street))
            = ∅) as -> by (vm_compute; reflexivity).
    apply not_elem_of_empty. }
  assert (0%Z ∉ CollisionManagerState.hitObjects (collisionManager Sample.street)) as Hout0.
  { assert (CollisionManagerState.hitObjects (collisionManager Sample.street) = ∅) as ->
      by (vm_compute; reflexivity).
    apply not_elem_of_empty. }
  pose proof (X9_combo_cap 0 (CollisionEvent.mk 1 0 None (Some 1%Z) HUMAN_NPC 10 Vec.zero)
                (CollisionManager.update_self
                   (CollisionManagerState.set_consecutiveHumanHits 5%Z) Sample.street)
                Sample.street Hout Hout0
                ltac:(vm_compute; discriminate)
                ltac:(vm_compute; reflexivity)) as Hcap.
  clear Hout Hout0.
  assert (CollisionManager.getScore
            (CollisionManager.processHumanCollision 0
               (CollisionEvent.mk 1 0 None (Some 1%Z) HUMAN_NPC 10 Vec.zero) Sample.street)
          = 200%Z) as Hbase by (vm_compute; reflexivity).
  rewrite Hbase in Hcap.
  change (CollisionManager.getScore Sample.street) with 0%Z in Hcap.
  change (CollisionManager.getScore
            (CollisionManager.update_self
               (CollisionManagerState.set_consecutiveHumanHits 5%Z) Sample.street))
    with 0%Z in Hcap.
  split; [lia | exact Hbase].
Defined.

(** ** The score over a run *)

Section ScoreRunFacts.
Context `{MathLib}.
Import CollisionManagerState.

Lemma fold_fire_score (l : list Timer) (g : Game) :
  score (collisionManager (fold_left (fun g tm => EventLoop.fire tm g) l g)) =
  score (collisionManager g).
Proof.
  revert g. induction l as [| tm l IH]; intros g; [done |].
  cbn [fold_left]. by rewrite IH.
Qed.

Lemma run_due_timers_score (now : Z) (g : Game) :
  score (collisionManager (EventLoop.run_due_timers now g)) = score (collisionManager g).
Proof. unfold EventLoop.run_due_timers. by rewrite fold_fire_score. Qed.

Lemma update_score (deltaTime : Q) (now : Z) (g : Game) :
  score (collisionManager (CollisionManager.update deltaTime now g)) =
  score (collisionManager g).
Proof.
  unfold CollisionManager.update.
  by destruct (_ && _), (Z.rem now 1000 <? 20)%Z.
Qed.

Lemma act_score (now : Z) (a : CollisionRun.Action) (g : Game) :
  let s0 := score (collisionManager g) in
  let s := score (collisionManager (CollisionRun.act now a g).1) in
  if ScoreRun.is_contact a
  then (s0 - 200 <= s <= s0 + 900)%Z
  else s = s0 \/ s = 0%Z.
Proof.
  destruct a as [ev | dt | | body type | v | cb | bs]; cbn [ScoreRun.is_contact];
    cbv zeta; cbn [CollisionRun.act fst].
  - pose proof (handleCollision_score now ev g) as Hd. cbv zeta in Hd. lia.
  - left. apply update_score.
  - by right.
  - left. by destruct body.
  - by left.
  - by left.
  - by left.
Qed.

Lemma contacts_cons (now : Z) (a : CollisionRun.Action) (tr : list (Z * CollisionRun.Action)) :
  ScoreRun.contacts ((now, a) :: tr) =
  ((if ScoreRun.is_contact a then 1 else 0) + ScoreRun.contacts tr)%Z.
Proof.
  unfold ScoreRun.contacts. cbn [List.filter snd].
  destruct (ScoreRun.is_contact a); cbn [List.length]; lia.
Qed.

(** X10. Over a whole run the score stays within what its contacts can
    account for: with [n] contacts reported, it has not dropped more than
    [200 n] below the lower of the starting score and zero, and not risen
    more than [900 n] above the higher of the two.  (Zero comes in
    through [reset].) *)
Theorem X10_run_score_range (tr : list (Z * CollisionRun.Action)) (g : Game) :
  let s0 := CollisionManager.getScore g in
  let s := CollisionManager.getScore (CollisionRun.run tr g).1 in
  (Z.min 0 s0 - 200 * ScoreRun.contacts tr <= s
   <= Z.max 0 s0 + 900 * ScoreRun.contacts tr)%Z.
Proof.
  cbv zeta. unfold CollisionManager.getScore.
  revert g. induction tr as [| [now a] tr IH]; intros g.
  - change (ScoreRun.contacts []) with 0%Z. cbn [CollisionRun.run fst]. lia.
  - cbn [CollisionRun.run]. unfold CollisionRun.step.
    destruct (CollisionRun.act now a (EventLoop.run_due_timers now g)) as [g1 ds] eqn:Hact.
    specialize (IH g1). destruct (CollisionRun.run tr g1) as [g2 ds'].
    cbn [fst] in *.
    pose proof (act_score now a (EventLoop.run_due_timers now g)) as Hs.
    cbv zeta in Hs. rewrite Hact, run_due_timers_score in Hs. cbn [fst] in Hs.
    rewrite contacts_cons. destruct (ScoreRun.is_contact a); lia.
Qed.

End ScoreRunFacts.

(** ** Contacts the collision manager lets pass *)

Section IgnoredFacts.
Context `{MathLib}.
Import CollisionManagerState.
Local Open Scope Q_scope.

(** X11. [handleCollision] does nothing at all (no score, no entry in
    the hit set, no timeout, no popup, no consumer called) when no
    vehicle has been set, when the impact speed is below 1, or when
    neither body is registered as the vehicle. *)
Theorem X11_ignored_contacts (now : Z) (ev : PhysicsEvent.t) (g : Game) :
  vehicle (collisionManager g) = None \/
  JS.Math_abs (CollisionManager.impactVelocity_of ev g) < 1 \/
  (objectTypes (collisionManager g) !! PhysicsEvent.bodyA ev <> Some VEHICLE /\
   objectTypes (collisionManager g) !! PhysicsEvent.bodyB ev <> Some VEHICLE) ->
  CollisionManager.handleCollision now ev g = (g, Returned).
Proof.
  intros Hcase. apply handleCollision_skipped. unfold CollisionManager.classify.
  destruct (vehicle (collisionManager g)) as [v |]; [| done].
  destruct Hcase as [Hv | [Hslow | [HA HB]]]; [done | |].
  - apply ltb_true in Hslow. by rewrite Hslow.
  - destruct (JS.ltb _ 1); [done |]. unfold CollisionManager.target_of.
    by rewrite !bool_decide_eq_false_2.
Qed.

(** X12. Once [setVehicle] has run, the target of a contact with the
    vehicle is the other body, whichever of the two comes first; a
    contact between two other bodies is classified as before. *)
Theorem X12_setVehicle_target (v : Vehicle.ref) (ev : PhysicsEvent.t) (g : Game) :
  let g' := CollisionManager.setVehicle v g in
  vehicle (collisionManager g') = Some v /\
  (PhysicsEvent.bodyA ev = Vehicle.ref_body v ->
     CollisionManager.target_of ev g' = Some (PhysicsEvent.bodyB ev)) /\
  (PhysicsEvent.bodyB ev = Vehicle.ref_body v ->
     PhysicsEvent.bodyA ev <> Vehicle.ref_body v ->
     objectTypes (collisionManager g) !! PhysicsEvent.bodyA ev <> Some VEHICLE ->
     CollisionManager.target_of ev g' = Some (PhysicsEvent.bodyA ev)) /\
  (PhysicsEvent.bodyA ev <> Vehicle.ref_body v ->
     PhysicsEvent.bodyB ev <> Vehicle.ref_body v ->
     CollisionManager.target_of ev g' = CollisionManager.target_of ev g).
Proof.
  cbv zeta. unfold CollisionManager.target_of, CollisionManager.setVehicle,
    CollisionManager.registerObject, CollisionManager.update_self.
  cbn [collisionManager set_collisionManager objectTypes set_objectTypes set_vehicle vehicle].
  split; [done |]. split; [| split].
  - intros ->. by rewrite lookup_insert_eq, bool_decide_eq_true_2.
  - intros HB HA Hty. rewrite HB, lookup_insert_eq, lookup_insert_ne by done.
    by rewrite bool_decide_eq_false_2, bool_decide_eq_true_2.
  - intros HA HB. by rewrite !lookup_insert_ne.
Qed.

(** X13. [reset] puts the score and the combo counter back to zero and
    forgets every remembered hit, so that any contact that qualifies is
    dispatched again at once; the registrations stay, and so do the
    timeouts that are pending. *)
Theorem X13_reset_forgets_hits (now : Z) (ev : PhysicsEvent.t) (g : Game) (T : Z) :
  CollisionRun.qualifies ev g = Some T ->
  let g0 := CollisionManager.reset g in
  CollisionManager.getScore g0 = 0%Z /\
  consecutiveHumanHits (collisionManager g0) = 0%Z /\
  objectTypes (collisionManager g0) = objectTypes (collisionManager g) /\
  timers g0 = timers g /\
  exists ce g1, CollisionManager.classify now ev g0 = Some (T, ce, g1).
Proof.
  intros Hq. cbv zeta. do 4 (split; [done |]).
  destruct (CollisionManager.classify now ev (CollisionManager.reset g))
    as [[[T' ce] g1] |] eqn:Hc.
  - apply classify_Some in Hc as Hc'. destruct Hc' as (Hq' & _).
    assert (CollisionRun.qualifies ev (CollisionManager.reset g) =
            CollisionRun.qualifies ev g) as Hsame by done.
    rewrite Hsame, Hq in Hq'. injection Hq' as <-. eauto.
  - apply classify_None in Hc as [Hc | (T' & _ & Hin)].
    + assert (CollisionRun.qualifies ev (CollisionManager.reset g) =
              CollisionRun.qualifies ev g) as Hsame by done.
      congruence.
    + by apply not_elem_of_empty in Hin.
Qed.

End IgnoredFacts.

Lemma X11_witness :
  CollisionManager.handleCollision (H := Sample.math) 5000 (Sample.contact 1 2 10)
    Sample.street = (Sample.street, Returned) /\
  CollisionManager.handleCollision (H := Sample.math) 5000 (Sample.contact 0 1 (1 # 2))
    Sample.street = (Sample.street, Returned).
Proof.
  split.
  - apply (X11_ignored_contacts (H := Sample.math) 5000 (Sample.contact 1 2 10)
             Sample.street).
    right; right. split; vm_compute; discriminate.
  - apply (X11_ignored_contacts (H := Sample.math) 5000 (Sample.contact 0 1 (1 # 2))
             Sample.street).
    right; left. vm_compute. reflexivity.
Defined.

Lemma X12_witness :
  CollisionManager.target_of (Sample.contact 7 1 10)
    (CollisionManager.setVehicle (Vehicle.mkRef 7 7) Sample.empty) = Some 1%Z /\
  CollisionManager.target_of (Sample.contact 1 7 10)
    (CollisionManager.setVehicle (Vehicle.mkRef 7 7) Sample.empty) = Some 1%Z /\
  CollisionManager.target_of (Sample.contact 1 2 10)
    (CollisionManager.setVehicle (Vehicle.mkRef 7 7) Sample.empty) = None.
Proof.
  destruct (X12_setVehicle_target (Vehicle.mkRef 7 7) (Sample.contact 7 1 10) Sample.empty)
    as (_ & H1 & _).
  destruct (X12_setVehicle_target (Vehicle.mkRef 7 7) (Sample.contact 1 7 10) Sample.empty)
    as (_ & _ & H2 & _).
  destruct (X12_setVehicle_target (Vehicle.mkRef 7 7) (Sample.contact 1 2 10) Sample.empty)
    as (_ & _ & _ & H3).
  split; [apply H1; reflexivity |].
  split; [apply H2; [reflexivity | discriminate | vm_compute; discriminate] |].
  rewrite H3; [vm_compute; reflexivity | discriminate | discriminate].
Defined.

Lemma X13_witness :
  exists ce g1,
    CollisionManager.classify (H := Sample.math) 5100 (Sample.contact 1 0 10)
      (CollisionManager.reset Removal.street_after_hit) = Some (1%Z, ce, g1).
Proof.
  apply (X13_reset_forgets_hits (H := Sample.math) 5100 (Sample.contact 1 0 10)
           Removal.street_after_hit 1).
  vm_compute. reflexivity.
Defined.

(** ** What the agents leave alone *)

Section FrameFacts.

Lemma moved_refl (g : Game) : Frame.moved g g.
Proof. by constructor. Qed.

Lemma moved_trans (g1 g2 g3 : Game) :
  Frame.moved g1 g2 -> Frame.moved g2 g3 -> Frame.moved g1 g3.
Proof.
  intros [] []. constructor; try congruence.
  - intros i. etrans; eauto.
  - intros i. etrans; eauto.
Qed.

Lemma moved_random (g : Game) : Frame.moved g (Heap.random g).2.
Proof. unfold Heap.random. destruct (randoms g); by constructor. Qed.

Lemma moved_update_object (f : THREE.Object3D -> THREE.Object3D) (i : Z) (g : Game) :
  Frame.moved g (Heap.update_object f i g).
Proof.
  constructor; try done. intros j. cbn.
  destruct (decide (i = j)) as [-> | Hne].
  - rewrite lookup_alter_eq. apply fmap_is_Some.
  - by rewrite lookup_alter_ne.
Qed.

Lemma moved_update_body (f : CANNON.Body -> CANNON.Body) (i : Z) (g : Game) :
  Frame.moved g (Heap.update_body f i g).
Proof.
  constructor; try done. intros j. cbn.
  destruct (decide (i = j)) as [-> | Hne].
  - rewrite lookup_alter_eq. apply fmap_is_Some.
  - by rewrite lookup_alter_ne.
Qed.

End FrameFacts.

(** Chain the steps of a method: each is a draw, a move of the mesh or a
    move of the body. *)
Ltac moved_steps :=
  repeat first
    [ apply moved_refl
    | apply moved_update_object
    | apply moved_update_body
    | apply moved_random
    | eapply moved_trans; [| apply moved_update_object]
    | eapply moved_trans; [| apply moved_update_body]
    | eapply moved_trans; [| apply moved_random]
    | eassumption
    | eapply moved_trans; [| eassumption] ].

(** Name the result of the next draw. *)
Ltac draw :=
  match goal with
  | |- context [Heap.random ?g] =>
      let H := fresh "Hdraw" in
      pose proof (moved_random g) as H;
      destruct (Heap.random g) as [? ?]; cbn [snd] in H
  end.

Section HumanFrame.
Context `{MathLib}.
Import HumanState.
Local Open Scope Q_scope.

Lemma human_chooseNewDirection_moved (now : Z) (h : HumanState.t) (g : Game) :
  Frame.moved g (Human.chooseNewDirection now h g).2 /\
  mesh (Human.chooseNewDirection now h g).1 = mesh h /\
  body (Human.chooseNewDirection now h g).1 = body h.
Proof.
  unfold Human.chooseNewDirection. do 2 draw. cbn [fst snd].
  split; [moved_steps | done].
Qed.

Ltac choose :=
  match goal with
  | |- context [Human.chooseNewDirection ?n ?h ?g] =>
      let H := fresh "Hchoose" in
      pose proof (human_chooseNewDirection_moved n h g) as H;
      destruct (Human.chooseNewDirection n h g) as [? ?]; cbn [fst snd] in H;
      destruct H as (? & ? & ?)
  end.

Lemma human_update_moved (now : Z) (deltaTime : Q) (h : HumanState.t) (g : Game) :
  Frame.moved g (Human.update now deltaTime h g).2 /\
  mesh (Human.update now deltaTime h g).1 = mesh h /\
  body (Human.update now deltaTime h g).1 = body h.
Proof.
  unfold Human.update. destruct (negb (isWalking h)); [by split; [apply moved_refl |] |].
  destruct (nextDirectionChange h <? now)%Z; [choose |].
  all: cbv beta iota zeta.
  all: match goal with
       | |- context [match targetPosition ?x with _ => _ end] =>
           destruct (targetPosition x) as [target |]
       end.
  all: try match goal with
           | |- context [JS.ltb ?a 1] => destruct (JS.ltb a 1); [choose |]
           end.
  all: cbn [fst snd]; (split; [moved_steps | split; congruence]).
Qed.

Lemma human_panic_moved (now : Z) (threat : Vec3) (h : HumanState.t) (g : Game) :
  Frame.moved g (Human.panic now threat h g).2 /\
  mesh (Human.panic now threat h g).1 = mesh h /\
  body (Human.panic now threat h g).1 = body h.
Proof.
  unfold Human.panic. destruct (panicMode h); [by split; [apply moved_refl |] |].
  cbn [fst snd]. split; [moved_steps | done].
Qed.

End HumanFrame.

Section AnimalFrame.
Context `{MathLib}.
Import AnimalState.
Local Open Scope Q_scope.

Lemma animal_chooseNewDirection_keeps (now : Z) (a : AnimalState.t) (g : Game) :
  Frame.moved g (Animal.chooseNewDirection now a g).2 /\
  mesh (Animal.chooseNewDirection now a g).1 = mesh a /\
  body (Animal.chooseNewDirection now a g).1 = body a /\
  animalType (Animal.chooseNewDirection now a g).1 = animalType a /\
  movementSpeed (Animal.chooseNewDirection now a g).1 = movementSpeed a /\
  flightMode (Animal.chooseNewDirection now a g).1 = flightMode a /\
  isMoving (Animal.chooseNewDirection now a g).1 = isMoving a.
Proof.
  unfold Animal.chooseNewDirection. do 2 draw.
  cbn [flightMode set_direction].
  destruct (flightMode a) eqn:Hf; [draw |]; cbv beta iota zeta; draw; cbn [fst snd];
    (split; [moved_steps | repeat split; first [reflexivity | exact Hf]]).
Qed.

Ltac choose :=
  match goal with
  | |- context [Animal.chooseNewDirection ?n ?a ?g] =>
      let H := fresh "Hchoose" in
      pose proof (animal_chooseNewDirection_keeps n a g) as H;
      destruct (Animal.chooseNewDirection n a g) as [? ?]; cbn [fst snd] in H;
      destruct H as (? & ? & ? & ? & ? & ? & ?)
  end.

Lemma animal_update_keeps (now : Z) (deltaTime : Q) (a : AnimalState.t) (g : Game) :
  Frame.moved g (Animal.update now deltaTime a g).2 /\
  mesh (Animal.update now deltaTime a g).1 = mesh a /\
  body (Animal.update now deltaTime a g).1 = body a /\
  animalType (Animal.update now deltaTime a g).1 = animalType a /\
  movementSpeed (Animal.update now deltaTime a g).1 = movementSpeed a /\
  flightMode (Animal.update now deltaTime a g).1 = flightMode a /\
  isMoving (Animal.update now deltaTime a g).1 = isMoving a.
Proof.
  unfold Animal.update. destruct (negb (isMoving a)); [by split; [apply moved_refl |] |].
  destruct (JS.gtb (inject_Z now) (nextDirectionChange a));
    [choose; draw;
     match goal with |- context [JS.ltb ?r ?u] => destruct (JS.ltb r u); [draw |] end |].
  all: cbv beta iota zeta.
  all: match goal with
       | |- context [Animal.is_bird ?x && flightMode ?x] =>
           destruct (Animal.is_bird x && flightMode x)
       end.
  all: match goal with
       | |- context [Animal.is_cow ?x] => destruct (Animal.is_cow x)
       end.
  all: cbn [negb].
  all: try match goal with
           | |- context [if flightMode ?x then _ else _] => destruct (flightMode x) eqn:?
           end.
  all: cbn [fst snd]; (split; [moved_steps | cbn; repeat split; congruence]).
Qed.

Lemma animal_flee_keeps (now : Z) (threat : Vec3) (a : AnimalState.t) (g : Game) :
  Frame.moved g (Animal.flee now threat a g).2 /\
  mesh (Animal.flee now threat a g).1 = mesh a /\
  body (Animal.flee now threat a g).1 = body a /\
  animalType (Animal.flee now threat a g).1 = animalType a /\
  movementSpeed (Animal.flee now threat a g).1 =
    Animal.speed (Animal.animalProperties (animalType a)) * 1.5 /\
  flightMode (Animal.flee now threat a g).1 = (flightMode a || Animal.is_bird a) /\
  isMoving (Animal.flee now threat a g).1 = isMoving a.
Proof.
  unfold Animal.flee.
  destruct (Animal.is_bird a) eqn:Hb, (flightMode a) eqn:Hf; cbn [andb negb orb];
    cbn [fst snd]; (split; [moved_steps | cbn; unfold Animal.properties; cbn; by rewrite ?Hf]).
Qed.

End AnimalFrame.

Section AgentTheorems.
Context `{MathLib}.
Local Open Scope Q_scope.

(** X14. The per-frame methods of the agents only move things: a
    human's [update] and [panic] and an animal's [update] and [flee]
    leave the physics registry, the scene, the collision manager with its
    score, the pending timeouts and the effects as they are, and neither
    create nor delete a body or an object. *)
Theorem X14_agents_only_move (now : Z) (deltaTime : Q) (threat : Vec3)
    (h : HumanState.t) (a : AnimalState.t) (g : Game) :
  Frame.moved g (Human.update now deltaTime h g).2 /\
  Frame.moved g (Human.panic now threat h g).2 /\
  Frame.moved g (Animal.update now deltaTime a g).2 /\
  Frame.moved g (Animal.flee now threat a g).2.
Proof.
  split; [apply human_update_moved |]. split; [apply human_panic_moved |].
  split; [apply animal_update_keeps | apply animal_flee_keeps].
Qed.

Lemma animal_new_fields (now : Z) (type : AnimalType) (position : Vec3) (g : Game) :
  AnimalState.animalType (Animal.new now type position g).1 = type /\
  AnimalState.movementSpeed (Animal.new now type position g).1 =
    Animal.speed (Animal.animalProperties type) /\
  AnimalState.flightMode (Animal.new now type position g).1 = bool_decide (type = BIRD) /\
  AnimalState.isMoving (Animal.new now type position g).1 = true.
Proof.
  unfold Animal.new.
  destruct (Animal.createAnimalMesh type g) as [m g1].
  destruct (Animal.createPhysicsBody type m position _) as [b g2].
  unfold Animal.startMoving.
  match goal with
  | |- context [Animal.chooseNewDirection now ?a ?g'] =>
      pose proof (animal_chooseNewDirection_keeps now a g') as (_ & _ & _ & Ht & Hs & Hf & Hm);
      destruct (Animal.chooseNewDirection now a g') as [a1 g3]
  end.
  cbn [fst snd AnimalState.animalType AnimalState.movementSpeed AnimalState.flightMode
       AnimalState.isMoving AnimalState.set_isMoving] in Ht, Hs, Hf, Hm.
  unfold Animal.properties. rewrite Ht.
  destruct type; cbn [Animal.animalProperties Animal.flightCapable];
    try (destruct (Heap.random g3) as [r g4]); cbn [fst]; cbn; by rewrite ?Ht, ?Hs, ?Hf, ?Hm.
Qed.

Lemma animal_run_fields (cs : list AnimalLife.Call) (a : AnimalState.t) (g : Game)
    (fled : bool) :
  let type := AnimalState.animalType a in
  let s := Animal.speed (Animal.animalProperties type) in
  AnimalState.flightMode a = bool_decide (type = BIRD) ->
  AnimalState.movementSpeed a = (if fled then s * 1.5 else s) ->
  let a' := (AnimalLife.run cs a g).1 in
  AnimalState.animalType a' = type /\
  AnimalState.mesh a' = AnimalState.mesh a /\
  AnimalState.body a' = AnimalState.body a /\
  AnimalState.flightMode a' = bool_decide (type = BIRD) /\
  AnimalState.movementSpeed a' =
    (if fled || existsb AnimalLife.is_flee cs then s * 1.5 else s).
Proof.
  cbv zeta. revert a g fled. induction cs as [| c cs IH]; intros a g fled Hf Hs.
  - cbn. by rewrite orb_false_r.
  - cbn [AnimalLife.run existsb]. destruct c as [now dt | now threat];
      cbn [AnimalLife.call AnimalLife.is_flee].
    + pose proof (animal_update_keeps now dt a g) as (_ & Hm & Hb & Ht & Hs' & Hf' & _).
      destruct (Animal.update now dt a g) as [a1 g1]. cbn [fst snd] in *.
      specialize (IH a1 g1 fled). rewrite Ht, Hm, Hb in IH. cbn [orb].
      apply IH; congruence.
    + pose proof (animal_flee_keeps now threat a g) as (_ & Hm & Hb & Ht & Hs' & Hf' & _).
      destruct (Animal.flee now threat a g) as [a1 g1]. cbn [fst snd] in *.
      specialize (IH a1 g1 true). rewrite Ht, Hm, Hb in IH.
      rewrite orb_true_r. cbn [orb] in IH. apply IH; [| done].
      rewrite Hf', Hf. unfold Animal.is_bird. by destruct (bool_decide _).
Qed.

(** X15. Over the whole life of an animal, from [new] through any
    sequence of [update] and [flee] calls: its species, mesh and body
    never change; it is in flight mode exactly when it is a bird; and its
    speed is the species speed until the first [flee] and one and a half
    times the species speed ever after, however often it flees. *)
Theorem X15_animal_life (now0 : Z) (type : AnimalType) (position : Vec3) (g0 : Game)
    (cs : list AnimalLife.Call) :
  let a0 := (Animal.new now0 type position g0).1 in
  let g := (Animal.new now0 type position g0).2 in
  let a := (AnimalLife.run cs a0 g).1 in
  AnimalState.animalType a = type /\
  AnimalState.mesh a = AnimalState.mesh a0 /\
  AnimalState.body a = AnimalState.body a0 /\
  AnimalState.flightMode a = bool_decide (type = BIRD) /\
  AnimalState.movementSpeed a =
    (if existsb AnimalLife.is_flee cs
     then Animal.speed (Animal.animalProperties type) * 1.5
     else Animal.speed (Animal.animalProperties type)).
Proof.
  cbv zeta.
  destruct (animal_new_fields now0 type position g0) as (Ht & Hs & Hf & _).
  pose proof (animal_run_fields cs (Animal.new now0 type position g0).1
                (Animal.new now0 type position g0).2 false) as Hrun.
  cbv zeta in Hrun. rewrite Ht in Hrun. cbn [orb] in Hrun. by apply Hrun.
Qed.

End AgentTheorems.

(** ** The population manager: spawning *)

Section SpawnFacts.
Local Open Scope Q_scope.

(** X16. Which species a random number selects.  The thresholds are
    running sums of the ratios, which binary floating point rounds, so
    each band is stated a hundredth inside of them: dogs up to 0.29, cats
    from 0.31 to 0.59, cows from 0.61 to 0.69, deer from 0.71 to 0.89,
    birds from 0.91 to 0.99. *)
Theorem X16_animal_type_thresholds (random : Q) :
  let type := NPCManager.select_from NPCManager.animalTypeRatios random 0 in
  (random <= 0.29 -> type = DOG) /\
  (0.31 <= random <= 0.59 -> type = CAT) /\
  (0.61 <= random <= 0.69 -> type = COW) /\
  (0.71 <= random <= 0.89 -> type = DEER) /\
  (0.91 <= random <= 0.99 -> type = BIRD).
Proof.
  cbv zeta. unfold NPCManager.animalTypeRatios. cbn [NPCManager.select_from].
  destruct (JS.ltb random (0 + 0.3)) eqn:E1;
    [apply ltb_true in E1 | apply ltb_false in E1].
  { repeat split; intros; first [reflexivity | lra]. }
  destruct (JS.ltb random (0 + 0.3 + 0.3)) eqn:E2;
    [apply ltb_true in E2 | apply ltb_false in E2].
  { repeat split; intros; first [reflexivity | lra]. }
  destruct (JS.ltb random (0 + 0.3 + 0.3 + 0.1)) eqn:E3;
    [apply ltb_true in E3 | apply ltb_false in E3].
  { repeat split; intros; first [reflexivity | lra]. }
  destruct (JS.ltb random (0 + 0.3 + 0.3 + 0.1 + 0.2)) eqn:E4;
    [apply ltb_true in E4 | apply ltb_false in E4].
  { repeat split; intros; first [reflexivity | lra]. }
  destruct (JS.ltb random (0 + 0.3 + 0.3 + 0.1 + 0.2 + 0.1)) eqn:E5;
    [apply ltb_true in E5 | apply ltb_false in E5].
  { repeat split; intros; first [reflexivity | lra]. }
  repeat split; intros; first [reflexivity | lra].
Qed.

End SpawnFacts.

Lemma X16_witness :
  NPCManager.select_from NPCManager.animalTypeRatios 0.65 0 = COW /\
  NPCManager.select_from NPCManager.animalTypeRatios 0.95 0 = BIRD.
Proof.
  destruct (X16_animal_type_thresholds 0.65) as (_ & _ & Hcow & _).
  destruct (X16_animal_type_thresholds 0.95) as (_ & _ & _ & _ & Hbird).
  split; [apply Hcow | apply Hbird]; split; vm_compute; congruence.
Defined.

(** ** The population manager: culling and clearing *)

Section DisposeFacts.
Context `{MathLib}.
Import PhysicsWorldState.

Lemma removeBody_world_bodies (b : Z) (g : Game) :
  world_bodies (physicsWorld (PhysicsWorld.removeBody (PhysicsWorld.IsBody b) g)) =
  List.filter (fun b' => negb (Z.eqb b b')) (world_bodies (physicsWorld g)) /\
  scene (PhysicsWorld.removeBody (PhysicsWorld.IsBody b) g) = scene g.
Proof.
  unfold PhysicsWorld.removeBody. cbn.
  by destruct (JSMap.get b (bodyMeshMap (physicsWorld g))).
Qed.

Lemma filter_out_gone (x : Z) (l : list Z) :
  x ∉ List.filter (fun y => negb (Z.eqb x y)) l.
Proof.
  intros Hin. apply list_elem_of_In, List.filter_In in Hin as [_ Hne].
  by rewrite Z.eqb_refl in Hne.
Qed.

Lemma filter_out_stays_out (x y : Z) (l : list Z) :
  y ∉ l -> y ∉ List.filter (fun z => negb (Z.eqb x z)) l.
Proof.
  intros Hout Hin. apply Hout.
  apply list_elem_of_In, List.filter_In in Hin as [Hin _]. by apply list_elem_of_In.
Qed.

(** What disposing of an agent with mesh [m] and body [b] does to the
    scene and to the world. *)
Lemma dispose_gone (m b : Z) (g : Game) :
  let g' := PhysicsWorld.removeBody (PhysicsWorld.IsBody b) (Heap.scene_remove m g) in
  (b ∉ world_bodies (physicsWorld g')) /\ (m ∉ scene g') /\
  (forall b', b' ∉ world_bodies (physicsWorld g) -> b' ∉ world_bodies (physicsWorld g')) /\
  (forall m', m' ∉ scene g -> m' ∉ scene g').
Proof.
  cbv zeta.
  destruct (removeBody_world_bodies b (Heap.scene_remove m g)) as [-> ->].
  cbn [Heap.scene_remove scene set_scene physicsWorld].
  split; [apply filter_out_gone |]. split; [apply filter_out_gone |].
  split; intros x; apply filter_out_stays_out.
Qed.

End DisposeFacts.

Section CullTheorems.
Context `{MathLib}.
Import PhysicsWorldState.
Local Open Scope Q_scope.

Lemma dispose_manager (m b : Z) (g : Game) :
  collisionManager (PhysicsWorld.removeBody (PhysicsWorld.IsBody b) (Heap.scene_remove m g)) =
  collisionManager g.
Proof. done. Qed.

Lemma updateHumans_pool (now : Z) (deltaTime : Q) (vehicle : option Vehicle.ref)
    (hs : list HumanState.t) (g : Game) :
  let rest := (NPCManager.updateHumans now deltaTime vehicle hs g).1 in
  let g' := (NPCManager.updateHumans now deltaTime vehicle hs g).2 in
  sublist (map HumanState.body rest) (map HumanState.body hs) /\
  (forall h, h ∈ hs ->
     HumanState.body h ∈ map HumanState.body rest \/
     ((HumanState.body h ∉ world_bodies (physicsWorld g')) /\
      (HumanState.mesh h ∉ scene g'))) /\
  collisionManager g' = collisionManager g.
Proof.
  cbv zeta. induction hs as [| human behind IH].
  - cbn. split; [constructor |]. split; [| done].
    intros h Hin. by apply elem_of_nil in Hin.
  - cbn [NPCManager.updateHumans].
    destruct IH as (Hsub & Hall & Hcm).
    destruct (NPCManager.updateHumans now deltaTime vehicle behind g) as [rest gb].
    cbn [fst snd] in Hsub, Hall, Hcm.
    pose proof (human_update_moved now deltaTime human gb) as (Hmv & Hm & Hb).
    destruct (Human.update now deltaTime human gb) as [h1 g1]. cbn [fst snd] in Hmv, Hm, Hb.
    cbv zeta. destruct (JS.gtb _ 150).
    + cbn [fst snd]. unfold Human.dispose.
      destruct (dispose_gone (HumanState.mesh h1) (HumanState.body h1) g1)
        as (Hb1 & Hm1 & Hbs & Hms).
      split; [cbn [map]; by apply sublist_cons |]. split.
      * intros h Hin. apply elem_of_cons in Hin as [-> | Hin].
        -- right. by rewrite <- Hb, <- Hm.
        -- destruct (Hall h Hin) as [Hk | [Ho1 Ho2]]; [by left | right].
           split; [apply Hbs | apply Hms].
           ++ by rewrite (Frame.same_world _ _ Hmv).
           ++ by rewrite (Frame.same_scene _ _ Hmv).
      * rewrite dispose_manager, (Frame.same_manager _ _ Hmv). done.
    + assert (exists h2 g2,
                match vehicle with
                | Some v =>
                    if JS.ltb (VecLib.distanceTo (Human.getPosition h1 g1)
                                 (VehicleRef.getPosition v g1)) NPCManager.panicRadius
                    then let '(human, g) :=
                           Human.panic now (VehicleRef.getPosition v g1) h1 g1 in
                         (human :: rest, g)
                    else (h1 :: rest, g1)
                | None => (h1 :: rest, g1)
                end = (h2 :: rest, g2) /\
                Frame.moved g1 g2 /\ HumanState.body h2 = HumanState.body h1)
        as (h2 & g2 & -> & Hmv2 & Hb2).
      { destruct vehicle as [v |]; [| by exists h1, g1; split; [| split; [apply moved_refl |]]].
        destruct (JS.ltb _ NPCManager.panicRadius);
          [| by exists h1, g1; split; [| split; [apply moved_refl |]]].
        pose proof (human_panic_moved now (VehicleRef.getPosition v g1) h1 g1)
          as (Hp & _ & Hpb).
        destruct (Human.panic now (VehicleRef.getPosition v g1) h1 g1) as [h2 g2].
        by exists h2, g2. }
      cbn [fst snd map]. rewrite Hb2, Hb.
      split; [by apply sublist_skip |]. split.
      * intros h Hin. apply elem_of_cons in Hin as [-> | Hin].
        -- left. apply list_elem_of_here.
        -- destruct (Hall h Hin) as [Hk | [Ho1 Ho2]];
             [left; by apply list_elem_of_further | right].
           rewrite (Frame.same_world _ _ Hmv2), (Frame.same_scene _ _ Hmv2),
             (Frame.same_world _ _ Hmv), (Frame.same_scene _ _ Hmv). done.
      * rewrite (Frame.same_manager _ _ Hmv2), (Frame.same_manager _ _ Hmv). done.
Qed.

(** X17. One pass of the manager over its pedestrians.  The pool that
    is left is the old one with some pedestrians taken out, in the same
    order.  Every pedestrian of the old pool is either still in the pool
    or has been disposed of: its body is out of the physics world and its
    mesh out of the scene.  The collision manager is not told: its state,
    the registrations included, is what it was. *)
Theorem X17_updateHumans_culls (now : Z) (deltaTime : Q) (vehicle : option Vehicle.ref)
    (hs : list HumanState.t) (g : Game) :
  let rest := (NPCManager.updateHumans now deltaTime vehicle hs g).1 in
  let g' := (NPCManager.updateHumans now deltaTime vehicle hs g).2 in
  sublist (map HumanState.body rest) (map HumanState.body hs) /\
  (forall h, h ∈ hs ->
     HumanState.body h ∈ map HumanState.body rest \/
     ((HumanState.body h ∉ world_bodies (physicsWorld g')) /\
      (HumanState.mesh h ∉ scene g'))) /\
  collisionManager g' = collisionManager g.
Proof. apply updateHumans_pool. Qed.

End CullTheorems.

Section CapFacts.
Context `{MathLib}.
Import NPCManagerState.
Local Open Scope Q_scope.

Lemma spawnHumans_pool (count : nat) (now : Z) (n : NPCManagerState.t) (g : Game) :
  let n' := (NPCManager.spawnHumans count now n g).1 in
  (List.length (humans n) <= List.length (humans n') <= List.length (humans n) + count)%nat /\
  animals n' = animals n /\ playerVehicle n' = playerVehicle n.
Proof.
  cbv zeta. revert n g. induction count as [| count IH]; intros n g.
  - cbn. split; [lia | done].
  - cbn [NPCManager.spawnHumans].
    destruct (NPCManager.findSpawnPosition true n g) as [[p |] g1].
    + destruct (Human.new now p g1) as [human g2].
      match goal with
      | |- context [NPCManager.spawnHumans count now ?n' ?g'] =>
          destruct (IH n' g') as (Hl & Ha & Hv)
      end.
      cbn [humans animals playerVehicle set_humans] in Hl, Ha, Hv.
      rewrite length_app in Hl. cbn [List.length] in Hl.
      split; [lia | done].
    + destruct (IH n g1) as (Hl & Ha & Hv). split; [lia | done].
Qed.

Lemma spawnAnimals_pool (count : nat) (now : Z) (n : NPCManagerState.t) (g : Game) :
  let n' := (NPCManager.spawnAnimals count now n g).1 in
  (List.length (animals n) <= List.length (animals n')
   <= List.length (animals n) + count)%nat /\
  humans n' = humans n /\ playerVehicle n' = playerVehicle n.
Proof.
  cbv zeta. revert n g. induction count as [| count IH]; intros n g.
  - cbn. split; [lia | done].
  - cbn [NPCManager.spawnAnimals].
    destruct (NPCManager.selectRandomAnimalType g) as [type g0].
    destruct (NPCManager.findSpawnPosition _ n g0) as [[p |] g1].
    + destruct (bool_decide (type = BIRD)); [destruct (Heap.random g1) as [r g1'] |];
        match goal with
        | |- context [Animal.new now type ?p' ?g'] =>
            destruct (Animal.new now type p' g') as [animal g2]
        end;
        match goal with
        | |- context [NPCManager.spawnAnimals count now ?n' ?g'] =>
            destruct (IH n' g') as (Hl & Ha & Hv)
        end;
        cbn [humans animals playerVehicle set_animals] in Hl, Ha, Hv;
        rewrite length_app in Hl; cbn [List.length] in Hl;
        (split; [lia | done]).
    + destruct (IH n g1) as (Hl & Ha & Hv). split; [lia | done].
Qed.

Lemma trySpawnHuman_pool (now : Z) (n : NPCManagerState.t) (g : Game) :
  let n' := (NPCManager.trySpawnHuman now n g).1 in
  (List.length (humans n) <= List.length (humans n'))%nat /\
  (List.length (humans n') <= List.length (humans n) + 3)%nat /\
  (List.length (humans n') <= Nat.max (List.length (humans n)) NPCManager.maxHumans)%nat /\
  animals n' = animals n /\ playerVehicle n' = playerVehicle n.
Proof.
  cbv zeta. unfold NPCManager.trySpawnHuman.
  destruct (NPCManager.maxHumans <=? _)%nat eqn:E; [cbn; repeat split; lia |].
  apply Nat.leb_gt in E.
  destruct (NPCManager.maxTotalNPCs <? _)%nat; [cbn; repeat split; lia |].
  destruct (spawnHumans_pool
              (Nat.min 3 (NPCManager.maxHumans - List.length (humans n))) now n g)
    as (Hl & Ha & Hv).
  repeat split; try done; lia.
Qed.

Lemma trySpawnAnimal_pool (now : Z) (n : NPCManagerState.t) (g : Game) :
  let n' := (NPCManager.trySpawnAnimal now n g).1 in
  (List.length (animals n) <= List.length (animals n'))%nat /\
  (List.length (animals n') <= List.length (animals n) + 2)%nat /\
  (List.length (animals n') <= Nat.max (List.length (animals n)) NPCManager.maxAnimals)%nat /\
  humans n' = humans n /\ playerVehicle n' = playerVehicle n.
Proof.
  cbv zeta. unfold NPCManager.trySpawnAnimal.
  destruct (NPCManager.maxAnimals <=? _)%nat eqn:E; [cbn; repeat split; lia |].
  apply Nat.leb_gt in E.
  destruct (NPCManager.maxTotalNPCs <? _)%nat; [cbn; repeat split; lia |].
  destruct (spawnAnimals_pool
              (Nat.min 2 (NPCManager.maxAnimals - List.length (animals n))) now n g)
    as (Hl & Ha & Hv).
  repeat split; try done; lia.
Qed.

(** X18. Spawning respects the caps.  [trySpawnHuman] never shrinks the
    pool of pedestrians, adds at most three, never takes it beyond 200
    (a pool that is already larger stays as it is), and leaves the animals
    alone; [trySpawnAnimal] likewise with two and 150. *)
Theorem X18_spawn_respects_caps (now : Z) (n : NPCManagerState.t) (g : Game) :
  let nh := (NPCManager.trySpawnHuman now n g).1 in
  let na := (NPCManager.trySpawnAnimal now n g).1 in
  ((NPCManager.getHumanCount n <= NPCManager.getHumanCount nh)%nat /\
   (NPCManager.getHumanCount nh <= NPCManager.getHumanCount n + 3)%nat /\
   (NPCManager.getHumanCount nh
    <= Nat.max (NPCManager.getHumanCount n) NPCManager.maxHumans)%nat /\
   animals nh = animals n) /\
  ((NPCManager.getAnimalCount n <= NPCManager.getAnimalCount na)%nat /\
   (NPCManager.getAnimalCount na <= NPCManager.getAnimalCount n + 2)%nat /\
   (NPCManager.getAnimalCount na
    <= Nat.max (NPCManager.getAnimalCount n) NPCManager.maxAnimals)%nat /\
   humans na = humans n).
Proof.
  cbv zeta. unfold NPCManager.getHumanCount, NPCManager.getAnimalCount.
  destruct (trySpawnHuman_pool now n g) as (? & ? & ? & ? & _).
  destruct (trySpawnAnimal_pool now n g) as (? & ? & ? & ? & _).
  done.
Qed.

End CapFacts.

Section UpdateFacts.
Context `{MathLib}.
Import NPCManagerState PhysicsWorldState.
Local Open Scope Q_scope.

Lemma updateAnimals_pool (now : Z) (deltaTime : Q) (vehicle : option Vehicle.ref)
    (xs : list AnimalState.t) (g : Game) :
  let rest := (NPCManager.updateAnimals now deltaTime vehicle xs g).1 in
  let g' := (NPCManager.updateAnimals now deltaTime vehicle xs g).2 in
  sublist (map AnimalState.body rest) (map AnimalState.body xs) /\
  (forall a, a ∈ xs ->
     AnimalState.body a ∈ map AnimalState.body rest \/
     ((AnimalState.body a ∉ world_bodies (physicsWorld g')) /\
      (AnimalState.mesh a ∉ scene g'))) /\
  collisionManager g' = collisionManager g.
Proof.
  cbv zeta. induction xs as [| animal behind IH].
  - cbn. split; [constructor |]. split; [| done].
    intros a Hin. by apply elem_of_nil in Hin.
  - cbn [NPCManager.updateAnimals].
    destruct IH as (Hsub & Hall & Hcm).
    destruct (NPCManager.updateAnimals now deltaTime vehicle behind g) as [rest gb].
    cbn [fst snd] in Hsub, Hall, Hcm.
    pose proof (animal_update_keeps now deltaTime animal gb) as (Hmv & Hm & Hb & _).
    destruct (Animal.update now deltaTime animal gb) as [a1 g1]. cbn [fst snd] in Hmv, Hm, Hb.
    cbv zeta. destruct (JS.gtb _ 150).
    + cbn [fst snd]. unfold Animal.dispose.
      destruct (dispose_gone (AnimalState.mesh a1) (AnimalState.body a1) g1)
        as (Hb1 & Hm1 & Hbs & Hms).
      split; [cbn [map]; by apply sublist_cons |]. split.
      * intros a Hin. apply elem_of_cons in Hin as [-> | Hin].
        -- right. by rewrite <- Hb, <- Hm.
        -- destruct (Hall a Hin) as [Hk | [Ho1 Ho2]]; [by left | right].
           split; [apply Hbs | apply Hms].
           ++ by rewrite (Frame.same_world _ _ Hmv).
           ++ by rewrite (Frame.same_scene _ _ Hmv).
      * rewrite dispose_manager, (Frame.same_manager _ _ Hmv). done.
    + assert (exists a2 g2,
                match vehicle with
                | Some v =>
                    if JS.ltb (VecLib.distanceTo (Animal.getPosition a1 g1)
                                 (VehicleRef.getPosition v g1)) NPCManager.panicRadius
                    then let '(animal, g) :=
                           Animal.flee now (VehicleRef.getPosition v g1) a1 g1 in
                         (animal :: rest, g)
                    else (a1 :: rest, g1)
                | None => (a1 :: rest, g1)
                end = (a2 :: rest, g2) /\
                Frame.moved g1 g2 /\ AnimalState.body a2 = AnimalState.body a1)
        as (a2 & g2 & -> & Hmv2 & Hb2).
      { destruct vehicle as [v |]; [| by exists a1, g1; split; [| split; [apply moved_refl |]]].
        destruct (JS.ltb _ NPCManager.panicRadius);
          [| by exists a1, g1; split; [| split; [apply moved_refl |]]].
        pose proof (animal_flee_keeps now (VehicleRef.getPosition v g1) a1 g1)
          as (Hp & _ & Hpb & _).
        destruct (Animal.flee now (VehicleRef.getPosition v g1) a1 g1) as [a2 g2].
        by exists a2, g2. }
      cbn [fst snd map]. rewrite Hb2, Hb.
      split; [by apply sublist_skip |]. split.
      * intros a Hin. apply elem_of_cons in Hin as [-> | Hin].
        -- left. apply list_elem_of_here.
        -- destruct (Hall a Hin) as [Hk | [Ho1 Ho2]];
             [left; by apply list_elem_of_further | right].
           rewrite (Frame.same_world _ _ Hmv2), (Frame.same_scene _ _ Hmv2),
             (Frame.same_world _ _ Hmv), (Frame.same_scene _ _ Hmv). done.
      * rewrite (Frame.same_manager _ _ Hmv2), (Frame.same_manager _ _ Hmv). done.
Qed.

Lemma pool_length {A : Type} (f : A -> Z) (rest xs : list A) :
  sublist (map f rest) (map f xs) -> (List.length rest <= List.length xs)%nat.
Proof. intros Hs. apply sublist_length in Hs. by rewrite !length_map in Hs. Qed.

(** X19. A frame of the manager keeps the population within its caps:
    if there were at most 200 pedestrians and 150 animals before
    [update], there are after it, and then the total is within
    [maxTotalNPCs] too.  The player's vehicle stays the one that was
    set. *)
Theorem X19_update_keeps_caps (now : Z) (deltaTime : Q) (n : NPCManagerState.t) (g : Game) :
  (NPCManager.getHumanCount n <= NPCManager.maxHumans)%nat ->
  (NPCManager.getAnimalCount n <= NPCManager.maxAnimals)%nat ->
  let n' := (NPCManager.update now deltaTime n g).1 in
  (NPCManager.getHumanCount n' <= NPCManager.maxHumans)%nat /\
  (NPCManager.getAnimalCount n' <= NPCManager.maxAnimals)%nat /\
  (NPCManager.getTotalNPCCount n' <= NPCManager.maxTotalNPCs)%nat /\
  playerVehicle n' = playerVehicle n.
Proof.
  unfold NPCManager.getHumanCount, NPCManager.getAnimalCount, NPCManager.getTotalNPCCount.
  intros Hh Ha. cbv zeta. unfold NPCManager.update.
  assert (exists n1 g1,
            (if (NPCManager.humanSpawnInterval <? now - lastHumanSpawnTime n)%Z
             then let '(n0, g0) := NPCManager.trySpawnHuman now n g in
                  (set_lastHumanSpawnTime now n0, g0)
             else (n, g)) = (n1, g1) /\
            (List.length (humans n1) <= NPCManager.maxHumans)%nat /\
            animals n1 = animals n /\ playerVehicle n1 = playerVehicle n)
    as (n1 & g1 & -> & Hh1 & Ha1 & Hv1).
  { destruct (_ <? _)%Z; [| by exists n, g].
    pose proof (trySpawnHuman_pool now n g) as (_ & _ & Hc & Hs & Hv).
    destruct (NPCManager.trySpawnHuman now n g) as [n0 g0]. cbn [fst] in Hc, Hs, Hv.
    exists (set_lastHumanSpawnTime now n0), g0. split; [done |].
    cbn [humans animals playerVehicle set_lastHumanSpawnTime]. split; [lia | done]. }
  assert (exists n2 g2,
            (if (NPCManager.animalSpawnInterval <? now - lastAnimalSpawnTime n1)%Z
             then let '(n0, g0) := NPCManager.trySpawnAnimal now n1 g1 in
                  (set_lastAnimalSpawnTime now n0, g0)
             else (n1, g1)) = (n2, g2) /\
            (List.length (animals n2) <= NPCManager.maxAnimals)%nat /\
            humans n2 = humans n1 /\ playerVehicle n2 = playerVehicle n1)
    as (n2 & g2 & -> & Ha2 & Hh2 & Hv2).
  { rewrite <- Ha1 in Ha. destruct (_ <? _)%Z; [| by exists n1, g1].
    pose proof (trySpawnAnimal_pool now n1 g1) as (_ & _ & Hc & Hs & Hv).
    destruct (NPCManager.trySpawnAnimal now n1 g1) as [n0 g0]. cbn [fst] in Hc, Hs, Hv.
    exists (set_lastAnimalSpawnTime now n0), g0. split; [done |].
    cbn [humans animals playerVehicle set_lastAnimalSpawnTime]. split; [lia | done]. }
  pose proof (updateHumans_pool now deltaTime (playerVehicle n2) (humans n2) g2)
    as (Hsh & _).
  destruct (NPCManager.updateHumans now deltaTime (playerVehicle n2) (humans n2) g2)
    as [hs g3]. cbn [fst] in Hsh. apply pool_length in Hsh.
  cbn [animals playerVehicle set_humans].
  pose proof (updateAnimals_pool now deltaTime (playerVehicle n2) (animals n2) g3)
    as (Hsa & _).
  destruct (NPCManager.updateAnimals now deltaTime (playerVehicle n2) (animals n2) g3)
    as [xs g4]. cbn [fst] in Hsa. apply pool_length in Hsa.
  cbn [fst humans animals playerVehicle set_animals set_humans].
  unfold NPCManager.maxHumans, NPCManager.maxAnimals, NPCManager.maxTotalNPCs in *.
  rewrite Hh2 in Hsh. repeat split; [lia | lia | lia | congruence].
Qed.

End UpdateFacts.

Lemma X19_witness :
  (NPCManager.getHumanCount
     (NPCManager.update (H := Sample.math) 3000 (1 # 60)
        Sample.far_out_manager Sample.far_out.2).1 <= NPCManager.maxHumans)%nat.
Proof.
  apply (X19_update_keeps_caps (H := Sample.math) 3000 (1 # 60)
           Sample.far_out_manager Sample.far_out.2).
  - vm_compute. lia.
  - vm_compute. lia.
Defined.

Section ClearFacts.
Context `{MathLib}.
Import NPCManagerState PhysicsWorldState.
Local Open Scope Q_scope.

Lemma fold_dispose {A : Type} (fm fb : A -> Z) (l : list A) (g : Game) :
  let dispose := fun g x =>
    PhysicsWorld.removeBody (PhysicsWorld.IsBody (fb x)) (Heap.scene_remove (fm x) g) in
  let g' := fold_left dispose l g in
  (forall x, x ∈ l -> (fb x ∉ world_bodies (physicsWorld g')) /\ (fm x ∉ scene g')) /\
  (forall b, b ∉ world_bodies (physicsWorld g) -> b ∉ world_bodies (physicsWorld g')) /\
  (forall m, m ∉ scene g -> m ∉ scene g') /\
  collisionManager g' = collisionManager g.
Proof.
  cbv zeta. revert g. induction l as [| x l IH]; intros g.
  - cbn. split; [| done]. intros x Hin. by apply elem_of_nil in Hin.
  - cbn [fold_left].
    destruct (IH (PhysicsWorld.removeBody (PhysicsWorld.IsBody (fb x))
                    (Heap.scene_remove (fm x) g))) as (Hall & Hb & Hm & Hcm).
    destruct (dispose_gone (fm x) (fb x) g) as (Hb1 & Hm1 & Hbs & Hms).
    split; [| split; [| split]].
    + intros y Hin. apply elem_of_cons in Hin as [-> | Hin]; [| by apply Hall].
      split; [by apply Hb | by apply Hm].
    + intros b Hout. by apply Hb, Hbs.
    + intros m Hout. by apply Hm, Hms.
    + by rewrite Hcm.
Qed.

(** X20. [clear] empties both pools and disposes of every agent that
    was in them: each body is out of the physics world, each mesh out of
    the scene.  The vehicle reference stays, and so does everything the
    collision manager holds. *)
Theorem X20_clear_disposes_all (n : NPCManagerState.t) (g : Game) :
  let n' := (NPCManager.clear n g).1 in
  let g' := (NPCManager.clear n g).2 in
  humans n' = [] /\ animals n' = [] /\ playerVehicle n' = playerVehicle n /\
  (forall h, h ∈ humans n ->
     (HumanState.body h ∉ world_bodies (physicsWorld g')) /\
     (HumanState.mesh h ∉ scene g')) /\
  (forall a, a ∈ animals n ->
     (AnimalState.body a ∉ world_bodies (physicsWorld g')) /\
     (AnimalState.mesh a ∉ scene g')) /\
  collisionManager g' = collisionManager g.
Proof.
  cbv zeta. unfold NPCManager.clear. cbn [fst snd humans animals playerVehicle
    set_humans set_animals].
  do 3 (split; [done |]).
  pose proof (fold_dispose HumanState.mesh HumanState.body (humans n) g)
    as (Hh & Hhb & Hhm & Hhc).
  cbv zeta in Hh, Hhb, Hhm, Hhc.
  set (g1 := fold_left (fun g h => Human.dispose h g) (humans n) g).
  change (fold_left _ (humans n) g) with g1 in Hh, Hhb, Hhm, Hhc.
  pose proof (fold_dispose AnimalState.mesh AnimalState.body (animals n) g1)
    as (Ha & Hab & Ham & Hac).
  cbv zeta in Ha, Hab, Ham, Hac.
  set (g2 := fold_left (fun g a => Animal.dispose a g) (animals n) g1).
  change (fold_left _ (animals n) g1) with g2 in Ha, Hab, Ham, Hac.
  split; [| split; [done | congruence]].
  intros h Hin. destruct (Hh h Hin). split; [by apply Hab | by apply Ham].
Qed.

Lemma random_stores (g : Game) :
  objects (Heap.random g).2 = objects g /\ bodies (Heap.random g).2 = bodies g.
Proof. unfold Heap.random. by destruct (randoms g). Qed.

Lemma findSpawnPosition_from_valid (tries : nat) (base : Vec3) (minDistance maxDistance : Q)
    (n : NPCManagerState.t) (g : Game) (p : Vec3) (g' : Game) :
  NPCManager.findSpawnPosition_from tries base minDistance maxDistance n g = (Some p, g') ->
  vy p = 0 /\ NPCManager.isValidSpawnPosition p n g' = true /\ Frame.moved g g' /\
  objects g' = objects g /\ bodies g' = bodies g.
Proof.
  revert g. induction tries as [| tries IH]; intros g; [done |].
  cbn [NPCManager.findSpawnPosition_from].
  pose proof (moved_random g) as H1. pose proof (random_stores g) as [Ho1 Hb1].
  destruct (Heap.random g) as [r1 g1]. cbn [snd] in H1, Ho1, Hb1.
  pose proof (moved_random g1) as H2. pose proof (random_stores g1) as [Ho2 Hb2].
  destruct (Heap.random g1) as [r2 g2]. cbn [snd] in H2, Ho2, Hb2.
  cbv zeta.
  destruct (NPCManager.isValidSpawnPosition _ n g2) eqn:Hv.
  - intros [= <- <-]. split; [done |]. split; [done |].
    split; [by eapply moved_trans |]. split; congruence.
  - intros Hrec. apply IH in Hrec as (? & ? & ? & ? & ?).
    split; [done |]. split; [done |].
    split; [eapply moved_trans; [| done]; by eapply moved_trans |]. split; congruence.
Qed.

(** X21. A position that [findSpawnPosition] returns lies at ground
    level and is not nearer than 5 (as [distanceTo] measures it) to any
    pedestrian or animal of the pools; the search has drawn random numbers
    and changed nothing else. *)
Theorem X21_spawn_position_is_clear (urbanArea : bool) (n : NPCManagerState.t) (g : Game)
    (p : Vec3) (g' : Game) :
  NPCManager.findSpawnPosition urbanArea n g = (Some p, g') ->
  vy p = 0 /\
  (forall h, h ∈ humans n -> 5 <= VecLib.distanceTo (Human.getPosition h g') p) /\
  (forall a, a ∈ animals n -> 5 <= VecLib.distanceTo (Animal.getPosition a g') p) /\
  Frame.moved g g' /\ objects g' = objects g /\ bodies g' = bodies g.
Proof.
  unfold NPCManager.findSpawnPosition. destruct urbanArea; intros Hf;
    apply findSpawnPosition_from_valid in Hf as (Hy & Hv & Hm & Ho & Hb);
    (split; [done |]);
    unfold NPCManager.isValidSpawnPosition in Hv;
    apply andb_true_iff in Hv as [Hh Ha];
    rewrite forallb_forall in Hh, Ha;
    (split; [intros h Hin; apply list_elem_of_In, Hh, negb_true_iff in Hin;
             by apply ltb_false in Hin |]);
    (split; [intros a Hin; apply list_elem_of_In, Ha, negb_true_iff in Hin;
             by apply ltb_false in Hin |]);
    done.
Qed.

End ClearFacts.

Lemma X21_witness :
  exists p g',
    NPCManager.findSpawnPosition (H := Sample.math) true
      Sample.far_out_manager Sample.far_out.2 = (Some p, g') /\
    vy p = 0%Q.
Proof.
  destruct (NPCManager.findSpawnPosition (H := Sample.math) true
              Sample.far_out_manager Sample.far_out.2) as [[p |] g'] eqn:Hf;
    [| by vm_compute in Hf].
  exists p, g'. split; [reflexivity |].
  apply (X21_spawn_position_is_clear (H := Sample.math) true
           Sample.far_out_manager Sample.far_out.2 p g' Hf).
Defined.

Lemma X20_witness :
  HumanState.body Sample.far_out.1 ∉
    PhysicsWorldState.world_bodies
      (physicsWorld (NPCManager.clear Sample.far_out_manager Sample.far_out.2).2).
Proof.
  destruct (X20_clear_disposes_all Sample.far_out_manager Sample.far_out.2)
    as (_ & _ & _ & Hh & _).
  apply (Hh Sample.far_out.1).
  unfold Sample.far_out_manager. cbn [NPCManagerState.humans]. apply list_elem_of_here.
Defined.

Lemma X17_witness :
  (NPCManager.updateHumans (H := Sample.math) 3000 (1 # 60) (Some (Vehicle.mkRef 0 0))
     [Sample.far_out.1] Sample.far_out.2).1 = [] /\
  HumanState.body Sample.far_out.1 ∉
    PhysicsWorldState.world_bodies
      (physicsWorld
         (NPCManager.updateHumans (H := Sample.math) 3000 (1 # 60)
            (Some (Vehicle.mkRef 0 0)) [Sample.far_out.1] Sample.far_out.2).2).
Proof.
  destruct (X17_updateHumans_culls (H := Sample.math) 3000 (1 # 60)
              (Some (Vehicle.mkRef 0 0)) [Sample.far_out.1] Sample.far_out.2)
    as (_ & Hall & _).
  assert ((NPCManager.updateHumans (H := Sample.math) 3000 (1 # 60)
             (Some (Vehicle.mkRef 0 0)) [Sample.far_out.1] Sample.far_out.2).1 = [])
    as Hrest by (vm_compute; reflexivity).
  split; [exact Hrest |].
  destruct (Hall Sample.far_out.1 (list_elem_of_here _ _)) as [Hkept | [Hgone _]];
    [| exact Hgone].
  rewrite Hrest in Hkept. clear Hall Hrest. apply elem_of_nil in Hkept. destruct Hkept.
Defined.

(** ** A pedestrian from construction to disposal *)

Section HumanLifeFacts.
Context `{MathLib}.
Import HumanState PhysicsWorldState.
Local Open Scope Q_scope.

Lemma human_chooseNewDirection_stores (now : Z) (h : HumanState.t) (g : Game) :
  bodies (Human.chooseNewDirection now h g).2 = bodies g /\
  THREE.position (Heap.object (Human.chooseNewDirection now h g).2 (mesh h)) =
    THREE.position (Heap.object g (mesh h)) /\
  isWalking (Human.chooseNewDirection now h g).1 = isWalking h.
Proof.
  unfold Human.chooseNewDirection.
  pose proof (random_stores g) as [Ho1 Hb1]. destruct (Heap.random g) as [r1 g1].
  pose proof (random_stores g1) as [Ho2 Hb2]. destruct (Heap.random g1) as [r2 g2].
  cbn [fst snd] in *. split; [cbn; congruence |]. split; [| done].
  unfold Heap.object, Heap.update_object.
  cbn [objects set_objects mesh set_direction set_targetPosition].
  rewrite lookup_alter_eq, Ho2, Ho1. by destruct (objects g !! mesh h).
Qed.

Lemma scene_add_in (m : Z) (g : Game) : m ∈ scene (Heap.scene_add m g).
Proof.
  unfold Heap.scene_add. case_bool_decide; [done |].
  cbn. apply elem_of_app. right. apply list_elem_of_here.
Qed.

Lemma world_addBody_in (b : Z) (w : PhysicsWorldState.t) :
  b ∈ world_bodies (PhysicsWorld.world_addBody b w).
Proof.
  unfold PhysicsWorld.world_addBody. case_bool_decide; [done |].
  cbn. apply elem_of_app. right. apply list_elem_of_here.
Qed.

Lemma scene_add_fields (m : Z) (g : Game) :
  bodies (Heap.scene_add m g) = bodies g /\
  objects (Heap.scene_add m g) = objects g /\
  bodyIdCounter (Heap.scene_add m g) = bodyIdCounter g /\
  objectIdCounter (Heap.scene_add m g) = objectIdCounter g /\
  physicsWorld (Heap.scene_add m g) = physicsWorld g /\
  collisionManager (Heap.scene_add m g) = collisionManager g.
Proof. unfold Heap.scene_add. by case_bool_decide. Qed.

Lemma createHumanMesh_spec (g : Game) :
  let m := (Human.createHumanMesh g).1 in
  let g' := (Human.createHumanMesh g).2 in
  m = objectIdCounter g /\
  objectIdCounter g' = (objectIdCounter g + 1)%Z /\
  objects g' !! m = Some (THREE.mkObject3D m Vec.zero 0 Heap.identity) /\
  bodies g' = bodies g /\ bodyIdCounter g' = bodyIdCounter g /\
  scene g' = scene g /\ physicsWorld g' = physicsWorld g /\
  collisionManager g' = collisionManager g.
Proof.
  cbv zeta. unfold Human.createHumanMesh.
  pose proof (moved_random g) as M1. pose proof (random_stores g) as [_ B1].
  destruct (Heap.random g) as [r1 g1].
  pose proof (moved_random g1) as M2. pose proof (random_stores g1) as [_ B2].
  destruct (Heap.random g1) as [r2 g2].
  pose proof (moved_random g2) as M3. pose proof (random_stores g2) as [_ B3].
  destruct (Heap.random g2) as [r3 g3].
  cbn [snd] in M1, M2, M3, B1, B2, B3.
  assert (Frame.moved g g3) as [] by (eapply moved_trans; [eapply moved_trans |]; eassumption).
  unfold Heap.new_object. cbn [fst snd].
  cbn [objects set_objects set_objectIdCounter objectIdCounter bodies bodyIdCounter scene
       physicsWorld collisionManager].
  rewrite lookup_insert_eq. repeat split; congruence.
Qed.

Lemma createPhysicsBody_spec (m : Z) (position : Vec3) (g : Game) :
  let b := (Human.createPhysicsBody m position g).1 in
  let g' := (Human.createPhysicsBody m position g).2 in
  b = bodyIdCounter g /\
  bodyIdCounter g' = (bodyIdCounter g + 1)%Z /\
  CANNON.position (Heap.body g' b) =
    mkVec3 (vx position) (vy position + 1.8 / 2) (vz position) /\
  objects g' = objects g /\ objectIdCounter g' = objectIdCounter g /\
  scene g' = scene g /\ collisionManager g' = collisionManager g /\
  PhysicsWorld.getMeshFromBody b g' = Some m /\
  PhysicsWorld.getBodyFromMesh m g' = Some b /\
  (b ∈ world_bodies (physicsWorld g')).
Proof.
  cbv zeta. unfold Human.createPhysicsBody, Heap.new_body. cbn [fst snd].
  split; [done |]. split; [done |].
  split; [unfold Heap.body; cbn; by rewrite lookup_insert_eq |].
  do 4 (split; [done |]).
  unfold PhysicsWorld.getMeshFromBody, PhysicsWorld.getBodyFromMesh.
  split; [cbn; apply JSMap_get_set_eq |].
  split; [cbn; apply JSMap_get_set_eq |].
  cbn. apply world_addBody_in.
Qed.

(** X22. What [new Human] leaves behind.  The mesh is in the scene at
    the given position, the body in the physics world 0.9 above it; the
    physics world maps the one to the other and back; the pedestrian
    walks.  The collision manager has not heard of it. *)
Theorem X22_human_new_registers (now : Z) (position : Vec3) (g : Game) :
  let h := (Human.new now position g).1 in
  let g' := (Human.new now position g).2 in
  (mesh h ∈ scene g') /\ (body h ∈ world_bodies (physicsWorld g')) /\
  PhysicsWorld.getMeshFromBody (body h) g' = Some (mesh h) /\
  PhysicsWorld.getBodyFromMesh (mesh h) g' = Some (body h) /\
  THREE.position (Heap.object g' (mesh h)) = position /\
  CANNON.position (Heap.body g' (body h)) =
    mkVec3 (vx position) (vy position + 1.8 / 2) (vz position) /\
  isWalking h = true /\
  collisionManager g' = collisionManager g.
Proof.
  cbv zeta. unfold Human.new.
  pose proof (createHumanMesh_spec g) as (Hm0 & Hoc & Hobj & Hbs0 & Hbc0 & Hsc0 & Hw0 & Hcm0).
  destruct (Human.createHumanMesh g) as [m g1]. cbn [fst snd] in *.
  set (g2 := Heap.scene_add m (Heap.update_object (THREE.set_position position) m g1)).
  pose proof (scene_add_fields m (Heap.update_object (THREE.set_position position) m g1))
    as (Hbs2 & Hobj2 & Hbc2 & Hoc2 & Hw2 & Hcm2).
  cbn [Heap.update_object bodies bodyIdCounter objectIdCounter physicsWorld
       collisionManager set_objects] in Hbs2, Hbc2, Hoc2, Hw2, Hcm2.
  fold g2 in Hbs2, Hobj2, Hbc2, Hoc2, Hw2, Hcm2.
  pose proof (scene_add_in m (Heap.update_object (THREE.set_position position) m g1))
    as Hin2. fold g2 in Hin2.
  pose proof (createPhysicsBody_spec m position g2)
    as (Hb3 & Hbc3 & Hpos3 & Hobj3 & Hoc3 & Hsc3 & Hcm3 & Hmb & Hbm & Hin3).
  destruct (Human.createPhysicsBody m position g2) as [b g3]. cbn [fst snd] in *.
  unfold Human.startWalking.
  match goal with
  | |- context [Human.chooseNewDirection now ?h0 g3] =>
      pose proof (human_chooseNewDirection_moved now h0 g3) as (Hmv & Hm & Hb);
      pose proof (human_chooseNewDirection_stores now h0 g3) as (Hbs & Hpos & Hw);
      destruct (Human.chooseNewDirection now h0 g3) as [h g']
  end.
  cbn [fst snd mesh body isWalking set_isWalking] in Hmv, Hm, Hb, Hbs, Hpos, Hw.
  cbn [fst snd].
  unfold PhysicsWorld.getMeshFromBody, PhysicsWorld.getBodyFromMesh in *.
  rewrite Hm, Hb, Hw, Hpos. unfold Heap.body in *. rewrite Hbs.
  rewrite (Frame.same_scene _ _ Hmv), (Frame.same_world _ _ Hmv),
    (Frame.same_manager _ _ Hmv).
  split; [by rewrite Hsc3 |].
  do 3 (split; [done |]).
  split.
  { unfold Heap.object. rewrite Hobj3, Hobj2. cbn [Heap.update_object objects set_objects].
    by rewrite lookup_alter_eq, Hobj. }
  split; [done |]. split; [done |]. congruence.
Qed.

Lemma object_of_update_object (f : THREE.Object3D -> THREE.Object3D) (i : Z) (g : Game) :
  is_Some (objects g !! i) ->
  Heap.object (Heap.update_object f i g) i = f (Heap.object g i).
Proof.
  intros [o Ho]. unfold Heap.object, Heap.update_object. cbn [objects set_objects].
  by rewrite lookup_alter_eq, Ho.
Qed.

Lemma body_of_update_body (f : CANNON.Body -> CANNON.Body) (i : Z) (g : Game) :
  is_Some (bodies g !! i) ->
  Heap.body (Heap.update_body f i g) i = f (Heap.body g i).
Proof.
  intros [o Ho]. unfold Heap.body, Heap.update_body. cbn [bodies set_bodies].
  by rewrite lookup_alter_eq, Ho.
Qed.

(** X23. After [update] the body of a walking pedestrian stands where
    its mesh stands: same x, same z, and 0.9 (half the body height)
    higher; its orientation is the identity.  The pedestrian's mesh and
    body must exist. *)
Theorem X23_human_update_body_follows_mesh (now : Z) (deltaTime : Q) (h : HumanState.t)
    (g : Game) :
  isWalking h = true ->
  is_Some (objects g !! mesh h) -> is_Some (bodies g !! body h) ->
  let g' := (Human.update now deltaTime h g).2 in
  let p := THREE.position (Heap.object g' (mesh h)) in
  let q := CANNON.position (Heap.body g' (body h)) in
  vx q = vx p /\ vz q = vz p /\ vy q == vy p + 0.9 /\
  CANNON.quaternion (Heap.body g' (body h)) = mkQuat 0 0 0 1.
Proof.
  intros Hw Hom Hob. cbv zeta. unfold Human.update. rewrite Hw. cbn [negb].
  assert (exists h1 g1,
            (if (nextDirectionChange h <? now)%Z
             then Human.chooseNewDirection now h g else (h, g)) = (h1, g1) /\
            mesh h1 = mesh h /\ body h1 = body h /\ Frame.moved g g1)
    as (h1 & g1 & -> & Hm1 & Hb1 & Hmv1).
  { destruct (_ <? _)%Z; [| exists h, g; do 3 (split; [done |]); apply moved_refl].
    pose proof (human_chooseNewDirection_moved now h g) as (? & ? & ?).
    destruct (Human.chooseNewDirection now h g) as [h1 g1]. by exists h1, g1. }
  cbv zeta.
  apply (Frame.same_object_ids _ _ Hmv1) in Hom.
  apply (Frame.same_body_ids _ _ Hmv1) in Hob.
  rewrite <- Hm1 in Hom |- *. rewrite <- Hb1 in Hob |- *.
  set (move := fun o : THREE.Object3D => THREE.set_position _ o).
  set (g2 := Heap.update_object move (mesh h1) g1).
  set (follow := fun b : CANNON.Body => CANNON.set_position _ b).
  set (g3 := Heap.update_body follow (body h1) g2).
  assert (vx (CANNON.position (Heap.body g3 (body h1))) =
            vx (THREE.position (Heap.object g3 (mesh h1))) /\
          vz (CANNON.position (Heap.body g3 (body h1))) =
            vz (THREE.position (Heap.object g3 (mesh h1)))) as [Rx Rz].
  { unfold g3. rewrite body_of_update_body by done. done. }
  assert (Frame.moved g1 g3) as Hmv3 by (unfold g3, g2; moved_steps).
  apply (Frame.same_object_ids _ _ Hmv3) in Hom.
  apply (Frame.same_body_ids _ _ Hmv3) in Hob.
  assert (exists h4 g4,
            match targetPosition h1 with
            | Some target =>
                if JS.ltb (VecLib.distanceTo (Human.mesh_position h1 g2) target) 1
                then Human.chooseNewDirection now h1 g3 else (h1, g3)
            | None => (h1, g3)
            end = (h4, g4) /\
            mesh h4 = mesh h1 /\ body h4 = body h1 /\ Frame.moved g3 g4 /\
            bodies g4 = bodies g3 /\
            THREE.position (Heap.object g4 (mesh h1)) =
              THREE.position (Heap.object g3 (mesh h1)))
    as (h4 & g4 & -> & Hm4 & Hb4 & Hmv4 & Hbs4 & Hp4).
  { destruct (targetPosition h1) as [target |];
      [| exists h1, g3; do 3 (split; [done |]); split; [apply moved_refl | done]].
    destruct (JS.ltb _ 1); [| exists h1, g3; do 3 (split; [done |]); split; [apply moved_refl | done]].
    pose proof (human_chooseNewDirection_moved now h1 g3) as (? & ? & ?).
    pose proof (human_chooseNewDirection_stores now h1 g3) as (? & ? & _).
    destruct (Human.chooseNewDirection now h1 g3) as [h4 g4]. by exists h4, g4. }
  apply (Frame.same_object_ids _ _ Hmv4) in Hom.
  apply (Frame.same_body_ids _ _ Hmv4) in Hob.
  cbn [snd]. rewrite Hm4, Hb4.
  set (bob := fun o : THREE.Object3D => THREE.set_position _ o).
  set (g5 := Heap.update_object bob (mesh h1) g4).
  rewrite body_of_update_body by done.
  assert (Heap.body g5 (body h1) = Heap.body g3 (body h1)) as ->
    by (unfold Heap.body; cbn; by rewrite Hbs4).
  assert (Heap.object (Heap.update_body
                         (fun b : CANNON.Body =>
                            CANNON.set_quaternion (mkQuat 0 0 0 1)
                              (CANNON.set_position
                                 (mkVec3 (vx (CANNON.position b))
                                    (1.8 / 2 + 0 + Math_sin (inject_Z now * 0.01) * 0.05)
                                    (vz (CANNON.position b))) b))
                         (body h1) g5) (mesh h1) = bob (Heap.object g4 (mesh h1))) as ->.
  { unfold g5. by rewrite <- object_of_update_object. }
  unfold bob. cbn [THREE.position THREE.set_position CANNON.position CANNON.set_position
    CANNON.quaternion CANNON.set_quaternion vx vy vz].
  rewrite Hp4, Rx, Rz. repeat split; try reflexivity.
  assert (1.8 / 2 == 0.9) as E by reflexivity. lra.
Qed.

End HumanLifeFacts.

Lemma X23_witness :
  let g' := (Human.update (H := Sample.math) 100 (1 # 60) Sample.far_out.1
               Sample.far_out.2).2 in
  vx (CANNON.position (Heap.body g' 1)) = vx (THREE.position (Heap.object g' 1)).
Proof.
  apply (X23_human_update_body_follows_mesh (H := Sample.math) 100 (1 # 60)
           Sample.far_out.1 Sample.far_out.2).
  - vm_compute. reflexivity.
  - vm_compute. eexists. reflexivity.
  - vm_compute. eexists. reflexivity.
Defined.

(** ** Animals on the ground *)

Section AnimalGroundFacts.
Context `{MathLib}.
Import AnimalState.
Local Open Scope Q_scope.

Lemma Math_max_nonneg (x : Q) : 0 <= JS.Math_max 0 x.
Proof. destruct (Math_max_spec 0 x) as [[? ->] | [? ->]]; lra. Qed.

(** X24. An animal that is not a bird in flight is on the ground after
    [update]: a cow's mesh at height 0 exactly, any other at the height
    of its walk cycle, cut off at 0 from below.  The animal's mesh must
    exist. *)
Theorem X24_ground_animal_height (now : Z) (deltaTime : Q) (a : AnimalState.t) (g : Game) :
  isMoving a = true ->
  Animal.is_bird a && flightMode a = false ->
  is_Some (objects g !! mesh a) ->
  let g' := (Animal.update now deltaTime a g).2 in
  let y := vy (THREE.position (Heap.object g' (mesh a))) in
  y = (if Animal.is_cow a then 0
       else JS.Math_max 0 (Math_sin (inject_Z now * 0.005) * 0.05)) /\
  0 <= y.
Proof.
  intros Hmv Hground Hom. cbv zeta. unfold Animal.update. rewrite Hmv. cbn [negb].
  destruct (if JS.gtb (inject_Z now) (nextDirectionChange a) then _ else _)
    as [a1 g1] eqn:Hpre.
  assert (mesh a1 = mesh a /\ animalType a1 = animalType a /\
          flightMode a1 = flightMode a /\ Frame.moved g g1)
    as (Hm1 & Ht1 & Hf1 & Hmv1).
  { destruct (JS.gtb _ _);
      [| injection Hpre as <- <-; do 3 (split; [done |]); apply moved_refl].
    pose proof (animal_chooseNewDirection_keeps now a g) as (M0 & Hm & _ & Ht & _ & Hf & _).
    destruct (Animal.chooseNewDirection now a g) as [a0 g0]. cbn [fst snd] in M0, Hm, Ht, Hf.
    pose proof (moved_random g0) as M1. destruct (Heap.random g0) as [r g2].
    cbn [snd] in M1.
    destruct (JS.ltb r _).
    - pose proof (moved_random g2) as M2. destruct (Heap.random g2) as [r' g3].
      cbn [snd] in M2. injection Hpre as <- <-.
      cbn [mesh animalType flightMode set_direction].
      do 3 (split; [done |]). moved_steps.
    - injection Hpre as <- <-. do 3 (split; [done |]). moved_steps. }
  clear Hpre.
  cbv zeta.
  assert (Animal.is_bird a1 = Animal.is_bird a) as Hb1
    by (unfold Animal.is_bird; by rewrite Ht1).
  assert (Animal.is_cow a1 = Animal.is_cow a) as Hc1
    by (unfold Animal.is_cow; by rewrite Ht1).
  rewrite Hb1, Hf1, Hground, Hc1. cbn [snd].
  apply (Frame.same_object_ids _ _ Hmv1) in Hom. rewrite <- Hm1 in Hom |- *.
  assert (forall f i g0, Heap.object (Heap.update_body f i g0) (mesh a1) =
                         Heap.object g0 (mesh a1)) as Hbody by done.
  destruct (Animal.is_cow a); cbn [negb].
  - rewrite !Hbody, object_of_update_object by done. cbn. split; [done | lra].
  - destruct (flightMode a); rewrite !Hbody;
      (rewrite object_of_update_object;
       [| apply (Frame.same_object_ids _ _ (moved_update_object _ _ _)), Hom]);
      cbn [THREE.position THREE.set_position vy];
      (split; [done | apply Math_max_nonneg]).
Qed.

End AnimalGroundFacts.

Lemma X24_witness :
  let dog := (Sample.with_animal 0 DOG (mkVec3 90 0 0) Sample.empty).1 in
  let g := (Sample.with_animal 0 DOG (mkVec3 90 0 0) Sample.empty).2 in
  (0 <= vy (THREE.position
              (Heap.object (Animal.update (H := Sample.math) 100 (1 # 60) dog g).2
                 (AnimalState.mesh dog))))%Q.
Proof.
  cbv zeta.
  apply (X24_ground_animal_height (H := Sample.math) 100 (1 # 60)
           (Sample.with_animal 0 DOG (mkVec3 90 0 0) Sample.empty).1
           (Sample.with_animal 0 DOG (mkVec3 90 0 0) Sample.empty).2).
  - vm_compute. reflexivity.
  - vm_compute. reflexivity.
  - vm_compute. eexists. reflexivity.
Defined.

(** ** The vehicle without throttle *)

Section CoastingFacts.
Local Open Scope Q_scope.
Import Vehicle.

Lemma clamp_abs (v : Q) : Qabs (clamp v) <= Qabs v /\ Qabs (clamp v) <= maxSpeed.
Proof.
  pose proof reverse_limit as Hr.
  pose proof (Qle_Qabs v) as Hp. pose proof (Qle_Qabs (- v)) as Hm.
  rewrite Qabs_opp in Hm.
  unfold clamp, maxSpeed in *.
  split; apply Qabs_Qle_condition;
    (destruct (Math_min_spec v 55) as [[H1 E1] | [H1 E1]]; rewrite E1;
     [destruct (Math_max_spec v (- (55) / 2)) as [[H2 E2] | [H2 E2]]
     | destruct (Math_max_spec 55 (- (55) / 2)) as [[H2 E2] | [H2 E2]]];
     rewrite E2; split; lra).
Qed.

Lemma coast_step (veh : t) :
  let v' := velocity (applyControls no_input veh) in
  Qabs v' <= 0.98 * Qabs (velocity veh) /\ Qabs v' <= 0.98 * maxSpeed /\
  (Qabs (velocity veh) < 0.1 -> v' = 0).
Proof.
  cbv zeta. destruct (coasting_velocity no_input veh eq_refl eq_refl) as [H0 H1].
  cbn [no_input apply_brake apply_handbrake brake handbrake] in H0, H1.
  destruct (clamp_abs (velocity veh)) as [Ha Hm]. unfold maxSpeed in *.
  assert (0 <= Qabs (velocity veh)) as Hn by apply Qabs_nonneg.
  assert (0 <= Qabs (clamp (velocity veh))) as Hn' by apply Qabs_nonneg.
  destruct (Qlt_le_dec (Qabs (clamp (velocity veh))) 0.1) as [Hs | Hl].
  - rewrite (H0 Hs). change (Qabs 0) with 0. split; [lra |]. split; [lra | done].
  - rewrite (H1 Hl). rewrite Qabs_Qmult. change (Qabs 0.98) with 0.98.
    split; [lra |]. split; [lra |]. intros Hv. lra.
Qed.

Lemma coast_bound (veh : t) (k : nat) :
  Qabs (velocity (Nat.iter (S k) (applyControls no_input) veh))
  <= Nat.iter (S k) (Qmult 0.98) maxSpeed.
Proof.
  induction k as [| k IH].
  - cbn [Nat.iter nat_rect]. apply coast_step.
  - change (Nat.iter (S (S k)) (applyControls no_input) veh)
      with (applyControls no_input (Nat.iter (S k) (applyControls no_input) veh)).
    change (Nat.iter (S (S k)) (Qmult 0.98) maxSpeed)
      with (0.98 * Nat.iter (S k) (Qmult 0.98) maxSpeed).
    destruct (coast_step (Nat.iter (S k) (applyControls no_input) veh)) as [Hs _].
    lra.
Qed.

Lemma rest_stays (veh : t) (m : nat) :
  velocity veh = 0 -> velocity (Nat.iter m (applyControls no_input) veh) = 0.
Proof.
  intros Hv. induction m as [| m IH]; [done |].
  change (Nat.iter (S m) (applyControls no_input) veh)
    with (applyControls no_input (Nat.iter m (applyControls no_input) veh)).
  apply coast_step. by rewrite IH.
Qed.

Lemma coast_to_rest (veh : t) (k : nat) :
  Nat.iter (S k) (Qmult 0.98) maxSpeed < 0.1 ->
  velocity (Nat.iter (S (S k)) (applyControls no_input) veh) = 0.
Proof.
  intros Hk. rewrite Nat.iter_succ. apply coast_step.
  eapply Qle_lt_trans; [apply (coast_bound veh k) | exact Hk].
Qed.

(** X25. Without any input the vehicle comes to rest: whatever its
    velocity was, after 314 calls of [applyControls] (and after any
    larger number) it is exactly 0. *)
Theorem X25_coasting_comes_to_rest (veh : t) (n : nat) :
  (314 <= n)%nat -> velocity (Nat.iter n (applyControls no_input) veh) = 0.
Proof.
  intros Hn. replace n with ((n - 314) + 314)%nat by lia.
  rewrite Nat.iter_add. apply rest_stays. apply coast_to_rest.
  vm_compute. reflexivity.
Qed.

End CoastingFacts.

Lemma X25_witness :
  Vehicle.velocity
    (Nat.iter 400 (Vehicle.applyControls Vehicle.no_input) (Vehicle.mkVehicle 55 0 1 1)) = 0%Q.
Proof. apply (X25_coasting_comes_to_rest (Vehicle.mkVehicle 55 0 1 1) 400). lia. Defined.

Section BrakeFacts.
Local Open Scope Q_scope.
Import Vehicle.

(** X26. The brake alone does not hold a crawling car.  With only
    [brake] pressed, a forward velocity of at most 0.1 turns into the
    backward velocity [(v - 0.24) * 0.98]: the brake force overshoots
    zero and the car rolls backwards.  A forward velocity between 0.15
    and 0.33 is stopped exactly. *)
Theorem X26_brake_overshoots (veh : t) :
  let brake_only := mkControls false false false false true false in
  let v := velocity veh in
  let v' := velocity (applyControls brake_only veh) in
  (0 < v <= 0.1 -> v' == (v - 0.24) * 0.98 /\ v' < 0) /\
  (0.15 <= v <= 0.33 -> v' = 0).
Proof.
  cbv zeta.
  destruct (coasting_velocity (mkControls false false false false true false) veh
              eq_refl eq_refl) as [H0 H1].
  cbn [apply_brake apply_handbrake brake handbrake] in H0, H1.
  pose proof reverse_limit as Hr. unfold brakeForce, maxSpeed in *.
  split; intros [Hl Hu].
  - assert (JS.gtb (velocity veh) 0 = true) as Hg by (by apply gtb_true).
    rewrite Hg in H1.
    assert (clamp (velocity veh - 15 * 0.016) == velocity veh - 15 * 0.016) as Hc.
    { apply clamp_id. unfold maxSpeed. lra. }
    assert (0.1 <= JS.Math_abs (clamp (velocity veh - 15 * 0.016))) as Ha.
    { unfold JS.Math_abs. rewrite Hc.
      pose proof (Qle_Qabs (- (velocity veh - 15 * 0.016))) as Hq.
      rewrite Qabs_opp in Hq. lra. }
    rewrite (H1 Ha), Hc. split; lra.
  - assert (JS.gtb (velocity veh) 0 = true) as Hg by (apply gtb_true; lra).
    rewrite Hg in H0. apply H0.
    assert (clamp (velocity veh - 15 * 0.016) == velocity veh - 15 * 0.016) as Hc.
    { apply clamp_id. unfold maxSpeed. lra. }
    unfold JS.Math_abs. rewrite Hc. apply Qabs_Qlt_condition. lra.
Qed.

End BrakeFacts.

Lemma X26_witness :
  (Vehicle.velocity
     (Vehicle.applyControls (Vehicle.mkControls false false false false true false)
        (Vehicle.mkVehicle 0.05 0 1 1)) < 0)%Q /\
  Vehicle.velocity
    (Vehicle.applyControls (Vehicle.mkControls false false false false true false)
       (Vehicle.mkVehicle 0.2 0 1 1)) = 0%Q.
Proof.
  destruct (X26_brake_overshoots (Vehicle.mkVehicle 0.05 0 1 1)) as [Hback _].
  destruct (X26_brake_overshoots (Vehicle.mkVehicle 0.2 0 1 1)) as [_ Hstop].
  split.
  - apply Hback. split; vm_compute; congruence.
  - apply Hstop. split; vm_compute; congruence.
Defined.

(** ** The keyboard controls *)

Section ControlsFacts.
Import VehicleControls.

Lemma handleKey_spec (state : bool) (key : String.string) (c : VehicleControls.t) :
  let c' := (handleKey state key c).1 in
  (forall a, control (controlState c') a =
             if includes (keys (keyBindings c) a) key then state
             else control (controlState c) a) /\
  keyBindings c' = keyBindings c /\ vehicle c' = vehicle c /\ listening c' = listening c /\
  (handleKey state key c).2 =
    existsb (fun a => includes (keys (keyBindings c) a) key) actions.
Proof.
  destruct c as [[f b l r br hb] kb v li]. unfold handleKey, actions.
  cbn -[includes].
  destruct (includes (forward kb) key) eqn:E1; cbn -[includes];
    destruct (includes (backward kb) key) eqn:E2; cbn -[includes];
    destruct (includes (left kb) key) eqn:E3; cbn -[includes];
    destruct (includes (right kb) key) eqn:E4; cbn -[includes];
    destruct (includes (brake kb) key) eqn:E5; cbn -[includes];
    destruct (includes (handbrake kb) key) eqn:E6; cbn -[includes];
    (split; [intros []; cbn -[includes]; by rewrite ?E1, ?E2, ?E3, ?E4, ?E5, ?E6 | done]).
Qed.

(** X27. What a key event does.  After [handleKeyDown] every action
    that has the key among its bindings is on, after [handleKeyUp] it is
    off; every other action is as it was.  The event's default is
    prevented exactly when some action is bound to the key.  Bindings and
    vehicle reference are not touched. *)
Theorem X27_key_event_sets_bound_actions (key : String.string) (c : VehicleControls.t)
    (a : Action) :
  let bound := includes (keys (keyBindings c) a) key in
  control (controlState (handleKeyDown key c).1) a =
    (if bound then true else control (controlState c) a) /\
  control (controlState (handleKeyUp key c).1) a =
    (if bound then false else control (controlState c) a) /\
  (handleKeyDown key c).2 =
    existsb (fun a => includes (keys (keyBindings c) a) key) actions /\
  (handleKeyUp key c).2 = (handleKeyDown key c).2 /\
  keyBindings (handleKeyDown key c).1 = keyBindings c /\
  keyBindings (handleKeyUp key c).1 = keyBindings c.
Proof.
  cbv zeta. unfold handleKeyDown, handleKeyUp.
  destruct (handleKey_spec true key c) as (Hd & Hkd & _ & _ & Hpd).
  destruct (handleKey_spec false key c) as (Hu & Hku & _ & _ & Hpu).
  rewrite Hd, Hu, Hpd, Hpu. done.
Qed.

(** X28. Releasing one of two keys of an action releases the action:
    with two keys bound to the same action both pressed, the key-up event
    of the second turns the action off although the first is still
    held. *)
Theorem X28_release_of_one_key_releases_action (key1 key2 : String.string)
    (c : VehicleControls.t) (a : Action) :
  includes (keys (keyBindings c) a) key1 = true ->
  includes (keys (keyBindings c) a) key2 = true ->
  let held := (handleKeyDown key2 (handleKeyDown key1 c).1).1 in
  control (controlState held) a = true /\
  control (controlState (handleKeyUp key2 held).1) a = false.
Proof.
  intros H1 H2. cbv zeta. unfold handleKeyDown, handleKeyUp.
  destruct (handleKey_spec true key1 c) as (Hc1 & Hk1 & _).
  set (c1 := (handleKey true key1 c).1) in *.
  destruct (handleKey_spec true key2 c1) as (Hc2 & Hk2 & _).
  set (c2 := (handleKey true key2 c1).1) in *.
  destruct (handleKey_spec false key2 c2) as (Hc3 & _).
  rewrite Hc3, Hc2, Hk2, Hk1, H2. done.
Qed.

(** X29. A key that no action is bound to does nothing: neither
    handler changes the controls, and the event's default is not
    prevented. *)
Theorem X29_unbound_key_is_ignored (key : String.string) (c : VehicleControls.t) :
  (forall a, includes (keys (keyBindings c) a) key = false) ->
  handleKeyDown key c = (c, false) /\ handleKeyUp key c = (c, false).
Proof.
  intros Hno. unfold handleKeyDown, handleKeyUp, handleKey, actions.
  cbn -[includes].
  pose proof (Hno Forward) as Hf. pose proof (Hno Backward) as Hb.
  pose proof (Hno Left) as Hl. pose proof (Hno Right) as Hr.
  pose proof (Hno Brake) as Hbr. pose proof (Hno Handbrake) as Hh.
  cbn [keys] in Hf, Hb, Hl, Hr, Hbr, Hh.
  by rewrite Hf, Hb, Hl, Hr, Hbr, Hh.
Qed.

(** X30. [resetControls] leaves no control active, so that the next
    [update] of an attached vehicle applies no input at all; after
    [dispose] key events no longer reach the handlers and [update] leaves
    the vehicle alone. *)
Theorem X30_reset_and_dispose (key : String.string) (c : VehicleControls.t)
    (veh : Vehicle.t) :
  isAnyControlActive (resetControls c) = false /\
  (vehicle c = true ->
   update (resetControls c) veh = Vehicle.applyControls Vehicle.no_input veh) /\
  keydown key (dispose c) = (dispose c, false) /\
  keyup key (dispose c) = (dispose c, false) /\
  update (dispose c) veh = veh.
Proof.
  destruct c as [[f b l r br hb] kb v li].
  split; [done |]. split; [| done].
  cbn. by intros ->.
Qed.

End ControlsFacts.

Lemma X28_witness :
  VehicleControls.control
    (VehicleControls.controlState
       (VehicleControls.handleKeyUp VehicleControls.key_ArrowUp
          (VehicleControls.handleKeyDown VehicleControls.key_ArrowUp
             (VehicleControls.handleKeyDown VehicleControls.key_w
                VehicleControls.new).1).1).1)
    VehicleControls.Forward = false.
Proof.
  apply (X28_release_of_one_key_releases_action VehicleControls.key_w
           VehicleControls.key_ArrowUp VehicleControls.new VehicleControls.Forward);
    vm_compute; reflexivity.
Defined.

Lemma X29_witness :
  VehicleControls.handleKeyDown VehicleControls.key_x VehicleControls.new =
    (VehicleControls.new, false).
Proof.
  apply (X29_unbound_key_is_ignored VehicleControls.key_x VehicleControls.new).
  intros []; vm_compute; reflexivity.
Defined.

Lemma X30_witness :
  VehicleControls.update
    (VehicleControls.resetControls
       (VehicleControls.handleKeyDown VehicleControls.key_w
          (VehicleControls.initialize VehicleControls.new)).1)
    (Vehicle.mkVehicle 10 0 1 1) =
  Vehicle.applyControls Vehicle.no_input (Vehicle.mkVehicle 10 0 1 1).
Proof.
  destruct (X30_reset_and_dispose VehicleControls.key_w
              (VehicleControls.handleKeyDown VehicleControls.key_w
                 (VehicleControls.initialize VehicleControls.new)).1
              (Vehicle.mkVehicle 10 0 1 1)) as (_ & Hu & _).
  apply Hu. vm_compute. reflexivity.
Defined.
